(** * Sonic Odyssey bot: a shallow embedding of [claim.js] and [solanaUtils.js]

    The bot is a sequential script over three kinds of outside parties: the
    rewards API (HTTP through axios), the Solana RPC node (through a
    [Connection]) and the operator's terminal.  The embedding is a state and
    exception monad over a [World] holding the module-level variables of the
    two source files, a logical clock and the chronological trace of every
    effect.  The outside parties are an oracle [Env]: the answer to the call
    issued at clock instant [t] is the oracle's value at [t], so quantifying
    over [Env] quantifies over every possible sequence of answers.

    Numbers are integers ([Z]).  An API answer is either the payload of its
    endpoint or an axios error, with or without a response; the body of an
    error response is the JSON value [null] or an object whose [message] and
    [code] may be absent, and the answer to the open call is [null] or an
    object whose [data] may be absent or [null].  The network type is a
    number or a string, as a terminal prompt returns it.  Loading
    solanaUtils.js is the check of its top-level declarations followed by
    its top-level statements.  Unbounded loops ([while], [do ... while])
    take fuel and end in [OutOfFuel] when it is spent. *)

From Stdlib Require Import ZArith List String Ascii Bool Lia PeanoNat Sorted.
Import ListNotations.
Open Scope string_scope.
Open Scope list_scope.
Open Scope Z_scope.

Set Implicit Arguments.

(** ** Values exchanged with the outside *)

Record Keypair := { publicKey : string; secretKey : string }.

Record Connection := { rpc_url : string; commitment : string }.

Record Transaction := { tx_payload : string; tx_signers : list string }.

(** [error.response.data] of an axios error, when it is an object.  A body
    that is a string or a number reads as the object without [message] and
    [code]. *)
Record ErrData := { data_message : option string; data_code : option Z }.

(** A JavaScript error object.  [error.response] is present for an HTTP
    error status only: [Some None] is a response whose body is [null],
    [Some (Some data)] one whose body is [data]. *)
Record Error := {
  err_response : option (option ErrData);
  err_message : string
}.

Definition Result (A : Type) : Type := (A + Error)%type.

Definition plainError (msg : string) : Error :=
  {| err_response := None; err_message := msg |}.

(** [error.response?.data?.message || error.message] *)
Definition errText (error : Error) : string :=
  match err_response error with
  | Some (Some data) =>
      match data_message data with
      | Some m => if String.eqb m "" then err_message error else m
      | None => err_message error
      end
  | Some None | None => err_message error
  end.

Record Profile := { wallet_balance : Z; ring : Z; ring_monitor : Z }.

(** [openedBox.data] of the mystery-box open call. *)
Record BoxData := { box_success : bool; box_amount : Z }.

(** A property of a JSON object: absent, [null], or holding a value. *)
Inductive Field (A : Type) :=
| Absent
| Null
| Present (a : A).
Arguments Absent {A}.
Arguments Null {A}.

(** [response.data] of the mystery-box open call, when it is an object. *)
Record OpenedBox := { ob_status : string; ob_data : Field BoxData }.

(** A value of the variable [NETWORK_TYPE]: a number, or a string as a
    terminal prompt returns it. *)
Inductive NetType :=
| Number (n : Z)
| Text (s : string).

Inductive Method := GET | POST.

Inductive Endpoint :=
| AuthChallenge | AuthAuthorize | RewardsInfo
| MysteryBoxBuildTx | MysteryBoxOpen
| TransactionsStateDaily | TransactionsRewardsClaim
| CheckInTransaction | CheckIn.

Definition path_of (e : Endpoint) : string :=
  match e with
  | AuthChallenge => "/auth/sonic/challenge"
  | AuthAuthorize => "/auth/sonic/authorize"
  | RewardsInfo => "/user/rewards/info"
  | MysteryBoxBuildTx => "/user/rewards/mystery-box/build-tx"
  | MysteryBoxOpen => "/user/rewards/mystery-box/open"
  | TransactionsStateDaily => "/user/transactions/state/daily"
  | TransactionsRewardsClaim => "/user/transactions/rewards/claim"
  | CheckInTransaction => "/user/check-in/transaction"
  | CheckIn => "/user/check-in"
  end.

Inductive ReqData :=
| NoData
| WalletParam (wallet : string)
| AuthorizeData (address address_encoded signature : string)
| HashData (hash : string)
| StageData (stage : Z).

Definition Headers := list (string * option string).

(** An axios request.  The url of the source is
    [apiBaseUrl + <network segment> + <path>]; the three parts are kept
    apart and [url_of] joins them. *)
Record Request := {
  req_method : Method;
  req_network : string;
  req_endpoint : Endpoint;
  req_headers : Headers;
  req_data : ReqData
}.

Definition apiBaseUrl : string := "https://odyssey-api-beta.sonic.game".

Definition url_of (r : Request) : string :=
  (apiBaseUrl ++ req_network r ++ path_of (req_endpoint r))%string.

(** ** Console output *)

Inductive LogLine :=
| LErrorFetchingToken (msg : string)
| LErrorFetchingProfile (msg : string)
| LRetryingTransaction (retries : nat)
| LErrorInTransaction (msg : string)
| LRetryingOpeningBox (retries : nat)
| LErrorOpeningBox (msg : string)
| LHello (publicKey : string)
| LSolanaBalance (lamports : Z)
| LRingBalance (ring : Z)
| LAvailableBoxes (boxes : Z)
| LBlank
| LStartingAutoFlow
| LClaimingDailyRewards
| LDailyClaimCompleted
| LCannotOpenMore
| LEnterValidNumber
| LOpeningBoxes
| LBoxOpeningCompleted
| LPerformingDailyLogin
| LDailyLoginCompleted
| LInsufficientBalance
| LErrorProcessingKey (msg : string)
| LErrorDailyFetching (msg : string)
| LTotalTransactions (total : option Z)
| LClaimSuccessful (stage : Z) (claimed : bool)
| LErrorClaimingStage (stage : Z) (msg : string)
| LAlreadyClaimed (stage : Z)
| LErrorClaiming (msg : string)
| LAllStagesProcessed
| LErrorInDailyClaim (msg : string)
| LErrorInDailyLogin (msg : string)
| LBoxOpened (status : string) (amount : Z)
| LAllBoxesOpened
| LAutoFlowCompleted
| LErrorInAutoFlow (msg : string)
| LWaiting12Hours
| LHeader
| LAllKeysProcessed
| LErrorInBotOperation (msg : string)
| LThanks.

Inductive Prompt :=
| AskNetworkType
| AskAutoFlow
| AskMethod
| AskHowManyBoxes (availableBoxes : Z).

(** ** Effects *)

Inductive FsOp := FsRead | FsWrite.

(** One entry of the trace.  Calls that wait for an outside party carry
    the clock instant at which they were issued and answered. *)
Inductive Event :=
| EvFs (op : FsOp) (path : string)
| EvRequest (t : nat) (r : Request)
| EvSendRaw (t : nat) (c : Connection) (raw : string)
| EvConfirm (t : nat) (c : Connection) (signature : string)
| EvQuestion (t : nat) (p : Prompt)
| EvDelay (ms : Z)
| EvLog (l : LogLine).

(** The module-level variables of both files, the clock and the trace.
    [su_NETWORK_TYPE] and [su_connection] are the [var]s of solanaUtils.js,
    [connection] is the [var] of claim.js. *)
Record World := {
  clock : nat;
  su_NETWORK_TYPE : NetType;
  su_connection : option Connection;
  connection : option Connection;
  trace : list Event
}.

Definition initialWorld : World :=
  {| clock := 0%nat; su_NETWORK_TYPE := Number 3; su_connection := None;
     connection := None; trace := [] |}.

Inductive Outcome (A : Type) :=
| Done (a : A)
| Thrown (error : Error)
| OutOfFuel.
Arguments Thrown {A} error.
Arguments OutOfFuel {A}.

Definition M (A : Type) : Type := World -> Outcome A * World.

Definition ret {A} (a : A) : M A := fun w => (Done a, w).

Definition bind {A B} (m : M A) (f : A -> M B) : M B :=
  fun w =>
    match m w with
    | (Done a, w') => f a w'
    | (Thrown e, w') => (Thrown e, w')
    | (OutOfFuel, w') => (OutOfFuel, w')
    end.

Definition throw {A} (e : Error) : M A := fun w => (Thrown e, w).

Definition outOfFuel {A} : M A := fun w => (OutOfFuel, w).

(** [try { body } catch (error) { handler }] *)
Definition try_catch {A} (body : M A) (handler : Error -> M A) : M A :=
  fun w =>
    match body w with
    | (Thrown e, w') => handler e w'
    | other => other
    end.

(** [try { body } finally { final }]: [final] runs on both exits; an error
    thrown by [final] replaces the pending result. *)
Definition try_finally {A} (body : M A) (final : M unit) : M A :=
  fun w =>
    match body w with
    | (OutOfFuel, w') => (OutOfFuel, w')
    | (r, w') =>
        match final w' with
        | (Done _, w'') => (r, w'')
        | (Thrown e, w'') => (Thrown e, w'')
        | (OutOfFuel, w'') => (OutOfFuel, w'')
        end
    end.

Declare Scope bot_scope.
Delimit Scope bot_scope with bot.
Notation "x <- c1 ;; c2" := (bind c1 (fun x => c2))
  (at level 100, c1 at next level, right associativity) : bot_scope.
Notation "c1 ;; c2" := (bind c1 (fun _ => c2))
  (at level 100, right associativity) : bot_scope.
Notation "'TRY' b 'CATCH' e '=>' h" := (try_catch b (fun e => h))
  (at level 100, e name, b at next level, h at level 100) : bot_scope.
Open Scope bot_scope.

Definition liftResult {A} (r : Result A) : M A :=
  match r with
  | inl a => ret a
  | inr e => throw e
  end.

Definition record (e : Event) (w : World) : World :=
  {| clock := clock w; su_NETWORK_TYPE := su_NETWORK_TYPE w;
     su_connection := su_connection w; connection := connection w;
     trace := trace w ++ [e] |}.

Definition advance (w : World) : World :=
  {| clock := S (clock w); su_NETWORK_TYPE := su_NETWORK_TYPE w;
     su_connection := su_connection w; connection := connection w;
     trace := trace w |}.

Definition emit (e : Event) : M unit := fun w => (Done tt, record e w).

(** A call answered by an outside party: the event is stamped with the
    current instant, the clock moves on, and the oracle's answer at that
    instant is delivered. *)
Definition call {A} (ev : nat -> Event) (answer : nat -> Result A) : M A :=
  fun w =>
    let t := clock w in
    liftResult (answer t) (advance (record (ev t) w)).

Definition log (l : LogLine) : M unit := emit (EvLog l).

(** [delay(ms)] and [new Promise((res) => setTimeout(res, ms))] *)
Definition delay (ms : Z) : M unit := emit (EvDelay ms).

(** ** The outside parties *)

(** The libraries the script delegates to (bs58, web3.js, tweetnacl,
    Buffer, the language's own string-to-number conversion), the contents
    of the key file, and the answers of the API, the RPC node and the
    operator, each indexed by the instant of the call. *)
Record Env := {
  (* base58.decode followed by Keypair.fromSecretKey *)
  keypairFromSecretKey : string -> Result Keypair;
  toBase58 : string -> string;
  toBase64 : string -> string;
  sign_detached : string -> string -> string;
  (* Transaction.from(Buffer.from(hash, 'base64')) *)
  transactionFrom : string -> Result Transaction;
  partialSign : Transaction -> Keypair -> Result Transaction;
  serialize : Transaction -> Result string;
  (* ToNumber on a string; None is NaN *)
  toNumber : string -> option Z;
  (* JSON.parse(fs.readFileSync('privateKeys.json', 'utf-8')) *)
  privateKeysFile : Result (list string);
  api_challenge : nat -> Result string;
  api_authorize : nat -> Result string;
  api_rewards_info : nat -> Result Profile;
  api_build_tx : nat -> Result string;
  (* response.data of the open call: None is the JSON value null *)
  api_open : nat -> Result (option OpenedBox);
  api_state_daily : nat -> Result Z;
  api_claim : nat -> Result bool;
  api_check_in_transaction : nat -> Result string;
  api_check_in : nat -> Result string;
  rpc_sendRawTransaction : nat -> Result string;
  rpc_confirmTransaction : nat -> Result unit;
  operator_answer : nat -> string;
  (* what getNetworkTypeFromUser hands to setNetType *)
  operator_network : nat -> NetType
}.

Definition DEVNET_URL : string := "https://devnet.sonic.game/".
Definition TESTNET_V0_URL : string := "https://api.testnet.v0.sonic.game/".
Definition TESTNET_V1_URL : string := "https://api.testnet.v1.sonic.game/".

Definition newConnection (url : string) : Connection :=
  {| rpc_url := url; commitment := "confirmed" |}.

(** [netType === n] for a number [n], as the cases of a [switch] compare:
    no string is strictly equal to a number. *)
Definition strictlyEquals (netType : NetType) (n : Z) : bool :=
  match netType with
  | Number z => z =? n
  | Text _ => false
  end.

(** [netType == n] for a number [n]: a string is converted by ToNumber
    before the comparison. *)
Definition looselyEquals (env : Env) (netType : NetType) (n : Z) : bool :=
  match netType with
  | Number z => z =? n
  | Text s =>
      match toNumber env s with
      | Some z => z =? n
      | None => false
      end
  end.

(** [getNetType() == 3 ? '/testnet-v1' : getNetType() == 2 ? '/testnet' : ''] *)
Definition networkSegment (env : Env) (netType : NetType) : string :=
  if looselyEquals env netType 3 then "/testnet-v1"
  else if looselyEquals env netType 2 then "/testnet"
  else "".

(** The TypeError of reading [property] on [undefined]. *)
Definition typeError (property : string) : Error :=
  plainError
    ("Cannot read properties of undefined (reading '" ++ property ++ "')")%string.

(** The TypeError of reading [property] on [null]. *)
Definition nullTypeError (property : string) : Error :=
  plainError
    ("Cannot read properties of null (reading '" ++ property ++ "')")%string.

Definition isYes (s : string) : bool :=
  String.eqb s "y" || String.eqb s "Y".

Definition notReadyMessage : string := "interact task not finished".
Definition alreadyCheckedInMessage : string := "current account already checked in".
Definition notEnoughMessage : string := "Not enough transactions to claim rewards.".
Definition invalidMethodMessage : string := "Invalid input method selected".

Definition maxCounter : Z := 3.

(** [error.response && error.response.data.message === msg]: the body is
    read without a guard, so a [null] body throws. *)
Definition responseMessageIs (error : Error) (msg : string) : Result bool :=
  match err_response error with
  | None => inl false
  | Some None => inr (nullTypeError "message")
  | Some (Some data) =>
      inl match data_message data with
          | Some m => String.eqb m msg
          | None => false
          end
  end.

(** [error.response &&
     (error.response.data.code === 100015 || error.response.data.code === 100016)] *)
Definition responseCodeIsClaimed (error : Error) : Result bool :=
  match err_response error with
  | None => inl false
  | Some None => inr (nullTypeError "code")
  | Some (Some data) =>
      inl match data_code data with
          | Some c => (c =? 100015) || (c =? 100016)
          | None => false
          end
  end.

(** ** Loading a module *)

Inductive DeclKind := ConstDecl | VarDecl | FunctionDecl.

(** A top-level declaration of a module: the line of the listing on which
    its statement starts, its kind and the name it binds. *)
Record Declaration := {
  decl_line : nat;
  decl_kind : DeclKind;
  decl_name : string
}.

(** The top-level declarations of solanaUtils.js in source order.  The
    destructuring [const] of its first statement binds seven names;
    [async function] is a function declaration. *)
Definition solanaUtilsDeclarations : list Declaration :=
  [ {| decl_line := 414; decl_kind := ConstDecl; decl_name := "Connection" |};
    {| decl_line := 414; decl_kind := ConstDecl; decl_name := "LAMPORTS_PER_SOL" |};
    {| decl_line := 414; decl_kind := ConstDecl; decl_name := "Transaction" |};
    {| decl_line := 414; decl_kind := ConstDecl; decl_name := "SystemProgram" |};
    {| decl_line := 414; decl_kind := ConstDecl;
       decl_name := "sendAndConfirmTransaction" |};
    {| decl_line := 414; decl_kind := ConstDecl; decl_name := "PublicKey" |};
    {| decl_line := 414; decl_kind := ConstDecl; decl_name := "Keypair" |};
    {| decl_line := 423; decl_kind := ConstDecl; decl_name := "bip39" |};
    {| decl_line := 424; decl_kind := ConstDecl; decl_name := "derivePath" |};
    {| decl_line := 425; decl_kind := ConstDecl; decl_name := "base58" |};
    {| decl_line := 426; decl_kind := ConstDecl; decl_name := "colors" |};
    {| decl_line := 428; decl_kind := ConstDecl; decl_name := "DEVNET_URL" |};
    {| decl_line := 429; decl_kind := ConstDecl; decl_name := "TESTNET_V0_URL" |};
    {| decl_line := 430; decl_kind := ConstDecl; decl_name := "TESTNET_V1_URL" |};
    {| decl_line := 431; decl_kind := VarDecl; decl_name := "NETWORK_TYPE" |};
    {| decl_line := 432; decl_kind := VarDecl; decl_name := "connection" |};
    {| decl_line := 434; decl_kind := FunctionDecl; decl_name := "setNetType" |};
    {| decl_line := 449; decl_kind := FunctionDecl; decl_name := "getConnection" |};
    {| decl_line := 452; decl_kind := FunctionDecl; decl_name := "getNetType" |};
    {| decl_line := 456; decl_kind := FunctionDecl; decl_name := "sendSol" |};
    {| decl_line := 471; decl_kind := FunctionDecl;
       decl_name := "generateRandomAddresses" |};
    {| decl_line := 477; decl_kind := FunctionDecl;
       decl_name := "getKeypairFromSeed" |};
    {| decl_line := 483; decl_kind := ConstDecl; decl_name := "base58" |};
    {| decl_line := 486; decl_kind := FunctionDecl; decl_name := "isValidBase58" |};
    {| decl_line := 491; decl_kind := FunctionDecl;
       decl_name := "getKeypairFromPrivateKey" |};
    {| decl_line := 503; decl_kind := ConstDecl; decl_name := "delay" |} ].

Definition isLexical (d : Declaration) : bool :=
  match decl_kind d with
  | ConstDecl => true
  | VarDecl | FunctionDecl => false
  end.

(** Two declarations of one name clash unless both are [var] or function
    declarations. *)
Definition clash (a b : Declaration) : bool :=
  String.eqb (decl_name a) (decl_name b) && (isLexical a || isLexical b).

(** The first declaration that clashes with one before it. *)
Fixpoint redeclaration (seen declarations : list Declaration)
    : option Declaration :=
  match declarations with
  | [] => None
  | d :: rest =>
      if existsb (clash d) seen then Some d
      else redeclaration (d :: seen) rest
  end.

(** The SyntaxError for a name declared twice. *)
Definition syntaxError (name : string) : Error :=
  plainError ("Identifier '" ++ name ++ "' has already been declared")%string.

(** [require] of a module of the script: a module with a redeclaration is
    rejected as a whole, before any of its statements runs. *)
Definition requireModule (declarations : list Declaration) (body : M unit)
    : M unit :=
  match redeclaration [] declarations with
  | Some d => throw (syntaxError (decl_name d))
  | None => body
  end.

(** The statements of solanaUtils.js that run when it loads:
    [var NETWORK_TYPE = 3; var connection;]. *)
Definition solanaUtilsBody : M unit :=
  fun w =>
    (Done tt,
     {| clock := clock w; su_NETWORK_TYPE := Number 3; su_connection := None;
        connection := connection w; trace := trace w |}).

Section Bot.

Variable env : Env.

(** [HEADERS] of ./src/headers, which is not among the sources. *)
Variable HEADERS : Headers.

(** *** solanaUtils.js *)

(** [switch (NETWORK_TYPE)]: [case 1], [case 2], and [case 3] sharing the
    [default] branch. *)
Definition setNetType (netType : NetType) : M unit :=
  fun w =>
    let url :=
      if strictlyEquals netType 1 then DEVNET_URL
      else if strictlyEquals netType 2 then TESTNET_V0_URL
      else TESTNET_V1_URL in
    (Done tt,
     {| clock := clock w; su_NETWORK_TYPE := netType;
        su_connection := Some (newConnection url);
        connection := connection w; trace := trace w |}).

Definition getConnection : M (option Connection) :=
  fun w => (Done (su_connection w), w).

Definition getNetType : M NetType :=
  fun w => (Done (su_NETWORK_TYPE w), w).

(** *** claim.js *)

(** [connection = ...] on the variable of claim.js *)
Definition assignConnection (c : option Connection) : M unit :=
  fun w =>
    (Done tt,
     {| clock := clock w; su_NETWORK_TYPE := su_NETWORK_TYPE w;
        su_connection := su_connection w;
        connection := c; trace := trace w |}).

(** [connection.<method>]: the handle, or the TypeError on [undefined]. *)
Definition readConnection (method : string) : M Connection :=
  fun w =>
    match connection w with
    | Some c => (Done c, w)
    | None => (Thrown (typeError method), w)
    end.

Definition withAuthorization (token : option string) : Headers :=
  HEADERS ++ [("Authorization", token)].

Definition axios {A} (method : Method) (endpoint : Endpoint)
    (headers : Headers) (data : ReqData) (answer : nat -> Result A) : M A :=
  netType <- getNetType;;
  call (fun t => EvRequest t
          {| req_method := method; req_network := networkSegment env netType;
             req_endpoint := endpoint; req_headers := headers;
             req_data := data |})
       answer.

Definition question (p : Prompt) : M string :=
  call (fun t => EvQuestion t p) (fun t => inl (operator_answer env t)).

(** Get keypair from private key *)
Definition getKeypair (privateKey : string) : M Keypair :=
  liftResult (keypairFromSecretKey env privateKey).

(** Fetch authentication token; [None] is the [undefined] returned after
    a logged failure. *)
Definition getToken (privateKey : string) : M (option string) :=
  TRY (
    wallet <- getKeypair privateKey;;
    data <- axios GET AuthChallenge HEADERS
              (WalletParam (publicKey wallet)) (api_challenge env);;
    signer <- getKeypair privateKey;;
    let signature := toBase64 env (sign_detached env data (secretKey signer)) in
    owner <- getKeypair privateKey;;
    let encodedPublicKey := toBase64 env (publicKey owner) in
    token <- axios POST AuthAuthorize HEADERS
               (AuthorizeData (publicKey owner) encodedPublicKey signature)
               (api_authorize env);;
    ret (Some token)
  ) CATCH error =>
    log (LErrorFetchingToken (errText error));;
    ret None.

(** Fetch user profile *)
Definition getProfile (token : option string) : M (option Profile) :=
  TRY (
    data <- axios GET RewardsInfo (withAuthorization token) NoData
              (api_rewards_info env);;
    ret (Some data)
  ) CATCH error =>
    log (LErrorFetchingProfile (errText error));;
    ret None.

Definition sendRawTransaction (raw : string) : M string :=
  c <- readConnection "sendRawTransaction";;
  call (fun t => EvSendRaw t c raw) (rpc_sendRawTransaction env).

Definition confirmTransaction (signature : string) : M unit :=
  c <- readConnection "confirmTransaction";;
  call (fun t => EvConfirm t c signature) (rpc_confirmTransaction env).

(** The [try] block of [doTransactions]: one submission attempt. *)
Definition submitOnce (tx : Transaction) : M string :=
  bufferTransaction <- liftResult (serialize env tx);;
  signature <- sendRawTransaction bufferTransaction;;
  confirmTransaction signature;;
  ret signature.

(** Perform Solana transactions with retry logic.  Callers leave
    [retries] to its default, 3. *)
Fixpoint doTransactions (tx : Transaction) (keypair : Keypair)
    (retries : nat) : M string :=
  TRY submitOnce tx
  CATCH error =>
    match retries with
    | S retries' =>
        log (LRetryingTransaction retries);;
        delay 1000;;
        doTransactions tx keypair retries'
    | O =>
        log (LErrorInTransaction (errText error));;
        throw error
    end.

Definition defaultRetries : nat := 3.

(** The [try] block of [openMysteryBox]: one attempt at opening a box. *)
Definition openOnce (token : option string) (keypair : Keypair)
    : M (option OpenedBox) :=
  hash <- axios GET MysteryBoxBuildTx (withAuthorization token) NoData
            (api_build_tx env);;
  tx <- liftResult (transactionFrom env hash);;
  tx <- liftResult (partialSign env tx keypair);;
  signature <- doTransactions tx keypair defaultRetries;;
  axios POST MysteryBoxOpen (withAuthorization token) (HashData signature)
    (api_open env).

(** Open a mystery box *)
Fixpoint openMysteryBox (token : option string) (keypair : Keypair)
    (retries : nat) : M (option OpenedBox) :=
  TRY openOnce token keypair
  CATCH error =>
    match retries with
    | S retries' =>
        log (LRetryingOpeningBox retries);;
        delay 1000;;
        openMysteryBox token keypair retries'
    | O =>
        log (LErrorOpeningBox (errText error));;
        throw error
    end.

(** Fetch daily transactions; [None] is the [undefined] returned after a
    logged failure. *)
Definition fetchDaily (token : option string) : M (option Z) :=
  TRY (
    total <- axios GET TransactionsStateDaily (withAuthorization token) NoData
               (api_state_daily env);;
    ret (Some total)
  ) CATCH error =>
    log (LErrorDailyFetching (errText error));;
    ret None.

(** [fetchDailyResponse > 10]; the comparison is false on [undefined]. *)
Definition moreThanTen (fetchDailyResponse : option Z) : bool :=
  match fetchDailyResponse with
  | Some n => 10 <? n
  | None => false
  end.

(** The [catch] block of the stage loop: the value is the counter after
    the block.  The conditions read [error.response.data] without a guard
    and may throw; the last branch reads it with [?.]. *)
Definition claimFailed (counter : Z) (error : Error) : M Z :=
  notFinished <- liftResult (responseMessageIs error notReadyMessage);;
  if notFinished then
    log (LErrorClaimingStage counter notReadyMessage);;
    ret (counter + 1)
  else
    alreadyClaimed <- liftResult (responseCodeIsClaimed error);;
    if alreadyClaimed then
      log (LAlreadyClaimed counter);;
      ret (counter + 1)
    else
      log (LErrorClaiming (errText error));;
      ret counter.

(** One turn of the stage loop, [try]/[catch]/[finally]; the value is the
    counter after the turn. *)
Definition claimStage (token : option string) (counter : Z) : M Z :=
  try_finally
    (TRY (
       claimed <- axios POST TransactionsRewardsClaim (withAuthorization token)
                    (StageData counter) (api_claim env);;
       log (LClaimSuccessful counter claimed);;
       ret (counter + 1)
     ) CATCH error => claimFailed counter error)
    (delay 1000).

(** [while (counter <= maxCounter) { ... }] *)
Fixpoint claimLoop (fuel : nat) (token : option string) (counter : Z) : M unit :=
  if counter <=? maxCounter then
    match fuel with
    | O => outOfFuel
    | S fuel' =>
        counter' <- claimStage token counter;;
        claimLoop fuel' token counter'
    end
  else ret tt.

(** The outer [try] block of [dailyClaim]. *)
Definition dailyClaimBody (fuel : nat) (token : option string) : M unit :=
  fetchDailyResponse <- fetchDaily token;;
  log (LTotalTransactions fetchDailyResponse);;
  if moreThanTen fetchDailyResponse then
    claimLoop fuel token 1;;
    log LAllStagesProcessed
  else
    throw (plainError notEnoughMessage).

(** Claim daily rewards *)
Definition dailyClaim (fuel : nat) (token : option string) : M unit :=
  TRY dailyClaimBody fuel token
  CATCH error => log (LErrorInDailyClaim (errText error)).

(** Perform daily login; the value is the check-in response, or [None]
    after a logged failure.  The condition of the [catch] block reads
    [error.response.data] without a guard and may throw. *)
Definition dailyLogin (token : option string) (keypair : Keypair)
    : M (option string) :=
  TRY (
    hash <- axios GET CheckInTransaction (withAuthorization token) NoData
              (api_check_in_transaction env);;
    tx <- liftResult (transactionFrom env hash);;
    tx <- liftResult (partialSign env tx keypair);;
    signature <- doTransactions tx keypair defaultRetries;;
    response <- axios POST CheckIn (withAuthorization token)
                  (HashData signature) (api_check_in env);;
    ret (Some response)
  ) CATCH error =>
    checkedIn <- liftResult (responseMessageIs error alreadyCheckedInMessage);;
    (if checkedIn then
       log (LErrorInDailyLogin alreadyCheckedInMessage)
     else
       log (LErrorClaiming (errText error)));;
    ret None.

(** [openedBox.data.success], read outside any [try]: it throws on a
    [null] answer and on an answer whose [data] is absent or [null]. *)
Definition readSuccess (openedBox : option OpenedBox) : Result BoxData :=
  match openedBox with
  | None => inr (nullTypeError "data")
  | Some box =>
      match ob_data box with
      | Absent => inr (typeError "success")
      | Null => inr (nullTypeError "success")
      | Present data => inl data
      end
  end.

(** [openedBox.status], which the success line prints. *)
Definition statusOf (openedBox : option OpenedBox) : string :=
  match openedBox with
  | Some box => ob_status box
  | None => "undefined"
  end.

(** The body of the [for] loop of [openMultipleBoxes]. *)
Definition openAndReport (token : option string) (keypair : Keypair) : M unit :=
  openedBox <- openMysteryBox token keypair defaultRetries;;
  data <- liftResult (readSuccess openedBox);;
  if box_success data then
    log (LBoxOpened (statusOf openedBox) (box_amount data))
  else
    log LAllBoxesOpened.

(** [for (let i = 0; i < totalClaim; i++)], by the number of turns left. *)
Fixpoint openBoxes (turns : nat) (token : option string) (keypair : Keypair)
    : M unit :=
  match turns with
  | O => ret tt
  | S turns' =>
      openAndReport token keypair;;
      openBoxes turns' token keypair
  end.

(** Open multiple boxes *)
Definition openMultipleBoxes (token : option string) (keypair : Keypair)
    (totalClaim : Z) : M unit :=
  openBoxes (Z.to_nat totalClaim) token keypair.

Definition twelveHours : Z := 12 * 60 * 60 * 1000.

(** The [try] block of one turn of [runAutoFlow]. *)
Definition autoFlowOnce (fuel : nat) (token : option string)
    (keypair : Keypair) : M unit :=
  dailyLogin token keypair;;
  dailyClaim fuel token;;
  profile <- getProfile token;;
  match profile with
  | None => throw (typeError "ring_monitor")
  | Some p =>
      let availableBoxes := ring_monitor p in
      openMultipleBoxes token keypair availableBoxes;;
      log LAutoFlowCompleted
  end.

(** One turn of [while (true)] in [runAutoFlow]. *)
Definition autoFlowTurn (fuel : nat) (token : option string)
    (keypair : Keypair) : M unit :=
  (TRY autoFlowOnce fuel token keypair
   CATCH error => log (LErrorInAutoFlow (errText error)));;
  log LWaiting12Hours;;
  delay twelveHours.

(** Run auto flow (daily login, claim, and open boxes): [while (true)],
    which only fuel ends. *)
Fixpoint runAutoFlowTurns (turns fuel : nat) (token : option string)
    (keypair : Keypair) : M unit :=
  match turns with
  | O => outOfFuel
  | S turns' =>
      autoFlowTurn fuel token keypair;;
      runAutoFlowTurns turns' fuel token keypair
  end.

Definition runAutoFlow (fuel : nat) (token : option string)
    (keypair : Keypair) : M unit :=
  runAutoFlowTurns fuel fuel token keypair.

(** [totalClaim > availableBoxes] with [totalClaim] a string *)
Definition exceeds (totalClaim : string) (availableBoxes : Z) : bool :=
  match toNumber env totalClaim with
  | Some n => availableBoxes <? n
  | None => false
  end.

(** The [do ... while (totalClaim > availableBoxes)] of menu entry 2. *)
Fixpoint askAndOpenBoxes (fuel : nat) (privateKey : string)
    (token : option string) (availableBoxes : Z) : M unit :=
  match fuel with
  | O => outOfFuel
  | S fuel' =>
      totalClaim <- question (AskHowManyBoxes availableBoxes);;
      (if exceeds totalClaim availableBoxes then
         log LCannotOpenMore
       else
         match toNumber env totalClaim with
         | None => log LEnterValidNumber
         | Some n =>
             log LOpeningBoxes;;
             keypair <- getKeypair privateKey;;
             openMultipleBoxes token keypair n;;
             log LBoxOpeningCompleted
         end);;
      if exceeds totalClaim availableBoxes then
        askAndOpenBoxes fuel' privateKey token availableBoxes
      else ret tt
  end.

(** The manual menu of [processPrivateKey]. *)
Definition manualFlow (fuel : nat) (privateKey : string)
    (token : option string) (availableBoxes : Z) : M unit :=
  method <- question AskMethod;;
  log LBlank;;
  if String.eqb method "1" then
    log LClaimingDailyRewards;;
    dailyClaim fuel token;;
    log LDailyClaimCompleted
  else if String.eqb method "2" then
    askAndOpenBoxes fuel privateKey token availableBoxes
  else if String.eqb method "3" then
    log LPerformingDailyLogin;;
    keypair <- getKeypair privateKey;;
    dailyLogin token keypair;;
    log LDailyLoginCompleted
  else
    throw (plainError invalidMethodMessage).

(** The [try] block of [processPrivateKey]. *)
Definition processPrivateKeyBody (fuel : nat) (privateKey : string) : M unit :=
  owner <- getKeypair privateKey;;
  let publicKey := toBase58 env (publicKey owner) in
  token <- getToken privateKey;;
  profile <- getProfile token;;
  match profile with
  | None => throw (typeError "wallet_balance")
  | Some profile =>
      if 0 <? wallet_balance profile then
        let availableBoxes := ring_monitor profile in
        log (LHello publicKey);;
        log (LSolanaBalance (wallet_balance profile));;
        log (LRingBalance (ring profile));;
        log (LAvailableBoxes availableBoxes);;
        log LBlank;;
        isAutoFlow <- question AskAutoFlow;;
        log LBlank;;
        if isYes isAutoFlow then
          log LStartingAutoFlow;;
          keypair <- getKeypair privateKey;;
          runAutoFlow fuel token keypair
        else
          manualFlow fuel privateKey token availableBoxes
      else
        log LInsufficientBalance
  end.

(** Process each private key *)
Definition processPrivateKey (fuel : nat) (privateKey : string) : M unit :=
  (TRY processPrivateKeyBody fuel privateKey
   CATCH error => log (LErrorProcessingKey (errText error)));;
  log LBlank.

(** [for (let i = 0; i < PRIVATE_KEYS.length; i++)] *)
Fixpoint processKeys (fuel : nat) (keys : list string) : M unit :=
  match keys with
  | [] => ret tt
  | privateKey :: rest =>
      processPrivateKey fuel privateKey;;
      processKeys fuel rest
  end.

(** Modelled from the spec: displayUtils.js is not among the sources.  The
    spec calls terminal I/O a thin wrapper with no original logic, and the
    comment in the main function says that [getNetworkTypeFromUser]
    "calls setNetType internally": [displayHeader] prints the banner and
    [getNetworkTypeFromUser] asks the operator for the network type and
    hands the answer to [setNetType]. *)
Definition displayHeader : M unit := log LHeader.

(** Modelled from the spec: [getNetworkTypeFromUser] of displayUtils.js,
    terminal I/O that "calls setNetType internally"; the operator's choice
    is the oracle's [operator_network]. *)
Definition getNetworkTypeFromUser : M unit :=
  netType <- call (fun t => EvQuestion t AskNetworkType)
               (fun t => inl (operator_network env t));;
  setNetType netType.

(** The [try] block of the main function. *)
Definition mainBody (fuel : nat) (PRIVATE_KEYS : list string) : M unit :=
  displayHeader;;
  getNetworkTypeFromUser;;
  c <- getConnection;;
  assignConnection c;;
  processKeys fuel PRIVATE_KEYS;;
  log LAllKeysProcessed.

(** Main execution *)
Definition main (fuel : nat) (PRIVATE_KEYS : list string) : M unit :=
  try_finally
    (TRY mainBody fuel PRIVATE_KEYS
     CATCH error => log (LErrorInBotOperation (errText error)))
    (log LThanks).

(** Load private keys from file, at module load. *)
Definition loadPrivateKeys : M (list string) :=
  emit (EvFs FsRead "privateKeys.json");;
  liftResult (privateKeysFile env).

(** The statements of claim.js below its [require]s, in order. *)
Definition scriptBody (fuel : nat) : M unit :=
  PRIVATE_KEYS <- loadPrivateKeys;;
  main fuel PRIVATE_KEYS.

(** The whole script: [require('./src/solanaUtils')] at line 7, then the
    statements below.  The other modules it requires are packages or files
    that are not among the sources. *)
Definition script (fuel : nat) : M unit :=
  requireModule solanaUtilsDeclarations solanaUtilsBody;;
  scriptBody fuel.

End Bot.

(** * Reasoning about runs *)

(** ** Reading the trace *)

Definition stamp (e : Event) : option nat :=
  match e with
  | EvRequest t _ | EvSendRaw t _ _ | EvConfirm t _ _ | EvQuestion t _ => Some t
  | EvFs _ _ | EvDelay _ | EvLog _ => None
  end.

Fixpoint stamps (evs : list Event) : list nat :=
  match evs with
  | [] => []
  | e :: rest =>
      match stamp e with
      | Some t => t :: stamps rest
      | None => stamps rest
      end
  end.

(** What a kind of event may be: requests to the endpoints of [eps] only,
    RPC traffic and operator questions only when allowed, console lines of
    the class [lines] only; pauses always; never a file operation. *)
Definition may (eps : Endpoint -> bool) (rpc ask : bool)
    (lines : LogLine -> bool) (e : Event) : bool :=
  match e with
  | EvFs _ _ => false
  | EvRequest _ r => eps (req_endpoint r)
  | EvSendRaw _ _ _ | EvConfirm _ _ _ => rpc
  | EvQuestion _ _ => ask
  | EvDelay _ => true
  | EvLog l => lines l
  end.

Definition noEndpoint (ep : Endpoint) : bool := false.

Definition authEndpoint (ep : Endpoint) : bool :=
  match ep with AuthChallenge | AuthAuthorize => true | _ => false end.

Definition profileEndpoint (ep : Endpoint) : bool :=
  match ep with RewardsInfo => true | _ => false end.

Definition loginEndpoint (ep : Endpoint) : bool :=
  match ep with CheckInTransaction | CheckIn => true | _ => false end.

Definition claimEndpoint (ep : Endpoint) : bool :=
  match ep with
  | TransactionsStateDaily | TransactionsRewardsClaim => true
  | _ => false
  end.

Definition boxEndpoint (ep : Endpoint) : bool :=
  match ep with MysteryBoxBuildTx | MysteryBoxOpen => true | _ => false end.

Definition openEndpoint (ep : Endpoint) : bool :=
  match ep with MysteryBoxOpen => true | _ => false end.

Definition anyEndpoint (ep : Endpoint) : bool := true.

Definition rewardEndpoint (ep : Endpoint) : bool :=
  loginEndpoint ep || claimEndpoint ep || profileEndpoint ep || boxEndpoint ep.

(** Classes of console lines, by the function that prints them. *)
Definition noLine (l : LogLine) : bool := false.

Definition anyLine (l : LogLine) : bool := true.

Definition tokenLine (l : LogLine) : bool :=
  match l with LErrorFetchingToken _ => true | _ => false end.

Definition profileLine (l : LogLine) : bool :=
  match l with LErrorFetchingProfile _ => true | _ => false end.

Definition txLine (l : LogLine) : bool :=
  match l with
  | LRetryingTransaction _ | LErrorInTransaction _ => true
  | _ => false
  end.

Definition openLine (l : LogLine) : bool :=
  match l with
  | LRetryingOpeningBox _ | LErrorOpeningBox _ => true
  | _ => txLine l
  end.

Definition reportLine (l : LogLine) : bool :=
  match l with LBoxOpened _ _ | LAllBoxesOpened => true | _ => false end.

Definition boxLine (l : LogLine) : bool := openLine l || reportLine l.

Definition claimLineClass (l : LogLine) : bool :=
  match l with
  | LErrorDailyFetching _ | LTotalTransactions _ | LClaimSuccessful _ _
  | LErrorClaimingStage _ _ | LAlreadyClaimed _ | LErrorClaiming _
  | LAllStagesProcessed | LErrorInDailyClaim _ => true
  | _ => false
  end.

Definition loginLine (l : LogLine) : bool :=
  match l with
  | LErrorInDailyLogin _ | LErrorClaiming _ => true
  | _ => txLine l
  end.

(** The event goes through the network type and the connection handle
    that world [w] holds. *)
Definition wired (env : Env) (w : World) (e : Event) : Prop :=
  match e with
  | EvRequest _ r => req_network r = networkSegment env (su_NETWORK_TYPE w)
  | EvSendRaw _ c _ | EvConfirm _ c _ => connection w = Some c
  | _ => True
  end.

(** [Step env P w w']: [w'] is reached from [w] by events of kind [P] that go
    through the handles of [w], stamped with the consecutive instants from
    [clock w] up to [clock w'], and with the module-level variables left
    as they were. *)
Record Step (env : Env) (P : Event -> bool) (w w' : World) : Prop := {
  step_netType : su_NETWORK_TYPE w' = su_NETWORK_TYPE w;
  step_su_connection : su_connection w' = su_connection w;
  step_connection : connection w' = connection w;
  step_clock : (clock w <= clock w')%nat;
  step_events : exists evs,
      trace w' = trace w ++ evs /\
      Forall (fun e => P e = true /\ wired env w e) evs /\
      stamps evs = seq (clock w) (clock w' - clock w)
}.

Definition footprint (env : Env) {A} (P : Event -> bool) (m : M A) : Prop :=
  forall w, Step env P w (snd (m w)).

(** ** Counting in a trace *)

Definition count (p : Event -> bool) (evs : list Event) : nat :=
  List.length (filter p evs).

Definition isSend (e : Event) : bool :=
  match e with EvSendRaw _ _ _ => true | _ => false end.

Definition isDelay (e : Event) : bool :=
  match e with EvDelay _ => true | _ => false end.

Definition isRetryingTransaction (e : Event) : bool :=
  match e with EvLog (LRetryingTransaction _) => true | _ => false end.

(** Every pause in the segment lasts [ms] milliseconds. *)
Definition pausesOf (ms : Z) (e : Event) : Prop :=
  match e with EvDelay d => d = ms | _ => True end.

(** The counters announced by the "Retrying transaction..." lines. *)
Fixpoint retryCounters (evs : list Event) : list nat :=
  match evs with
  | [] => []
  | EvLog (LRetryingTransaction n) :: rest => n :: retryCounters rest
  | _ :: rest => retryCounters rest
  end.

(** [k] counters going down from [from]. *)
Fixpoint countdown (from k : nat) : list nat :=
  match k with
  | O => []
  | S k' => from :: countdown (pred from) k'
  end.

(** Whatever the event sends goes through connection [c] and is [raw]. *)
Definition sendsOnly (c : Connection) (raw : string) (e : Event) : Prop :=
  match e with
  | EvSendRaw _ c' raw' => c' = c /\ raw' = raw
  | _ => True
  end.

(** The number of submission attempts a segment of [doTransactions]
    shows: the first one and one per announced retry. *)
Definition attempts (evs : list Event) : nat :=
  S (count isRetryingTransaction evs).

(** ** The answers to a claim request, in the words of the specification *)

Inductive ClaimAnswer :=
| Claimed            (* the claim succeeded *)
| NotReady           (* message 'interact task not finished' *)
| AlreadyDone        (* code 100015 or 100016 *)
| TransientFailure   (* any other error *)
| NullBodyFailure.   (* an error response whose body is null *)

Definition hasMessage (body : ErrData) (msg : string) : bool :=
  match data_message body with
  | Some m => String.eqb m msg
  | None => false
  end.

Definition hasCode (body : ErrData) (code : Z) : bool :=
  match data_code body with
  | Some c => c =? code
  | None => false
  end.

Definition classifyError (error : Error) : ClaimAnswer :=
  match err_response error with
  | None => TransientFailure
  | Some None => NullBodyFailure
  | Some (Some body) =>
      if hasMessage body "interact task not finished" then NotReady
      else if hasCode body 100015 || hasCode body 100016 then AlreadyDone
      else TransientFailure
  end.

Definition classifyAnswer (answer : Result bool) : ClaimAnswer :=
  match answer with
  | inl _ => Claimed
  | inr error => classifyError error
  end.

(** How a turn of the stage loop ends on an answer of the given class:
    with the stage counter after the turn, or with the TypeError of the
    [catch] block. *)
Definition stageOutcome (counter : Z) (a : ClaimAnswer) : Outcome Z :=
  match a with
  | Claimed | NotReady | AlreadyDone => Done (counter + 1)
  | TransientFailure => Done counter
  | NullBodyFailure => Thrown (nullTypeError "message")
  end.

(** The claim request for a stage, as [claimStage] builds it. *)
Definition claimRequest (env : Env) (HEADERS : Headers) (netType : NetType)
    (token : option string) (counter : Z) : Request :=
  {| req_method := POST; req_network := networkSegment env netType;
     req_endpoint := TransactionsRewardsClaim;
     req_headers := HEADERS ++ [("Authorization", token)];
     req_data := StageData counter |}.

(** The line [claimStage] prints for an answer; none when the [catch]
    block throws. *)
Definition claimLines (counter : Z) (answer : Result bool) : list Event :=
  match answer with
  | inl claimed => [EvLog (LClaimSuccessful counter claimed)]
  | inr error =>
      match classifyError error with
      | Claimed => []
      | NotReady => [EvLog (LErrorClaimingStage counter notReadyMessage)]
      | AlreadyDone => [EvLog (LAlreadyClaimed counter)]
      | TransientFailure => [EvLog (LErrorClaiming (errText error))]
      | NullBodyFailure => []
      end
  end.

(** The events of one turn of the stage loop issued at instant [t]. *)
Definition stageEvents (env : Env) (HEADERS : Headers) (netType : NetType)
    (token : option string) (counter : Z) (t : nat) : list Event :=
  EvRequest t (claimRequest env HEADERS netType token counter)
  :: claimLines counter (api_claim env t) ++ [EvDelay 1000].

(** The world with the events of [evs] recorded one after the other. *)
Definition recordAll (evs : list Event) (w : World) : World :=
  fold_left (fun w e => record e w) evs w.

(** The world after one turn of the stage loop begun in [w]. *)
Definition afterStage (env : Env) (HEADERS : Headers) (token : option string)
    (counter : Z) (w : World) : World :=
  record (EvDelay 1000)
    (recordAll (claimLines counter (api_claim env (clock w)))
       (advance
          (record (EvRequest (clock w)
                     (claimRequest env HEADERS (su_NETWORK_TYPE w) token counter))
             w))).

(** One for a run that ended by a throw. *)
Definition aborted {A} (o : Outcome A) : nat :=
  match o with
  | Thrown _ => 1%nat
  | Done _ | OutOfFuel => 0%nat
  end.

Definition isClaimRequest (e : Event) : bool :=
  match e with
  | EvRequest _ r =>
      match req_endpoint r with TransactionsRewardsClaim => true | _ => false end
  | _ => false
  end.

(** The lines of the three answers that advance the stage counter. *)
Definition isAdvance (e : Event) : bool :=
  match e with
  | EvLog (LClaimSuccessful _ _) | EvLog (LErrorClaimingStage _ _)
  | EvLog (LAlreadyClaimed _) => true
  | _ => false
  end.

(** The line of a transient failure. *)
Definition isTransient (e : Event) : bool :=
  match e with EvLog (LErrorClaiming _) => true | _ => false end.

(** The stages asked for by the claim requests of a segment, in order. *)
Fixpoint claimStages (evs : list Event) : list Z :=
  match evs with
  | [] => []
  | EvRequest _ r :: rest =>
      match req_endpoint r, req_data r with
      | TransactionsRewardsClaim, StageData stage => stage :: claimStages rest
      | _, _ => claimStages rest
      end
  | _ :: rest => claimStages rest
  end.

(** The events that [w'] has and [w] has not yet. *)
Definition added (w w' : World) : list Event :=
  skipn (List.length (trace w)) (trace w').

(** The request for the day's transaction count, as [fetchDaily] builds it. *)
Definition dailyRequest (env : Env) (HEADERS : Headers) (netType : NetType)
    (token : option string) : Request :=
  {| req_method := GET; req_network := networkSegment env netType;
     req_endpoint := TransactionsStateDaily;
     req_headers := HEADERS ++ [("Authorization", token)];
     req_data := NoData |}.

(** The gate of [dailyClaim] on the answer to that request. *)
Definition countAllowsClaim (answer : Result Z) : bool :=
  match answer with
  | inl total => 10 <? total
  | inr _ => false
  end.

(** ** Concrete outside parties *)

(** Libraries that never fail, a key file with two keys, and the given
    answers of the API, the node and the operator. *)
Definition scenario
    (decode : string -> Result Keypair)
    (profile : nat -> Result Profile)
    (daily : nat -> Result Z)
    (claim : nat -> Result bool)
    (opened : nat -> Result (option OpenedBox))
    (send : nat -> Result string)
    (answer : nat -> string) : Env :=
  {| keypairFromSecretKey := decode;
     toBase58 := fun s => s;
     toBase64 := fun s => s;
     sign_detached := fun message _ => message;
     transactionFrom := fun hash => inl {| tx_payload := hash; tx_signers := [] |};
     partialSign := fun tx keypair =>
       inl {| tx_payload := tx_payload tx;
              tx_signers := publicKey keypair :: tx_signers tx |};
     serialize := fun tx => inl (tx_payload tx);
     toNumber := fun s =>
       if String.eqb s "0" then Some 0
       else if String.eqb s "1" then Some 1
       else if String.eqb s "2" then Some 2
       else None;
     privateKeysFile := inl ["first"; "second"];
     api_challenge := fun _ => inl "challenge";
     api_authorize := fun _ => inl "token";
     api_rewards_info := profile;
     api_build_tx := fun _ => inl "box-tx";
     api_open := opened;
     api_state_daily := daily;
     api_claim := claim;
     api_check_in_transaction := fun _ => inl "check-in-tx";
     api_check_in := fun _ => inl "checked in";
     rpc_sendRawTransaction := send;
     rpc_confirmTransaction := fun _ => inl tt;
     operator_answer := answer;
     operator_network := fun _ => Number 3 |}.

Definition decodeAny (privateKey : string) : Result Keypair :=
  inl {| publicKey := privateKey; secretKey := privateKey |}.

(** Every key but "first" decodes. *)
Definition decodeButFirst (privateKey : string) : Result Keypair :=
  if String.eqb privateKey "first"
  then inr (plainError "Non-base58 character")
  else decodeAny privateKey.

Definition richProfile (boxes : Z) : Profile :=
  {| wallet_balance := 2000000000; ring := 5; ring_monitor := boxes |}.

Definition socketHangUp : Error := plainError "socket hang up".

(** An HTTP error whose body is the JSON value [null]. *)
Definition badGateway : Error :=
  {| err_response := Some None;
     err_message := "Request failed with status code 502" |}.

(** The answer to an open call with status "ok" and the given data. *)
Definition boxOf (success : bool) (amount : Z) : OpenedBox :=
  {| ob_status := "ok";
     ob_data := Present {| box_success := success; box_amount := amount |} |}.

(** A server whose claim endpoint fails every time without a response. *)
Definition stubbornEnv : Env :=
  scenario decodeAny
    (fun _ => inl (richProfile 0))
    (fun _ => inl 11)
    (fun _ => inr socketHangUp)
    (fun _ => inl (Some (boxOf true 1)))
    (fun _ => inl "signature")
    (fun _ => "n").

(** A server that answers every call; its boxes report [success = false];
    the operator declines the auto flow and picks menu entry 2 with two
    boxes. *)
Definition obligingEnv : Env :=
  scenario decodeButFirst
    (fun _ => inl (richProfile 2))
    (fun _ => inl 11)
    (fun _ => inl true)
    (fun _ => inl (Some (boxOf false 0)))
    (fun _ => inl "signature")
    (fun t => if Nat.eqb t 4 then "n" else "2").

(** A server with enough transactions whose claim endpoint answers 502
    with a [null] body. *)
Definition nullBodyEnv : Env :=
  scenario decodeAny
    (fun _ => inl (richProfile 0))
    (fun _ => inl 11)
    (fun _ => inr badGateway)
    (fun _ => inl (Some (boxOf true 1)))
    (fun _ => inl "signature")
    (fun _ => "n").

(** A server whose open endpoint answers 200 with an object without
    [data]. *)
Definition datalessEnv : Env :=
  scenario decodeAny
    (fun _ => inl (richProfile 2))
    (fun _ => inl 11)
    (fun _ => inl true)
    (fun _ => inl (Some {| ob_status := "ok"; ob_data := Absent |}))
    (fun _ => inl "signature")
    (fun _ => "n").

(** Some bound limits the claim requests of the stage loop whatever the
    server answers. *)
Definition claimRequestsBounded : Prop :=
  exists bound : nat,
    forall env HEADERS fuel token w,
      (count isClaimRequest
         (added w (snd (claimLoop env HEADERS fuel token 1 w))) <= bound)%nat.

(** ** Opening boxes *)

(** The line [openMultipleBoxes] prints for an opened box, whatever its
    [success] flag says. *)
Definition isBoxReport (e : Event) : bool :=
  match e with EvLog l => reportLine l | _ => false end.

Definition isRetryingOpeningBox (e : Event) : bool :=
  match e with EvLog (LRetryingOpeningBox _) => true | _ => false end.

(** The line of [openMysteryBox] giving up. *)
Definition isErrorOpeningBox (e : Event) : bool :=
  match e with EvLog (LErrorOpeningBox _) => true | _ => false end.

(** The request that opens an attempt at a box. *)
Definition isBuildRequest (e : Event) : bool :=
  match e with
  | EvRequest _ r =>
      match req_endpoint r with MysteryBoxBuildTx => true | _ => false end
  | _ => false
  end.

(** The request that hands the signature in. *)
Definition isOpenRequest (e : Event) : bool :=
  match e with
  | EvRequest _ r =>
      match req_endpoint r with MysteryBoxOpen => true | _ => false end
  | _ => false
  end.

(** The calls of [openMysteryBox] from [openMultipleBoxes] that a segment
    shows: every attempt opens with a build request, and every attempt but
    the first of a call is announced by a retry line. *)
Definition boxCalls (evs : list Event) : nat :=
  (count isBuildRequest evs - count isRetryingOpeningBox evs)%nat.

(** Whenever [openMultipleBoxes] makes fewer calls of [openMysteryBox]
    than [totalClaim], a call of [openMysteryBox] has given up, its retries
    used. *)
Definition fewerOnlyByExhaustion : Prop :=
  forall env HEADERS token keypair totalClaim w,
    let evs :=
      added w (snd (openMultipleBoxes env HEADERS token keypair totalClaim w)) in
    (boxCalls evs < Z.to_nat totalClaim)%nat ->
    count isErrorOpeningBox evs = 1%nat.

(** [total m]: [m] ends, by a value or by a throw, from every world. *)
Definition total {A} (m : M A) : Prop :=
  forall w, fst (m w) <> OutOfFuel.

(** ** The phases of one turn of the auto flow *)

Definition profileOrBoxEndpoint (ep : Endpoint) : bool :=
  profileEndpoint ep || boxEndpoint ep.

Definition profileOrBoxLine (l : LogLine) : bool :=
  profileLine l || boxLine l.

(** The lines that close a turn. *)
Definition closingLine (l : LogLine) : bool :=
  match l with
  | LAutoFlowCompleted | LErrorInAutoFlow _ | LWaiting12Hours => true
  | _ => false
  end.

Definition loginPhase : Event -> bool := may loginEndpoint true false loginLine.
Definition claimPhase : Event -> bool := may claimEndpoint false false claimLineClass.
Definition boxPhase : Event -> bool :=
  may profileOrBoxEndpoint true false profileOrBoxLine.
Definition closingPhase : Event -> bool := may noEndpoint false false closingLine.

Definition isLoginRequest (e : Event) : bool :=
  match e with EvRequest _ r => loginEndpoint (req_endpoint r) | _ => false end.

Definition isClaimPhaseRequest (e : Event) : bool :=
  match e with EvRequest _ r => claimEndpoint (req_endpoint r) | _ => false end.

Definition isBoxRequest (e : Event) : bool :=
  match e with EvRequest _ r => boxEndpoint (req_endpoint r) | _ => false end.

(** The request for the profile, as [getProfile] builds it. *)
Definition profileRequest (env : Env) (HEADERS : Headers) (netType : NetType)
    (token : option string) : Request :=
  {| req_method := GET; req_network := networkSegment env netType;
     req_endpoint := RewardsInfo;
     req_headers := HEADERS ++ [("Authorization", token)];
     req_data := NoData |}.

Definition isAutoFlowCompleted (e : Event) : bool :=
  match e with EvLog LAutoFlowCompleted => true | _ => false end.

(** The box phase of a turn opens the boxes the profile fetched at its
    start reports: it begins with the profile request, calls
    [openMysteryBox] at most [ring_monitor] times and prints a box line
    for at most each call; when the turn is completed the calls and the
    box lines are [ring_monitor] each; a failed profile request is
    followed by no box request. *)
Definition boxesAsReported (env : Env) (eBoxes : list Event)
    (completed : bool) : Prop :=
  eBoxes = [] \/
  exists t rq rest,
    eBoxes = EvRequest t rq :: rest /\
    req_endpoint rq = RewardsInfo /\
    match api_rewards_info env t with
    | inl profile =>
        (boxCalls rest <= Z.to_nat (ring_monitor profile))%nat /\
        (count isBoxReport rest <= boxCalls rest)%nat /\
        (completed = true ->
         boxCalls rest = Z.to_nat (ring_monitor profile) /\
         count isBoxReport rest = Z.to_nat (ring_monitor profile))
    | inr _ => count isBoxRequest rest = 0%nat
    end.

(** The segment opens with a request to the given endpoint. *)
Definition beginsWith (ep : Endpoint) (evs : list Event) : Prop :=
  exists t rq rest, evs = EvRequest t rq :: rest /\ req_endpoint rq = ep.

(** The events of one turn of the auto flow, phase after phase: daily
    login, opened by the check-in transaction request; daily claim, opened
    by the daily-state request; boxes; closing lines.  The claim phase is
    missing only when the login threw, and then the boxes are missing
    too. *)
Definition turnInOrder (env : Env) (evs : list Event) : Prop :=
  exists eLogin eClaim eBoxes eClose,
    evs = eLogin ++ eClaim ++ eBoxes ++ eClose /\
    beginsWith CheckInTransaction eLogin /\
    (beginsWith TransactionsStateDaily eClaim \/
     eClaim = [] /\ eBoxes = [] /\
     exists error, eClose = [EvLog (LErrorInAutoFlow (errText error));
                             EvLog LWaiting12Hours; EvDelay 43200000]) /\
    Forall (fun e => loginPhase e = true) eLogin /\
    Forall (fun e => claimPhase e = true) eClaim /\
    Forall (fun e => boxPhase e = true) eBoxes /\
    Forall (fun e => closingPhase e = true) eClose /\
    boxesAsReported env eBoxes (existsb isAutoFlowCompleted eClose).

(** The turn ran to its end: the waiting line and the pause of twelve
    hours close it. *)
Definition turnCompleted (evs : list Event) : Prop :=
  exists before,
    evs = before ++ [EvLog LWaiting12Hours; EvDelay 43200000].

(** No login or claim request comes after a box request. *)
Definition boxesComeLast (evs : list Event) : Prop :=
  forall pre b post,
    evs = pre ++ b :: post ->
    isBoxRequest b = true ->
    Forall (fun e => isLoginRequest e = false /\ isClaimPhaseRequest e = false)
      post.

(** ** The main loop *)

(** The world in which the main function enters its loop over the keys:
    banner printed, network type chosen, connection assigned. *)
Definition initialised (env : Env) (w : World) : World :=
  snd ((displayHeader;;
        getNetworkTypeFromUser env;;
        c <- getConnection;;
        assignConnection c) w).

(** What the main function does from there on. *)
Definition afterInitialisation (env : Env) (HEADERS : Headers) (fuel : nat)
    (PRIVATE_KEYS : list string) : M unit :=
  try_finally
    (TRY (processKeys env HEADERS fuel PRIVATE_KEYS;;
          log LAllKeysProcessed)
     CATCH error => log (LErrorInBotOperation (errText error)))
    (log LThanks).

(** The world after a key whose processing threw [error] in world [w1]. *)
Definition afterCaught (error : Error) (w1 : World) : World :=
  record (EvLog LBlank)
    (record (EvLog (LErrorProcessingKey (errText error))) w1).

Definition isFs (e : Event) : bool :=
  match e with EvFs _ _ => true | _ => false end.

(** ** solanaUtils.js: validation of private keys *)

(** [lo-hi] in a character class. *)
Definition inRange (lo hi c : ascii) : bool :=
  (nat_of_ascii lo <=? nat_of_ascii c)%nat && (nat_of_ascii c <=? nat_of_ascii hi)%nat.

(** The class [[1-9A-HJ-NP-Za-km-z]]. *)
Definition isBase58Char (c : ascii) : bool :=
  inRange "1" "9" c || inRange "A" "H" c || inRange "J" "N" c
  || inRange "P" "Z" c || inRange "a" "k" c || inRange "m" "z" c.

Fixpoint allBase58 (str : string) : bool :=
  match str with
  | EmptyString => true
  | String c rest => isBase58Char c && allBase58 rest
  end.

(** [/^[1-9A-HJ-NP-Za-km-z]+$/.test(str)] *)
Definition isValidBase58 (str : string) : bool :=
  match str with
  | EmptyString => false
  | String _ _ => allBase58 str
  end.

Definition invalidFormat : string := "Invalid private key format: ".

(** [getKeypairFromPrivateKey]; [decode] is base58.decode followed by
    Keypair.fromSecretKey. *)
Definition getKeypairFromPrivateKey (decode : string -> Result Keypair)
    (privateKey : string) : Result Keypair :=
  if negb (isValidBase58 privateKey) then
    inr (plainError (invalidFormat ++ "Non-base58 character detected")%string)
  else
    match decode privateKey with
    | inl keypair => inl keypair
    | inr error => inr (plainError (invalidFormat ++ err_message error)%string)
    end.

(** The base58 alphabet of Bitcoin and Solana. *)
Definition base58Alphabet : string :=
  "123456789ABCDEFGHJKLMNPQRSTUVWXYZabcdefghijkmnopqrstuvwxyz".

(** The RPC endpoint [setNetType] connects to. *)
Definition rpcUrlOf (netType : NetType) : string :=
  if strictlyEquals netType 1 then DEVNET_URL
  else if strictlyEquals netType 2 then TESTNET_V0_URL
  else TESTNET_V1_URL.

(** The three networks of Sonic. *)
Inductive Network := Devnet | TestnetV0 | TestnetV1.

(** The network an RPC url belongs to. *)
Definition networkOfRpc (url : string) : option Network :=
  if String.eqb url DEVNET_URL then Some Devnet
  else if String.eqb url TESTNET_V0_URL then Some TestnetV0
  else if String.eqb url TESTNET_V1_URL then Some TestnetV1
  else None.

(** The network an API url segment belongs to: devnet has none. *)
Definition networkOfSegment (segment : string) : option Network :=
  if String.eqb segment "" then Some Devnet
  else if String.eqb segment "/testnet" then Some TestnetV0
  else if String.eqb segment "/testnet-v1" then Some TestnetV1
  else None.

(** ** Properties of whole segments *)

(** [segment Q m]: whatever [m] adds to the trace satisfies [Q]. *)
Definition segment (Q : list Event -> Prop) {A} (m : M A) : Prop :=
  forall w, exists evs, trace (snd (m w)) = trace w ++ evs /\ Q evs.

(** [Q] holds of nothing and is kept by putting segments end to end. *)
Definition appendable (Q : list Event -> Prop) : Prop :=
  Q [] /\ forall a b, Q a -> Q b -> Q (a ++ b).

(** What the auto flow may do on behalf of [token]: requests to the reward
    endpoints only, each carrying [HEADERS] with that very token as
    Authorization; pauses of one second or twelve hours; no question to
    the operator and no file operation. *)
Definition autoAlphabet (HEADERS : Headers) (token : option string)
    (e : Event) : Prop :=
  match e with
  | EvFs _ _ => False
  | EvQuestion _ _ => False
  | EvRequest _ r =>
      req_headers r = HEADERS ++ [("Authorization", token)] /\
      rewardEndpoint (req_endpoint r) = true
  | EvDelay ms => ms = 1000 \/ ms = 43200000
  | EvSendRaw _ _ _ | EvConfirm _ _ _ | EvLog _ => True
  end.

(** [signature] was returned by the node for a transaction sent in the
    segment, and the confirmation of that transaction succeeded. *)
Definition confirmedIn (env : Env) (signature : string)
    (evs : list Event) : Prop :=
  exists t c raw,
    In (EvSendRaw t c raw) evs /\
    In (EvConfirm (S t) c signature) evs /\
    rpc_sendRawTransaction env t = inl signature /\
    rpc_confirmTransaction env (S t) = inl tt.

(** Every hash reported to the API in the segment is the signature of a
    transaction of the segment that the node confirmed. *)
Definition hashesConfirmed (env : Env) (evs : list Event) : Prop :=
  forall t rq hash,
    In (EvRequest t rq) evs ->
    req_data rq = HashData hash ->
    confirmedIn env hash evs.

(** Every hash reported to the API in the segment is [signature]. *)
Definition hashesAre (signature : string) (evs : list Event) : Prop :=
  forall t rq hash,
    In (EvRequest t rq) evs -> req_data rq = HashData hash -> hash = signature.

Definition isRequest (e : Event) : bool :=
  match e with EvRequest _ _ => true | _ => false end.

(** [withinCost sends requests pauses m]: from any world [m] calls
    [sendRawTransaction] at most [sends] times, issues at most [requests]
    API requests and pauses at most [pauses] times. *)
Definition withinCost (sends requests pauses : nat) {A} (m : M A) : Prop :=
  forall w, exists evs,
    trace (snd (m w)) = trace w ++ evs /\
    (count isSend evs <= sends)%nat /\
    (count isRequest evs <= requests)%nat /\
    (count isDelay evs <= pauses)%nat.

(** A node that refuses every transaction. *)
Definition refusingEnv : Env :=
  scenario decodeAny
    (fun _ => inl (richProfile 1))
    (fun _ => inl 11)
    (fun _ => inl true)
    (fun _ => inl (Some (boxOf true 1)))
    (fun _ => inr socketHangUp)
    (fun _ => "n").

(** ** Processing one key *)

Definition authOrProfileEndpoint (ep : Endpoint) : bool :=
  authEndpoint ep || profileEndpoint ep.

(** The endpoints of the action behind a menu entry: "1 for claim box, 2
    for open box, 3 for daily login". *)
Definition menuEndpoints (method : string) : Endpoint -> bool :=
  if String.eqb method "1" then claimEndpoint
  else if String.eqb method "2" then boxEndpoint
  else if String.eqb method "3" then loginEndpoint
  else noEndpoint.

(** Whether the action behind a menu entry submits transactions. *)
Definition menuSubmits (method : string) : bool :=
  String.eqb method "2" || String.eqb method "3".

(** The two requests of [getToken]. *)
Definition challengeRequest (env : Env) (HEADERS : Headers) (netType : NetType)
    (keypair : Keypair) : Request :=
  {| req_method := GET; req_network := networkSegment env netType;
     req_endpoint := AuthChallenge; req_headers := HEADERS;
     req_data := WalletParam (publicKey keypair) |}.

Definition authorizeRequest (env : Env) (HEADERS : Headers) (netType : NetType)
    (keypair : Keypair) (challenge : string) : Request :=
  {| req_method := POST; req_network := networkSegment env netType;
     req_endpoint := AuthAuthorize; req_headers := HEADERS;
     req_data :=
       AuthorizeData (publicKey keypair)
         (toBase64 env (publicKey keypair))
         (toBase64 env (sign_detached env challenge (secretKey keypair))) |}.

(** A server on which no wallet has any balance. *)
Definition brokeEnv : Env :=
  scenario decodeAny
    (fun _ => inl {| wallet_balance := 0; ring := 0; ring_monitor := 3 |})
    (fun _ => inl 11)
    (fun _ => inl true)
    (fun _ => inl (Some (boxOf true 1)))
    (fun _ => inl "signature")
    (fun _ => "y").

(** * Lemmas *)

(** ** Traces *)

Lemma count_app p l1 l2 : count p (l1 ++ l2) = (count p l1 + count p l2)%nat.
Proof. unfold count. now rewrite filter_app, length_app. Qed.

Lemma added_app w w' evs : trace w' = trace w ++ evs -> added w w' = evs.
Proof.
  intros H. unfold added. rewrite H.
  rewrite skipn_app, skipn_all, Nat.sub_diag. reflexivity.
Qed.

Lemma retryCounters_app l1 l2 :
  retryCounters (l1 ++ l2) = retryCounters l1 ++ retryCounters l2.
Proof.
  induction l1 as [|e l1 IH]; [reflexivity|].
  destruct e as [| | | | | |[]]; cbn; rewrite ?IH; reflexivity.
Qed.

Lemma stamps_app (l1 l2 : list Event) :
  stamps (l1 ++ l2) = stamps l1 ++ stamps l2.
Proof.
  induction l1 as [|e l1 IH]; simpl; [reflexivity|].
  destruct (stamp e); simpl; now rewrite IH.
Qed.

Section Rules.

Variable env : Env.

Lemma Step_refl P w : Step env P w w.
Proof.
  constructor; auto.
  exists []. rewrite app_nil_r, Nat.sub_diag. repeat split; auto.
Qed.

Lemma wired_frame w w' e :
  su_NETWORK_TYPE w' = su_NETWORK_TYPE w ->
  connection w' = connection w ->
  wired env w' e -> wired env w e.
Proof.
  intros Hn Hc. destruct e; simpl; auto; congruence.
Qed.

Lemma Step_trans P w1 w2 w3 :
  Step env P w1 w2 -> Step env P w2 w3 -> Step env P w1 w3.
Proof.
  intros [n1 s1 c1 k1 (e1 & t1 & f1 & st1)] [n2 s2 c2 k2 (e2 & t2 & f2 & st2)].
  constructor; try congruence; try lia.
  exists (e1 ++ e2). repeat split.
  - rewrite t2, t1. now rewrite app_assoc.
  - apply Forall_app. split; [exact f1|].
    eapply Forall_impl; [|exact f2]. simpl. intros e [Hp Hw]. split; [exact Hp|].
    eapply wired_frame; eauto.
  - rewrite stamps_app, st1, st2.
    replace (clock w3 - clock w1)%nat
      with ((clock w2 - clock w1) + (clock w3 - clock w2))%nat by lia.
    rewrite seq_app. repeat f_equal. lia.
Qed.

Lemma Step_weaken (P Q : Event -> bool) w w' :
  (forall e, P e = true -> Q e = true) -> Step env P w w' -> Step env Q w w'.
Proof.
  intros HPQ [n s c k (evs & t & f & st)].
  constructor; auto.
  exists evs. repeat split; auto.
  eapply Forall_impl; [|exact f]. simpl. intros e [Hp Hw]. auto.
Qed.

Lemma Step_record P w e :
  P e = true -> stamp e = None -> wired env w e -> Step env P w (record e w).
Proof.
  intros HP Hs Hw. constructor; simpl; auto.
  exists [e]. repeat split; auto.
  simpl. rewrite Hs, Nat.sub_diag. reflexivity.
Qed.

Lemma Step_call P w e :
  P e = true -> stamp e = Some (clock w) -> wired env w e ->
  Step env P w (advance (record e w)).
Proof.
  intros HP Hs Hw. constructor; try reflexivity.
  - cbn [advance record clock]. lia.
  - exists [e]. repeat split; auto.
    cbn [advance record clock stamps]. rewrite Hs.
    replace (S (clock w) - clock w)%nat with 1%nat by lia. reflexivity.
Qed.

(** ** Rules for the combinators *)

Lemma footprint_weaken {A} (P Q : Event -> bool) (m : M A) :
  footprint env P m -> (forall e, P e = true -> Q e = true) -> footprint env Q m.
Proof. intros H HPQ w. eapply Step_weaken; eauto. Qed.

Lemma footprint_ret {A} P (a : A) : footprint env P (ret a).
Proof. intros w. apply Step_refl. Qed.

Lemma footprint_throw {A} P e : footprint env P (@throw A e).
Proof. intros w. apply Step_refl. Qed.

Lemma footprint_outOfFuel {A} P : footprint env P (@outOfFuel A).
Proof. intros w. apply Step_refl. Qed.

Lemma footprint_liftResult {A} P (r : Result A) : footprint env P (liftResult r).
Proof. destruct r; intros w; apply Step_refl. Qed.

Lemma footprint_bind {A B} P (m : M A) (f : A -> M B) :
  footprint env P m -> (forall a, footprint env P (f a)) -> footprint env P (bind m f).
Proof.
  intros Hm Hf w. unfold bind. specialize (Hm w).
  destruct (m w) as [[a|e|] w1]; simpl in *; auto.
  eapply Step_trans; [exact Hm|]. apply Hf.
Qed.

Lemma footprint_try_catch {A} P (m : M A) (h : Error -> M A) :
  footprint env P m -> (forall e, footprint env P (h e)) -> footprint env P (try_catch m h).
Proof.
  intros Hm Hh w. unfold try_catch. specialize (Hm w).
  destruct (m w) as [[a|e|] w1]; simpl in *; auto.
  eapply Step_trans; [exact Hm|]. apply Hh.
Qed.

Lemma footprint_try_finally {A} P (m : M A) (final : M unit) :
  footprint env P m -> footprint env P final -> footprint env P (try_finally m final).
Proof.
  intros Hm Hf w. unfold try_finally. specialize (Hm w).
  destruct (m w) as [[a|e|] w1]; simpl in *; auto;
    specialize (Hf w1); destruct (final w1) as [[[]|e'|] w2]; simpl in *;
    eapply Step_trans; eauto.
Qed.

Lemma footprint_log P l :
  P (EvLog l) = true -> footprint env P (log l).
Proof. intros HP w. apply Step_record; simpl; auto. Qed.

Lemma footprint_delay P ms :
  P (EvDelay ms) = true -> footprint env P (delay ms).
Proof. intros HP w. apply Step_record; simpl; auto. Qed.

Lemma footprint_call {A} P (ev : nat -> Event) (answer : nat -> Result A) :
  (forall w, P (ev (clock w)) = true /\ stamp (ev (clock w)) = Some (clock w)
             /\ wired env w (ev (clock w))) ->
  footprint env P (call ev answer).
Proof.
  intros H w. unfold call. destruct (H w) as (HP & Hs & Hw).
  destruct (answer (clock w)); simpl; apply Step_call; auto.
Qed.

Lemma may_weaken eps eps' (rpc rpc' ask ask' : bool) lines lines' :
  (forall ep, eps ep = true -> eps' ep = true) ->
  (rpc = true -> rpc' = true) ->
  (ask = true -> ask' = true) ->
  (forall l, lines l = true -> lines' l = true) ->
  forall e, may eps rpc ask lines e = true -> may eps' rpc' ask' lines' e = true.
Proof. intros He Hr Ha Hl [] H; simpl in *; auto. Qed.

Lemma footprint_may {A} eps eps' (rpc rpc' ask ask' : bool) lines lines'
    (m : M A) :
  footprint env (may eps rpc ask lines) m ->
  (forall ep, eps ep = true -> eps' ep = true) ->
  (rpc = true -> rpc' = true) ->
  (ask = true -> ask' = true) ->
  (forall l, lines l = true -> lines' l = true) ->
  footprint env (may eps' rpc' ask' lines') m.
Proof.
  intros H He Hr Ha Hl. eapply footprint_weaken; [exact H|].
  now apply may_weaken.
Qed.

Lemma Step_events P w w' :
  Step env P w w' ->
  exists evs, trace w' = trace w ++ evs /\ Forall (fun e => P e = true) evs.
Proof.
  intros [_ _ _ _ (evs & Ht & Hall & _)]. exists evs. split; [exact Ht|].
  eapply Forall_impl; [|exact Hall]. cbn. tauto.
Qed.

Lemma Step_added P w w' :
  Step env P w w' ->
  trace w' = trace w ++ added w w' /\
  Forall (fun e => P e = true /\ wired env w e) (added w w') /\
  stamps (added w w') = seq (clock w) (clock w' - clock w).
Proof.
  intros [_ _ _ _ (evs & Ht & Hall & Hst)].
  rewrite (@added_app _ _ _ Ht). auto.
Qed.

End Rules.

Create HintDb footprint.

Ltac kinds := solve [ intros []; simpl; auto | simpl; auto ].

Ltac footprint_of lemma :=
  eapply footprint_may; [ apply lemma | kinds | kinds | kinds | kinds ].

Ltac footprint_step :=
  first
    [ apply footprint_ret
    | apply footprint_throw
    | apply footprint_outOfFuel
    | apply footprint_liftResult
    | apply footprint_log; reflexivity
    | apply footprint_delay; reflexivity
    | solve [ auto with footprint ]
    | apply footprint_bind; [ | intros ]
    | apply footprint_try_catch; [ | intros ]
    | apply footprint_try_finally
    | match goal with
      | |- footprint _ _ (if ?b then _ else _) => destruct b
      | |- footprint _ _ (match ?x with _ => _ end) => destruct x
      end ].

Ltac footprints := repeat footprint_step.

Section Footprints.

Variable env : Env.
Variable HEADERS : Headers.

Lemma footprint_getNetType P : footprint env P getNetType.
Proof. intros w. apply Step_refl. Qed.

Lemma footprint_axios {A} eps rpc ask lines method endpoint headers data
    (answer : nat -> Result A) :
  eps endpoint = true ->
  footprint env (may eps rpc ask lines) (axios env method endpoint headers data answer).
Proof.
  intros Hep w. unfold axios, bind, getNetType, call.
  destruct (answer (clock w)); simpl; apply Step_call; simpl; auto.
Qed.

Lemma footprint_question eps rpc lines p :
  footprint env (may eps rpc true lines) (question env p).
Proof. apply footprint_call. intros w. simpl. auto. Qed.

Lemma footprint_getKeypair P privateKey :
  footprint env P (getKeypair env privateKey).
Proof. apply footprint_liftResult. Qed.

Lemma footprint_sendRawTransaction eps ask lines raw :
  footprint env (may eps true ask lines) (sendRawTransaction env raw).
Proof.
  intros w. unfold sendRawTransaction, bind, readConnection, call.
  destruct (connection w) as [c|] eqn:Hc; simpl; [|apply Step_refl].
  destruct (rpc_sendRawTransaction env (clock w)); simpl;
    apply Step_call; simpl; auto.
Qed.

Lemma footprint_confirmTransaction eps ask lines signature :
  footprint env (may eps true ask lines) (confirmTransaction env signature).
Proof.
  intros w. unfold confirmTransaction, bind, readConnection, call.
  destruct (connection w) as [c|] eqn:Hc; simpl; [|apply Step_refl].
  destruct (rpc_confirmTransaction env (clock w)); simpl;
    apply Step_call; simpl; auto.
Qed.

Hint Resolve footprint_getNetType footprint_getKeypair : footprint.
Hint Extern 1 (footprint _ _ (axios _ _ _ _ _ _)) =>
  apply footprint_axios; reflexivity : footprint.
Hint Extern 1 (footprint _ _ (question _ _)) =>
  apply footprint_question : footprint.
Hint Extern 1 (footprint _ _ (sendRawTransaction _ _)) =>
  apply footprint_sendRawTransaction : footprint.
Hint Extern 1 (footprint _ _ (confirmTransaction _ _)) =>
  apply footprint_confirmTransaction : footprint.

Lemma footprint_getToken privateKey :
  footprint env (may authEndpoint false false tokenLine)
    (getToken env HEADERS privateKey).
Proof. unfold getToken. footprints. Qed.

Lemma footprint_getProfile token :
  footprint env (may profileEndpoint false false profileLine)
    (getProfile env HEADERS token).
Proof. unfold getProfile. footprints. Qed.

Lemma footprint_submitOnce tx :
  footprint env (may noEndpoint true false noLine) (submitOnce env tx).
Proof. unfold submitOnce. footprints. Qed.

Lemma footprint_doTransactions tx keypair retries :
  footprint env (may noEndpoint true false txLine)
    (doTransactions env tx keypair retries).
Proof.
  induction retries as [|n IH]; cbn [doTransactions].
  - apply footprint_try_catch; [footprint_of footprint_submitOnce|]. intros. footprints.
  - apply footprint_try_catch; [footprint_of footprint_submitOnce|]. intros.
    apply footprint_bind; [footprints|]. intros.
    apply footprint_bind; [footprints|]. intros. exact IH.
Qed.

Hint Extern 1 (footprint _ _ (getToken _ _ _)) =>
  footprint_of footprint_getToken : footprint.
Hint Extern 1 (footprint _ _ (getProfile _ _ _)) =>
  footprint_of footprint_getProfile : footprint.
Hint Extern 1 (footprint _ _ (doTransactions _ _ _ _)) =>
  footprint_of footprint_doTransactions : footprint.

Lemma footprint_openOnce token keypair :
  footprint env (may boxEndpoint true false txLine)
    (openOnce env HEADERS token keypair).
Proof. unfold openOnce. footprints. Qed.

Lemma footprint_openMysteryBox token keypair retries :
  footprint env (may boxEndpoint true false openLine)
    (openMysteryBox env HEADERS token keypair retries).
Proof.
  induction retries as [|n IH]; cbn [openMysteryBox].
  - apply footprint_try_catch; [footprint_of footprint_openOnce|]. intros. footprints.
  - apply footprint_try_catch; [footprint_of footprint_openOnce|]. intros.
    apply footprint_bind; [footprints|]. intros.
    apply footprint_bind; [footprints|]. intros. exact IH.
Qed.

Hint Extern 1 (footprint _ _ (openMysteryBox _ _ _ _ _)) =>
  footprint_of footprint_openMysteryBox : footprint.

Lemma footprint_fetchDaily token :
  footprint env (may claimEndpoint false false claimLineClass)
    (fetchDaily env HEADERS token).
Proof. unfold fetchDaily. footprints. Qed.

Lemma footprint_claimFailed counter error :
  footprint env (may claimEndpoint false false claimLineClass)
    (claimFailed counter error).
Proof. unfold claimFailed. footprints. Qed.

Lemma footprint_claimStage token counter :
  footprint env (may claimEndpoint false false claimLineClass)
    (claimStage env HEADERS token counter).
Proof.
  unfold claimStage. apply footprint_try_finally; [|footprints].
  apply footprint_try_catch; [footprints|]. intros. apply footprint_claimFailed.
Qed.

Lemma footprint_claimLoop fuel token counter :
  footprint env (may claimEndpoint false false claimLineClass)
    (claimLoop env HEADERS fuel token counter).
Proof.
  revert counter. induction fuel as [|n IH]; intros counter; cbn [claimLoop];
    destruct (counter <=? maxCounter).
  - apply footprint_outOfFuel.
  - apply footprint_ret.
  - apply footprint_bind; [apply footprint_claimStage|]. intros. apply IH.
  - apply footprint_ret.
Qed.

Hint Extern 1 (footprint _ _ (fetchDaily _ _ _)) =>
  footprint_of footprint_fetchDaily : footprint.
Hint Extern 1 (footprint _ _ (claimLoop _ _ _ _ _)) =>
  footprint_of footprint_claimLoop : footprint.

Lemma footprint_dailyClaim fuel token :
  footprint env (may claimEndpoint false false claimLineClass)
    (dailyClaim env HEADERS fuel token).
Proof. unfold dailyClaim, dailyClaimBody. footprints. Qed.

Lemma footprint_dailyLogin token keypair :
  footprint env (may loginEndpoint true false loginLine)
    (dailyLogin env HEADERS token keypair).
Proof. unfold dailyLogin. footprints. Qed.

Lemma footprint_openAndReport token keypair :
  footprint env (may boxEndpoint true false boxLine)
    (openAndReport env HEADERS token keypair).
Proof. unfold openAndReport. footprints. Qed.

Lemma footprint_openBoxes turns token keypair :
  footprint env (may boxEndpoint true false boxLine)
    (openBoxes env HEADERS turns token keypair).
Proof.
  induction turns as [|n IH]; cbn [openBoxes]; [footprints|].
  apply footprint_bind; [apply footprint_openAndReport|]. intros. exact IH.
Qed.

Lemma footprint_openMultipleBoxes token keypair totalClaim :
  footprint env (may boxEndpoint true false boxLine)
    (openMultipleBoxes env HEADERS token keypair totalClaim).
Proof. apply footprint_openBoxes. Qed.

Hint Extern 1 (footprint _ _ (dailyClaim _ _ _ _)) =>
  footprint_of footprint_dailyClaim : footprint.
Hint Extern 1 (footprint _ _ (dailyLogin _ _ _ _)) =>
  footprint_of footprint_dailyLogin : footprint.
Hint Extern 1 (footprint _ _ (openMultipleBoxes _ _ _ _ _)) =>
  footprint_of footprint_openMultipleBoxes : footprint.

Lemma footprint_autoFlowOnce fuel token keypair :
  footprint env (may rewardEndpoint true false anyLine)
    (autoFlowOnce env HEADERS fuel token keypair).
Proof. unfold autoFlowOnce. footprints. Qed.

Lemma footprint_autoFlowTurn fuel token keypair :
  footprint env (may rewardEndpoint true false anyLine)
    (autoFlowTurn env HEADERS fuel token keypair).
Proof.
  unfold autoFlowTurn.
  apply footprint_bind; [|intros; footprints].
  apply footprint_try_catch; [apply footprint_autoFlowOnce|intros; footprints].
Qed.

Lemma footprint_runAutoFlowTurns turns fuel token keypair :
  footprint env (may rewardEndpoint true false anyLine)
    (runAutoFlowTurns env HEADERS turns fuel token keypair).
Proof.
  induction turns as [|n IH]; cbn [runAutoFlowTurns]; [footprints|].
  apply footprint_bind; [apply footprint_autoFlowTurn|]. intros. exact IH.
Qed.

Hint Extern 1 (footprint _ _ (runAutoFlow _ _ _ _ _)) =>
  unfold runAutoFlow; footprint_of footprint_runAutoFlowTurns : footprint.

Lemma footprint_askAndOpenBoxes fuel privateKey token availableBoxes :
  footprint env (may anyEndpoint true true anyLine)
    (askAndOpenBoxes env HEADERS fuel privateKey token availableBoxes).
Proof.
  induction fuel as [|n IH]; cbn [askAndOpenBoxes]; [footprints|].
  apply footprint_bind; [footprints|]. intros totalClaim.
  apply footprint_bind; [footprints|]. intros _.
  destruct (exceeds env totalClaim availableBoxes); [exact IH|footprints].
Qed.

Hint Extern 1 (footprint _ _ (askAndOpenBoxes _ _ _ _ _ _)) =>
  footprint_of footprint_askAndOpenBoxes : footprint.

Lemma footprint_manualFlow fuel privateKey token availableBoxes :
  footprint env (may anyEndpoint true true anyLine)
    (manualFlow env HEADERS fuel privateKey token availableBoxes).
Proof. unfold manualFlow. footprints. Qed.

Hint Extern 1 (footprint _ _ (manualFlow _ _ _ _ _ _)) =>
  footprint_of footprint_manualFlow : footprint.

Lemma footprint_processPrivateKeyBody fuel privateKey :
  footprint env (may anyEndpoint true true anyLine)
    (processPrivateKeyBody env HEADERS fuel privateKey).
Proof. unfold processPrivateKeyBody. footprints. Qed.

Lemma footprint_processPrivateKey fuel privateKey :
  footprint env (may anyEndpoint true true anyLine)
    (processPrivateKey env HEADERS fuel privateKey).
Proof.
  unfold processPrivateKey.
  apply footprint_bind; [|intros; footprints].
  apply footprint_try_catch;
    [apply footprint_processPrivateKeyBody|intros; footprints].
Qed.

Lemma footprint_processKeys fuel keys :
  footprint env (may anyEndpoint true true anyLine) (processKeys env HEADERS fuel keys).
Proof.
  induction keys as [|k rest IH]; cbn [processKeys]; [footprints|].
  apply footprint_bind; [apply footprint_processPrivateKey|]. intros. exact IH.
Qed.

End Footprints.

#[global] Hint Resolve footprint_getNetType footprint_getKeypair : footprint.
#[global] Hint Extern 1 (footprint _ _ (axios _ _ _ _ _ _)) =>
  apply footprint_axios; reflexivity : footprint.
#[global] Hint Extern 1 (footprint _ _ (question _ _)) =>
  apply footprint_question : footprint.
#[global] Hint Extern 1 (footprint _ _ (sendRawTransaction _ _)) =>
  apply footprint_sendRawTransaction : footprint.
#[global] Hint Extern 1 (footprint _ _ (confirmTransaction _ _)) =>
  apply footprint_confirmTransaction : footprint.
#[global] Hint Extern 1 (footprint _ _ (getToken _ _ _)) =>
  footprint_of footprint_getToken : footprint.
#[global] Hint Extern 1 (footprint _ _ (getProfile _ _ _)) =>
  footprint_of footprint_getProfile : footprint.
#[global] Hint Extern 1 (footprint _ _ (doTransactions _ _ _ _)) =>
  footprint_of footprint_doTransactions : footprint.
#[global] Hint Extern 1 (footprint _ _ (openMysteryBox _ _ _ _ _)) =>
  footprint_of footprint_openMysteryBox : footprint.
#[global] Hint Extern 1 (footprint _ _ (dailyClaim _ _ _ _)) =>
  footprint_of footprint_dailyClaim : footprint.
#[global] Hint Extern 1 (footprint _ _ (dailyLogin _ _ _ _)) =>
  footprint_of footprint_dailyLogin : footprint.
#[global] Hint Extern 1 (footprint _ _ (openMultipleBoxes _ _ _ _ _)) =>
  footprint_of footprint_openMultipleBoxes : footprint.
#[global] Hint Extern 1 (footprint _ _ (processKeys _ _ _ _)) =>
  footprint_of footprint_processKeys : footprint.

(** ** Submitting a transaction *)

Section Submission.

Variable env : Env.

(** What one attempt leaves in the trace, by the way it ends. *)
Lemma submitOnce_run tx w :
  exists evs,
    trace (snd (submitOnce env tx w)) = trace w ++ evs /\
    (count isSend evs <= 1)%nat /\
    count isRetryingTransaction evs = 0%nat /\
    count isDelay evs = 0%nat /\
    retryCounters evs = [] /\
    Forall (pausesOf 1000) evs /\
    match fst (submitOnce env tx w) with
    | Done signature =>
        exists c raw,
          evs = [EvSendRaw (clock w) c raw; EvConfirm (S (clock w)) c signature] /\
          connection w = Some c /\
          serialize env tx = inl raw /\
          rpc_sendRawTransaction env (clock w) = inl signature /\
          rpc_confirmTransaction env (S (clock w)) = inl tt
    | Thrown _ => True
    | OutOfFuel => False
    end.
Proof.
  unfold submitOnce, sendRawTransaction, confirmTransaction,
    readConnection, call, bind.
  destruct (serialize env tx) as [raw|e] eqn:Hser; cbn.
  2:{ exists []. rewrite app_nil_r. repeat split; auto. }
  destruct (connection w) as [c|] eqn:Hc; cbn.
  2:{ exists []. rewrite app_nil_r. repeat split; auto. }
  destruct (rpc_sendRawTransaction env (clock w)) as [sig|e] eqn:Hsend; cbn.
  2:{ exists [EvSendRaw (clock w) c raw]. cbn. repeat split; auto.
      repeat constructor. }
  rewrite Hc. cbn.
  destruct (rpc_confirmTransaction env (S (clock w))) as [[]|e] eqn:Hconf; cbn.
  - exists [EvSendRaw (clock w) c raw; EvConfirm (S (clock w)) c sig].
    rewrite <- app_assoc. cbn. repeat split; auto.
    + repeat constructor.
    + exists c, raw. repeat split; auto.
  - exists [EvSendRaw (clock w) c raw; EvConfirm (S (clock w)) c sig].
    rewrite <- app_assoc. cbn. repeat split; auto.
    repeat constructor.
Qed.

(** The run of [doTransactions] with [retries] retries left. *)
Lemma doTransactions_run tx keypair retries w :
  exists evs,
    trace (snd (doTransactions env tx keypair retries w)) = trace w ++ evs /\
    (count isRetryingTransaction evs <= retries)%nat /\
    (count isSend evs <= attempts evs)%nat /\
    count isDelay evs = count isRetryingTransaction evs /\
    retryCounters evs = countdown retries (count isRetryingTransaction evs) /\
    Forall (pausesOf 1000) evs /\
    match fst (doTransactions env tx keypair retries w) with
    | Done signature =>
        exists before t c raw,
          evs = before ++ [EvSendRaw t c raw; EvConfirm (S t) c signature] /\
          serialize env tx = inl raw /\
          rpc_sendRawTransaction env t = inl signature /\
          rpc_confirmTransaction env (S t) = inl tt
    | Thrown error =>
        count isRetryingTransaction evs = retries /\
        exists before w0,
          evs = before ++ [EvLog (LErrorInTransaction (errText error))] /\
          trace (snd (submitOnce env tx w0)) = trace w ++ before /\
          fst (submitOnce env tx w0) = Thrown error
    | OutOfFuel => False
    end.
Proof.
  revert w. induction retries as [|n IH]; intros w; cbn [doTransactions];
    unfold try_catch;
    destruct (submitOnce_run tx w)
      as (evs1 & Ht1 & Hs1 & Hr1 & Hd1 & Hc1 & Hp1 & Hres);
    destruct (submitOnce env tx w) as [[sig|e|] w1] eqn:Hrun; cbn in *;
    try contradiction.
  - exists evs1. unfold attempts. rewrite Hc1, Hr1.
    repeat split; auto; try lia.
    destruct Hres as (c & raw & -> & _ & ? & ? & ?).
    exists [], (clock w), c, raw. auto.
  - exists (evs1 ++ [EvLog (LErrorInTransaction (errText e))]).
    unfold attempts.
    rewrite Ht1, <- app_assoc, retryCounters_app, !count_app, Hr1, Hd1, Hc1.
    repeat split; auto; try (cbn; lia).
    + apply Forall_app. split; auto; repeat constructor.
    + exists evs1, w. rewrite Hrun. auto.
  - exists evs1. unfold attempts. rewrite Hc1, Hr1.
    repeat split; auto; try lia.
    destruct Hres as (c & raw & -> & _ & ? & ? & ?).
    exists [], (clock w), c, raw. auto.
  - set (w2 := record (EvDelay 1000)
                 (record (EvLog (LRetryingTransaction (S n))) w1)).
    destruct (IH w2) as (evs2 & Ht2 & Hr2 & Hs2 & Hd2 & Hc2 & Hp2 & Hres2).
    exists (evs1 ++ [EvLog (LRetryingTransaction (S n)); EvDelay 1000] ++ evs2).
    unfold attempts in *.
    rewrite !retryCounters_app, !count_app, Hr1, Hd1, Hc1.
    cbn [count filter isRetryingTransaction isSend isDelay List.length app
         retryCounters plus countdown pred].
    fold (count isRetryingTransaction evs2). fold (count isSend evs2).
    fold (count isDelay evs2).
    repeat split; try lia.
    + rewrite Ht2. subst w2. cbn. rewrite Ht1, <- !app_assoc. reflexivity.
    + now rewrite Hc2.
    + apply Forall_app. split; auto; repeat constructor; auto.
    + destruct (fst (doTransactions env tx keypair n w2)) as [sig|e'|].
      * destruct Hres2 as (before & t & c & raw & -> & ? & ? & ?).
        exists (evs1 ++ [EvLog (LRetryingTransaction (S n)); EvDelay 1000] ++ before),
          t, c, raw.
        rewrite <- !app_assoc. auto.
      * destruct Hres2 as (Hn & before & w0 & -> & Htr & Hth).
        split; [lia|].
        exists (evs1 ++ [EvLog (LRetryingTransaction (S n)); EvDelay 1000] ++ before), w0.
        rewrite <- !app_assoc. repeat split; auto.
        rewrite Htr. subst w2. cbn. rewrite Ht1, <- !app_assoc. reflexivity.
      * contradiction.
Qed.

End Submission.


(** ** The stage loop of the daily claim *)

Lemma bind_run {A B} (m : M A) (f : A -> M B) w :
  bind m f w =
  match m w with
  | (Done a, w1) => f a w1
  | (Thrown e, w1) => (Thrown e, w1)
  | (OutOfFuel, w1) => (OutOfFuel, w1)
  end.
Proof. unfold bind. destruct (m w) as [[a|e|] w1]; reflexivity. Qed.

Lemma trace_recordAll evs w : trace (recordAll evs w) = trace w ++ evs.
Proof.
  revert w. induction evs as [|e evs IH]; intros w; cbn [recordAll fold_left].
  - now rewrite app_nil_r.
  - fold (recordAll evs (record e w)). rewrite IH. cbn [record trace].
    now rewrite <- app_assoc.
Qed.

Lemma netType_recordAll evs w :
  su_NETWORK_TYPE (recordAll evs w) = su_NETWORK_TYPE w.
Proof.
  revert w. induction evs as [|e evs IH]; intros w; cbn [recordAll fold_left];
    [reflexivity|].
  fold (recordAll evs (record e w)). now rewrite IH.
Qed.

Lemma claimStages_app l1 l2 :
  claimStages (l1 ++ l2) = claimStages l1 ++ claimStages l2.
Proof.
  induction l1 as [|e l1 IH]; [reflexivity|].
  destruct e as [| t [m n [] h []] | | | | |]; cbn; rewrite ?IH; reflexivity.
Qed.

Section DailyClaim.

Variable env : Env.
Variable HEADERS : Headers.

Lemma classifyError_error error : classifyError error <> Claimed.
Proof.
  unfold classifyError.
  destruct (err_response error) as [[body|]|]; try discriminate.
  destruct (hasMessage body _); [discriminate|].
  destruct (hasCode body 100015 || hasCode body 100016); discriminate.
Qed.

(** The [catch] block of the stage loop, by the class of the error. *)
Lemma claimFailed_run counter error w :
  claimFailed counter error w =
  (stageOutcome counter (classifyError error),
   recordAll (claimLines counter (inr error)) w).
Proof.
  unfold claimFailed, claimLines, classifyError,
    responseMessageIs, responseCodeIsClaimed, hasMessage, hasCode.
  destruct (err_response error) as [[body|]|]; [|reflexivity|reflexivity].
  destruct (data_message body) as [m|]; destruct (data_code body) as [c|];
    cbn; try destruct (String.eqb m notReadyMessage) eqn:Hm;
    try (unfold notReadyMessage in Hm; rewrite Hm);
    try destruct (c =? 100015); try destruct (c =? 100016);
    reflexivity.
Qed.

(** One turn of the stage loop: one claim request for the current stage,
    the line of its answer, the pause; the turn ends by the class of the
    answer. *)
Lemma claimStage_run token counter w :
  claimStage env HEADERS token counter w =
  (stageOutcome counter (classifyAnswer (api_claim env (clock w))),
   afterStage env HEADERS token counter w).
Proof.
  unfold claimStage, afterStage, try_finally, try_catch, axios, getNetType,
    call, bind.
  cbn. destruct (api_claim env (clock w)) as [claimed|error]; cbn.
  - reflexivity.
  - rewrite claimFailed_run.
    pose proof (classifyError_error error) as Hne.
    unfold claimLines, recordAll.
    remember (classifyError error) as class eqn:Hclass.
    destruct class; cbn; try reflexivity; congruence.
Qed.

Lemma trace_afterStage token counter w :
  trace (afterStage env HEADERS token counter w) =
  trace w ++ stageEvents env HEADERS (su_NETWORK_TYPE w) token counter (clock w).
Proof.
  unfold afterStage, stageEvents. cbn [record trace].
  rewrite trace_recordAll. cbn [advance record trace].
  rewrite <- !app_assoc. reflexivity.
Qed.

Lemma netType_afterStage token counter w :
  su_NETWORK_TYPE (afterStage env HEADERS token counter w) = su_NETWORK_TYPE w.
Proof. unfold afterStage. cbn [record su_NETWORK_TYPE]. now rewrite netType_recordAll. Qed.

(** What one turn of the stage loop leaves in the trace. *)
Lemma stage_counts netType token counter t :
  let first := stageEvents env HEADERS netType token counter t in
  count isClaimRequest first = 1%nat /\
  count isDelay first = 1%nat /\
  Forall (pausesOf 1000) first /\
  claimStages first = [counter] /\
  match stageOutcome counter (classifyAnswer (api_claim env t)) with
  | Done counter' =>
      (count isAdvance first + count isTransient first = 1)%nat /\
      counter' = counter + Z.of_nat (count isAdvance first)
  | Thrown error =>
      error = nullTypeError "message" /\
      count isAdvance first = 0%nat /\
      count isTransient first = 0%nat /\
      classifyAnswer (api_claim env t) = NullBodyFailure
  | OutOfFuel => False
  end.
Proof.
  cbv zeta. unfold stageEvents, claimLines, classifyAnswer.
  destruct (api_claim env t) as [claimed|error].
  - cbn. repeat split; auto; repeat constructor; lia.
  - pose proof (classifyError_error error) as Hne.
    destruct (classifyError error); try congruence; cbn;
      repeat split; auto; repeat constructor; lia.
Qed.

(** The run of the stage loop from a given counter. *)
Lemma claimLoop_run fuel token counter w :
  exists evs,
    trace (snd (claimLoop env HEADERS fuel token counter w)) = trace w ++ evs /\
    count isClaimRequest evs
      = (count isAdvance evs + count isTransient evs
         + aborted (fst (claimLoop env HEADERS fuel token counter w)))%nat /\
    count isDelay evs = count isClaimRequest evs /\
    Forall (pausesOf 1000) evs /\
    (count isClaimRequest evs <= fuel)%nat /\
    (count isAdvance evs <= Z.to_nat (maxCounter + 1 - counter))%nat /\
    List.length (claimStages evs) = count isClaimRequest evs /\
    Forall (fun stage => counter <= stage <= maxCounter) (claimStages evs) /\
    StronglySorted Z.le (claimStages evs) /\
    (claimStages evs = [] \/ hd_error (claimStages evs) = Some counter) /\
    match fst (claimLoop env HEADERS fuel token counter w) with
    | Done _ =>
        count isAdvance evs = Z.to_nat (maxCounter + 1 - counter) /\
        forall stage, counter <= stage <= maxCounter -> In stage (claimStages evs)
    | OutOfFuel => count isClaimRequest evs = fuel /\ counter <= maxCounter
    | Thrown error =>
        error = nullTypeError "message" /\
        exists before t stage,
          evs = before
                ++ stageEvents env HEADERS (su_NETWORK_TYPE w) token stage t /\
          classifyAnswer (api_claim env t) = NullBodyFailure
    end.
Proof.
  revert counter w. induction fuel as [|fuel IH]; intros counter w;
    cbn [claimLoop]; destruct (counter <=? maxCounter) eqn:Hle.
  - exists []. rewrite app_nil_r. pose proof (proj1 (Z.leb_le _ _) Hle).
    unfold outOfFuel.
    cbn [fst snd claimStages count filter List.length hd_error aborted].
    repeat split; auto; try lia; now constructor.
  - exists []. rewrite app_nil_r. apply Z.leb_gt in Hle.
    unfold ret.
    cbn [fst snd claimStages count filter List.length hd_error aborted].
    repeat split; auto; try lia; try (now constructor); intros; lia.
  - rewrite bind_run, claimStage_run.
    pose proof (trace_afterStage token counter w) as Ht1.
    pose proof (netType_afterStage token counter w) as Hn1.
    destruct (stage_counts (su_NETWORK_TYPE w) token counter (clock w))
      as (Hc1 & Hc2 & Hp1 & Hst1 & Hout).
    set (first := stageEvents env HEADERS (su_NETWORK_TYPE w) token counter (clock w))
      in *.
    set (w1 := afterStage env HEADERS token counter w) in *.
    apply Z.leb_le in Hle.
    destruct (stageOutcome counter (classifyAnswer (api_claim env (clock w))))
      as [counter'|error|]; [| |contradiction].
    + destruct Hout as [Hone Hc'].
      destruct (IH counter' w1)
        as (evs & Ht & Hsum & Hd & Hp & Hfuel & Hadv & Hlen & Hrange & Hsorted
            & Hhd & Hres).
      exists (first ++ evs).
      rewrite claimStages_app, Hst1, !count_app, Hc1, Hc2.
      repeat split.
      * rewrite Ht, Ht1, <- app_assoc. reflexivity.
      * lia.
      * lia.
      * apply Forall_app. split; assumption.
      * lia.
      * lia.
      * cbn. lia.
      * constructor; [unfold maxCounter in *; lia|].
        eapply Forall_impl; [|exact Hrange]. cbn. intros; lia.
      * constructor; [exact Hsorted|].
        eapply Forall_impl; [|exact Hrange]. cbn. intros; lia.
      * right. reflexivity.
      * destruct (fst (claimLoop env HEADERS fuel token counter' w1)).
        -- destruct Hres as [Hall Hin]. split; [lia|].
           intros stage Hst. destruct (Z.eq_dec stage counter) as [->|Hne];
             [left; reflexivity|right].
           apply Hin. lia.
        -- destruct Hres as (-> & before & t & stage & -> & Hnull).
           split; [reflexivity|].
           exists (first ++ before), t, stage.
           rewrite <- app_assoc. subst w1. rewrite Hn1. auto.
        -- destruct Hres as [Hall Hle']. split; [lia|exact Hle].
    + destruct Hout as (-> & Ha & Htr & Hnull).
      exists first. cbn [fst snd aborted]. rewrite Hst1, Hc1, Hc2, Ha, Htr.
      repeat split; auto; try lia.
      * cbn. unfold maxCounter in *. repeat constructor; lia.
      * repeat constructor.
      * exists [], (clock w), counter. auto.
  - exists []. rewrite app_nil_r. apply Z.leb_gt in Hle.
    unfold ret.
    cbn [fst snd claimStages count filter List.length hd_error aborted].
    repeat split; auto; try lia; try (now constructor); intros; lia.
Qed.

End DailyClaim.

(** C3.  Against a server that answers the claim request with status 502
    and a [null] body, the turn for stage 1 ends by a TypeError thrown in
    its [catch] block: after the one request and the pause the stage loop
    is left, [dailyClaim] reports the TypeError and returns, and stage 1
    is not asked for again although the loop has fuel for four more
    turns. *)
Theorem claimStage_null_body_aborts :
  let turn := claimStage nullBodyEnv [] (Some "token") 1 initialWorld in
  let whole := dailyClaim nullBodyEnv [] 5 (Some "token") initialWorld in
  classifyAnswer (api_claim nullBodyEnv 0) = NullBodyFailure /\
  fst turn = Thrown (nullTypeError "message") /\
  trace (snd turn)
    = [EvRequest 0%nat
         (claimRequest nullBodyEnv [] (Number 3) (Some "token") 1);
       EvDelay 1000] /\
  fst whole = Done tt /\
  claimStages (trace (snd whole)) = [1] /\
  last (trace (snd whole)) (EvDelay 0)
    = EvLog (LErrorInDailyClaim
               "Cannot read properties of null (reading 'message')").
Proof. repeat split; reflexivity. Qed.

(** C4, as the code has it.  The stage loop, entered at stage 1, ends
    after exactly three answers that advance the counter; each transient
    failure costs one more claim request, so a loop that is not cut short
    issues as many claim requests as three plus the transient failures it
    met, each followed by a flat 1000 ms pause, and it ends as soon as its
    fuel exceeds that number.  The loop is cut short only by the TypeError
    of its [catch] block, on an error response whose body is [null]; that
    request is its last. *)
Theorem claimLoop_requests env HEADERS fuel token w :
  exists evs,
    trace (snd (claimLoop env HEADERS fuel token 1 w)) = trace w ++ evs /\
    count isClaimRequest evs
      = (count isAdvance evs + count isTransient evs
         + aborted (fst (claimLoop env HEADERS fuel token 1 w)))%nat /\
    (count isAdvance evs <= 3)%nat /\
    count isDelay evs = count isClaimRequest evs /\
    Forall (pausesOf 1000) evs /\
    match fst (claimLoop env HEADERS fuel token 1 w) with
    | Done _ => count isAdvance evs = 3%nat
    | OutOfFuel => (fuel <= 3 + count isTransient evs)%nat
    | Thrown error =>
        error = nullTypeError "message" /\
        exists before t stage,
          evs = before
                ++ stageEvents env HEADERS (su_NETWORK_TYPE w) token stage t /\
          classifyAnswer (api_claim env t) = NullBodyFailure
    end.
Proof.
  destruct (claimLoop_run env HEADERS fuel token 1 w)
    as (evs & Ht & Hsum & Hd & Hp & Hfuel & Hadv & _ & _ & _ & _ & Hres).
  change (Z.to_nat (maxCounter + 1 - 1)) with 3%nat in *.
  exists evs. repeat split; auto.
  destruct (fst (claimLoop env HEADERS fuel token 1 w)); cbn [aborted] in *;
    [tauto|exact Hres|lia].
Qed.

(** Against a server whose claim answers are all transient failures the
    stage loop spends whatever fuel it is given, one claim request per unit. *)
Lemma claimLoop_transient_forever env HEADERS fuel token w :
  (forall t, classifyAnswer (api_claim env t) = TransientFailure) ->
  exists evs,
    trace (snd (claimLoop env HEADERS fuel token 1 w)) = trace w ++ evs /\
    count isClaimRequest evs = fuel /\
    fst (claimLoop env HEADERS fuel token 1 w) = OutOfFuel.
Proof.
  intros Hall. revert w. induction fuel as [|fuel IH]; intros w.
  - exists []. rewrite app_nil_r. auto.
  - cbn [claimLoop]. change (1 <=? maxCounter) with true. cbv iota.
    rewrite bind_run, claimStage_run, Hall. cbn [stageOutcome].
    destruct (IH (afterStage env HEADERS token 1 w)) as (evs & Ht & Hn & Hout).
    destruct (stage_counts env HEADERS (su_NETWORK_TYPE w) token 1 (clock w))
      as (Hc1 & _).
    exists (stageEvents env HEADERS (su_NETWORK_TYPE w) token 1 (clock w) ++ evs).
    repeat split.
    + rewrite Ht, trace_afterStage, <- app_assoc. reflexivity.
    + rewrite count_app, Hn, Hc1. reflexivity.
    + exact Hout.
Qed.

(** C4, as the specification has it, fails: no bound limits the claim
    requests of the stage loop when the claim endpoint keeps failing
    without a response. *)
Lemma claimLoop_unbounded : ~ claimRequestsBounded.
Proof.
  intros [bound Hbound].
  specialize (Hbound stubbornEnv [] (S bound) None initialWorld).
  destruct (claimLoop_transient_forever stubbornEnv [] (S bound) None initialWorld)
    as (evs & Ht & Hn & _); [reflexivity|].
  rewrite (@added_app _ _ _ Ht), Hn in Hbound. lia.
Qed.

Section DailyClaimGate.

Variable env : Env.
Variable HEADERS : Headers.

Lemma fetchDaily_run token w :
  let answer := api_state_daily env (clock w) in
  let asked :=
    advance (record (EvRequest (clock w)
                       (dailyRequest env HEADERS (su_NETWORK_TYPE w) token)) w) in
  fetchDaily env HEADERS token w =
  match answer with
  | inl total => (Done (Some total), asked)
  | inr error =>
      (Done None, record (EvLog (LErrorDailyFetching (errText error))) asked)
  end.
Proof.
  unfold fetchDaily, try_catch, axios, getNetType, call, bind. cbn.
  destruct (api_state_daily env (clock w)); reflexivity.
Qed.

End DailyClaimGate.

(** The run of [dailyClaim], by the answer to its first request. *)
Lemma dailyClaim_run env HEADERS fuel token w :
  let answer := api_state_daily env (clock w) in
  exists evs,
    trace (snd (dailyClaim env HEADERS fuel token w)) =
      trace w ++ EvRequest (clock w)
                   (dailyRequest env HEADERS (su_NETWORK_TYPE w) token) :: evs /\
    if countAllowsClaim answer then
      Forall (fun stage => 1 <= stage <= 3) (claimStages evs) /\
      StronglySorted Z.le (claimStages evs) /\
      (claimStages evs = [] \/ hd_error (claimStages evs) = Some 1) /\
      List.length (claimStages evs) = count isClaimRequest evs /\
      match fst (dailyClaim env HEADERS fuel token w) with
      | Done _ =>
          (exists before,
             evs = before ++ [EvLog LAllStagesProcessed] /\
             In 1 (claimStages evs) /\ In 2 (claimStages evs) /\
             In 3 (claimStages evs))
          \/
          (exists before t stage,
             evs = before
                   ++ stageEvents env HEADERS (su_NETWORK_TYPE w) token stage t
                   ++ [EvLog (LErrorInDailyClaim
                                (errText (nullTypeError "message")))] /\
             classifyAnswer (api_claim env t) = NullBodyFailure)
      | OutOfFuel => count isClaimRequest evs = fuel
      | Thrown _ => False
      end
    else
      fst (dailyClaimBody env HEADERS fuel token w) =
        Thrown (plainError notEnoughMessage) /\
      fst (dailyClaim env HEADERS fuel token w) = Done tt /\
      count isClaimRequest evs = 0%nat /\
      claimStages evs = [].
Proof.
  cbv zeta. unfold dailyClaim, dailyClaimBody, try_catch.
  rewrite bind_run, fetchDaily_run. cbv zeta.
  set (asked := advance _).
  destruct (api_state_daily env (clock w)) as [total|error];
    cbn [countAllowsClaim moreThanTen].
  - rewrite bind_run. cbn [log emit].
    destruct (10 <? total).
    + set (w1 := record (EvLog (LTotalTransactions (Some total))) asked).
      rewrite bind_run.
      destruct (claimLoop_run env HEADERS fuel token 1 w1)
        as (evs & Ht & _ & _ & _ & _ & _ & Hlen & Hrange & Hsorted & Hhd & Hres).
      assert (Hst : forall l tail, claimStages
                 ([EvLog (LTotalTransactions (Some total))] ++ l ++ [EvLog tail])
                 = claimStages l).
      { intros l tail. rewrite !claimStages_app. cbn. now rewrite app_nil_r. }
      assert (Hcn : forall l tail, count isClaimRequest
                 ([EvLog (LTotalTransactions (Some total))] ++ l ++ [EvLog tail])
                 = count isClaimRequest l).
      { intros l tail. rewrite !count_app. cbn. lia. }
      destruct (claimLoop env HEADERS fuel token 1 w1) as [[[]|e|] w2];
        cbn [fst snd] in *.
      * exists ([EvLog (LTotalTransactions (Some total))] ++ evs
                ++ [EvLog LAllStagesProcessed]).
        unfold log, emit. cbn [fst snd record trace].
        rewrite Ht. subst w1 asked. cbn [record advance trace].
        rewrite <- !app_assoc. split; [reflexivity|].
        rewrite Hst, Hcn. unfold maxCounter in *.
        destruct Hres as [_ Hin].
        repeat split; auto.
        left. exists ([EvLog (LTotalTransactions (Some total))] ++ evs).
        split; [now rewrite <- app_assoc|].
        repeat split; apply Hin; lia.
      * destruct Hres as (-> & before & t & stage & -> & Hnull).
        exists ([EvLog (LTotalTransactions (Some total))]
                ++ (before ++ stageEvents env HEADERS (su_NETWORK_TYPE w1) token stage t)
                ++ [EvLog (LErrorInDailyClaim (errText (nullTypeError "message")))]).
        unfold log, emit. cbn [fst snd record trace].
        rewrite Ht. subst w1 asked. cbn [record advance trace su_NETWORK_TYPE].
        rewrite <- !app_assoc. split; [reflexivity|].
        rewrite !app_assoc, <- (app_assoc [_]), <- (app_assoc [_]), Hst, Hcn.
        unfold maxCounter in *.
        repeat split; auto.
        right. exists ([EvLog (LTotalTransactions (Some total))] ++ before), t, stage.
        rewrite <- !app_assoc. auto.
      * exists ([EvLog (LTotalTransactions (Some total))] ++ evs).
        rewrite Ht. subst w1 asked. cbn [record advance trace].
        rewrite <- !app_assoc. split; [reflexivity|].
        change (claimStages ([EvLog (LTotalTransactions (Some total))] ++ evs))
          with (claimStages evs).
        rewrite count_app. unfold maxCounter in *.
        change (count isClaimRequest [EvLog (LTotalTransactions (Some total))])
          with 0%nat.
        destruct Hres as [Hn _].
        repeat split; auto; lia.
    + exists [EvLog (LTotalTransactions (Some total));
              EvLog (LErrorInDailyClaim (errText (plainError notEnoughMessage)))].
      unfold throw. subst asked. cbn. rewrite <- !app_assoc.
      repeat split; reflexivity.
  - rewrite bind_run. cbn [log emit].
    exists [EvLog (LErrorDailyFetching (errText error));
            EvLog (LTotalTransactions None);
            EvLog (LErrorInDailyClaim (errText (plainError notEnoughMessage)))].
    unfold throw. subst asked. cbn. rewrite <- !app_assoc.
    repeat split; reflexivity.
Qed.


(** ** Functions that always end *)

Lemma total_ret {A} (a : A) : total (ret a).
Proof. intros w; discriminate. Qed.

Lemma total_throw {A} e : total (@throw A e).
Proof. intros w; discriminate. Qed.

Lemma total_liftResult {A} (r : Result A) : total (liftResult r).
Proof. destruct r; intros w; discriminate. Qed.

Lemma total_emit e : total (emit e).
Proof. intros w; discriminate. Qed.

Lemma total_call {A} ev (answer : nat -> Result A) : total (call ev answer).
Proof. intros w. unfold call. destruct (answer (clock w)); discriminate. Qed.

Lemma total_bind {A B} (m : M A) (f : A -> M B) :
  total m -> (forall a, total (f a)) -> total (bind m f).
Proof.
  intros Hm Hf w. unfold bind. specialize (Hm w).
  destruct (m w) as [[a|e|] w1]; cbn in *; [apply Hf|discriminate|congruence].
Qed.

Lemma total_try_catch {A} (m : M A) (h : Error -> M A) :
  total m -> (forall e, total (h e)) -> total (try_catch m h).
Proof.
  intros Hm Hh w. unfold try_catch. specialize (Hm w).
  destruct (m w) as [[a|e|] w1]; cbn in *; [discriminate|apply Hh|congruence].
Qed.

Ltac total_step :=
  first
    [ apply total_ret
    | apply total_throw
    | apply total_liftResult
    | apply total_emit
    | apply total_call
    | solve [ auto with footprint ]
    | apply total_bind; [ | intros ]
    | apply total_try_catch; [ | intros ]
    | match goal with
      | |- total (if ?b then _ else _) => destruct b
      | |- total (match ?x with _ => _ end) => destruct x
      end ].

Ltac totals := repeat total_step.

Section Totality.

Variable env : Env.
Variable HEADERS : Headers.

Lemma total_axios {A} method endpoint headers data (answer : nat -> Result A) :
  total (axios env method endpoint headers data answer).
Proof.
  intros w. unfold axios, bind, getNetType, call.
  destruct (answer (clock w)); discriminate.
Qed.

Lemma total_readConnection method : total (readConnection method).
Proof. intros w. unfold readConnection. destruct (connection w); discriminate. Qed.

Lemma total_submitOnce tx : total (submitOnce env tx).
Proof.
  intros w. pose proof (submitOnce_run env tx w) as (evs & _ & _ & _ & _ & _ & _ & H).
  intros Heq. rewrite Heq in H. exact H.
Qed.

Lemma total_doTransactions tx keypair retries :
  total (doTransactions env tx keypair retries).
Proof.
  intros w.
  pose proof (doTransactions_run env tx keypair retries w)
    as (evs & _ & _ & _ & _ & _ & _ & H).
  intros Heq. rewrite Heq in H. exact H.
Qed.

Hint Resolve total_axios total_readConnection total_submitOnce
  total_doTransactions : footprint.

Lemma total_openOnce token keypair : total (openOnce env HEADERS token keypair).
Proof. unfold openOnce. totals. Qed.

Lemma total_openMysteryBox token keypair retries :
  total (openMysteryBox env HEADERS token keypair retries).
Proof.
  induction retries as [|n IH]; cbn [openMysteryBox];
    (apply total_try_catch; [apply total_openOnce|]); intros.
  - unfold log. totals.
  - unfold log, delay.
    apply total_bind; [totals|]. intros.
    apply total_bind; [totals|]. intros. exact IH.
Qed.

Lemma total_getToken privateKey : total (getToken env HEADERS privateKey).
Proof. unfold getToken, getKeypair, log. totals. Qed.

Lemma total_getProfile token : total (getProfile env HEADERS token).
Proof. unfold getProfile, log. totals. Qed.

Lemma total_fetchDaily token : total (fetchDaily env HEADERS token).
Proof. unfold fetchDaily, log. totals. Qed.

Lemma total_dailyLogin token keypair :
  total (dailyLogin env HEADERS token keypair).
Proof. unfold dailyLogin, log. totals. Qed.

Hint Resolve total_openMysteryBox : footprint.

Lemma total_openBoxes turns token keypair :
  total (openBoxes env HEADERS turns token keypair).
Proof.
  induction turns as [|n IH]; cbn [openBoxes]; [totals|].
  apply total_bind; [|intros; exact IH].
  unfold openAndReport, log. totals.
Qed.

End Totality.

(** ** Opening boxes *)

Lemma count_none (P q : Event -> bool) (R : Event -> Prop) evs :
  Forall (fun e => P e = true /\ R e) evs ->
  (forall e, P e = true -> q e = false) ->
  count q evs = 0%nat.
Proof.
  intros Hall Hq. unfold count.
  induction Hall as [|e l [HP _] _ IH]; cbn; [reflexivity|].
  now rewrite (Hq e HP).
Qed.

Ltac no_such_event :=
  let e := fresh "e" in
  intros e; destruct e as [| ? [? ? [] ? ?] | | | | | []]; cbn;
  solve [ reflexivity | discriminate | auto ].

Section Boxes.

Variable env : Env.
Variable HEADERS : Headers.

(** One attempt at a box opens with its build request, issues no other,
    and prints none of the lines of [openMysteryBox] or of
    [openMultipleBoxes]. *)
Lemma openOnce_quiet token keypair w :
  exists evs,
    trace (snd (openOnce env HEADERS token keypair w)) = trace w ++ evs /\
    count isBoxReport evs = 0%nat /\
    count isRetryingOpeningBox evs = 0%nat /\
    count isErrorOpeningBox evs = 0%nat /\
    count isBuildRequest evs = 1%nat.
Proof.
  unfold openOnce. rewrite bind_run. unfold axios at 1. rewrite bind_run.
  unfold getNetType, call. cbn [fst snd].
  set (ask := EvRequest (clock w) _).
  assert (Hask : forall rest,
             Forall (fun e => may openEndpoint true false txLine e = true /\ True)
               rest ->
             count isBoxReport (ask :: rest) = 0%nat /\
             count isRetryingOpeningBox (ask :: rest) = 0%nat /\
             count isErrorOpeningBox (ask :: rest) = 0%nat /\
             count isBuildRequest (ask :: rest) = 1%nat).
  { intros rest Hall.
    change (ask :: rest) with ([ask] ++ rest). rewrite !count_app.
    repeat split;
      (erewrite (@count_none _ _ _ rest Hall); [reflexivity|no_such_event]). }
  destruct (api_build_tx env (clock w)) as [hash|e]; cbn [liftResult ret throw].
  - match goal with
    | |- context [snd (?m ?w1)] =>
        assert (Hrest : footprint env (may openEndpoint true false txLine) m)
          by footprints;
        destruct (Step_events (Hrest w1)) as (rest & Ht & Hall)
    end.
    exists (ask :: rest). split.
    + rewrite Ht. cbn [advance record trace]. rewrite <- app_assoc. reflexivity.
    + apply Hask. eapply Forall_impl; [|exact Hall]. cbn. auto.
  - exists [ask]. split; [reflexivity|]. apply Hask. constructor.
Qed.

(** The run of [openMysteryBox] with [retries] retries left: it ends; every
    attempt but the first is announced by a retry line; a throw comes only
    after every retry was used, and is the error of the last attempt. *)
Lemma openMysteryBox_run token keypair retries w :
  exists evs,
    trace (snd (openMysteryBox env HEADERS token keypair retries w))
      = trace w ++ evs /\
    count isBoxReport evs = 0%nat /\
    (count isRetryingOpeningBox evs <= retries)%nat /\
    count isBuildRequest evs = S (count isRetryingOpeningBox evs) /\
    match fst (openMysteryBox env HEADERS token keypair retries w) with
    | Done _ => count isErrorOpeningBox evs = 0%nat
    | Thrown error =>
        count isRetryingOpeningBox evs = retries /\
        count isErrorOpeningBox evs = 1%nat /\
        exists before w0,
          evs = before ++ [EvLog (LErrorOpeningBox (errText error))] /\
          trace (snd (openOnce env HEADERS token keypair w0)) = trace w ++ before /\
          fst (openOnce env HEADERS token keypair w0) = Thrown error
    | OutOfFuel => False
    end.
Proof.
  revert w. induction retries as [|n IH]; intros w; cbn [openMysteryBox];
    unfold try_catch;
    destruct (openOnce_quiet token keypair w)
      as (evs1 & Ht1 & Hb1 & Hr1 & He1 & Hq1);
    pose proof (total_openOnce env HEADERS token keypair w) as Htot;
    destruct (openOnce env HEADERS token keypair w) as [[box|e|] w1] eqn:Hrun;
    cbn [fst snd] in *; try congruence.
  - exists evs1. repeat split; auto; lia.
  - exists (evs1 ++ [EvLog (LErrorOpeningBox (errText e))]).
    unfold bind, log, emit, throw. cbn [fst snd record trace].
    rewrite Ht1, <- app_assoc, !count_app, Hb1, Hr1, He1, Hq1.
    repeat split; auto.
    exists evs1, w. rewrite Hrun. auto.
  - exists evs1. repeat split; auto; lia.
  - unfold bind, log, delay, emit.
    set (w2 := record (EvDelay 1000)
                 (record (EvLog (LRetryingOpeningBox (S n))) w1)).
    destruct (IH w2) as (evs2 & Ht2 & Hb2 & Hr2 & Hq2 & Hres2).
    exists (evs1 ++ [EvLog (LRetryingOpeningBox (S n)); EvDelay 1000] ++ evs2).
    rewrite !count_app, Hb1, Hr1, Hb2, Hq1, Hq2.
    change (count isBoxReport [EvLog (LRetryingOpeningBox (S n)); EvDelay 1000])
      with 0%nat.
    change (count isRetryingOpeningBox
              [EvLog (LRetryingOpeningBox (S n)); EvDelay 1000]) with 1%nat.
    change (count isBuildRequest
              [EvLog (LRetryingOpeningBox (S n)); EvDelay 1000]) with 0%nat.
    repeat split; try lia.
    + rewrite Ht2. subst w2. cbn [record trace]. rewrite Ht1, <- !app_assoc.
      reflexivity.
    + change (count isErrorOpeningBox
                [EvLog (LRetryingOpeningBox (S n)); EvDelay 1000]) with 0%nat.
      rewrite He1.
      destruct (fst (openMysteryBox env HEADERS token keypair n w2)).
      * rewrite Hres2. reflexivity.
      * destruct Hres2 as (Hn & Herr & before & w0 & -> & Htr & Hth).
        rewrite Herr.
        repeat split; try lia; try reflexivity.
        exists (evs1 ++ [EvLog (LRetryingOpeningBox (S n)); EvDelay 1000] ++ before), w0.
        rewrite <- !app_assoc. repeat split; auto.
        rewrite Htr. subst w2. cbn [record trace]. rewrite Ht1, <- !app_assoc.
        reflexivity.
      * contradiction.
Qed.

(** The line printed for an opened box, or the TypeError of reading an
    answer without [data]. *)
Lemma openAndReport_run token keypair w :
  openAndReport env HEADERS token keypair w =
  match openMysteryBox env HEADERS token keypair defaultRetries w with
  | (Done openedBox, w1) =>
      match readSuccess openedBox with
      | inl data =>
          (Done tt,
           record (EvLog (if box_success data
                          then LBoxOpened (statusOf openedBox) (box_amount data)
                          else LAllBoxesOpened)) w1)
      | inr error => (Thrown error, w1)
      end
  | (Thrown error, w1) => (Thrown error, w1)
  | (OutOfFuel, w1) => (OutOfFuel, w1)
  end.
Proof.
  unfold openAndReport. rewrite bind_run.
  destruct (openMysteryBox env HEADERS token keypair defaultRetries w)
    as [[box|e|] w1]; try reflexivity.
  rewrite bind_run.
  destruct (readSuccess box) as [data|e]; cbn [liftResult ret throw];
    [|reflexivity].
  destruct (box_success data); reflexivity.
Qed.

(** The run of the box loop with [turns] turns left; [calls] are the calls
    of [openMysteryBox] it made. *)
Lemma openBoxes_run turns token keypair w :
  exists evs calls,
    trace (snd (openBoxes env HEADERS turns token keypair w)) = trace w ++ evs /\
    count isBuildRequest evs = (calls + count isRetryingOpeningBox evs)%nat /\
    (calls <= turns)%nat /\
    (count isBoxReport evs <= calls)%nat /\
    match fst (openBoxes env HEADERS turns token keypair w) with
    | Done _ =>
        calls = turns /\ count isBoxReport evs = turns /\
        count isErrorOpeningBox evs = 0%nat
    | Thrown error =>
        (count isBoxReport evs < turns)%nat /\
        calls = S (count isBoxReport evs) /\
        ((count isErrorOpeningBox evs = 1%nat /\
          exists before after w0,
            evs = before ++ after /\
            trace w0 = trace w ++ before /\
            count isBoxReport before = count isBoxReport evs /\
            openMysteryBox env HEADERS token keypair defaultRetries w0
              = (Thrown error, snd (openBoxes env HEADERS turns token keypair w)) /\
            count isRetryingOpeningBox after = defaultRetries)
         \/
         (count isErrorOpeningBox evs = 0%nat /\
          exists w0 openedBox,
            openMysteryBox env HEADERS token keypair defaultRetries w0
              = (Done openedBox, snd (openBoxes env HEADERS turns token keypair w)) /\
            readSuccess openedBox = inr error))
    | OutOfFuel => False
    end.
Proof.
  revert w. induction turns as [|n IH]; intros w; cbn [openBoxes].
  - exists [], 0%nat. rewrite app_nil_r. cbn. repeat split; auto.
  - rewrite bind_run, openAndReport_run.
    destruct (openMysteryBox_run token keypair defaultRetries w)
      as (evs1 & Ht1 & Hb1 & Hr1 & Hq1 & Hres1).
    destruct (openMysteryBox env HEADERS token keypair defaultRetries w)
      as [[box|e|] w1] eqn:Hrun; cbn [fst snd] in *; try contradiction.
    + destruct (readSuccess box) as [data|e] eqn:Hread.
      * set (line := if box_success data then _ else _).
        assert (Hline : isBoxReport (EvLog line) = true)
          by (subst line; destruct (box_success data); reflexivity).
        assert (Hc1 : count isBoxReport [EvLog line] = 1%nat)
          by (unfold count; cbn [filter]; rewrite Hline; reflexivity).
        assert (Hc2 : count isErrorOpeningBox [EvLog line] = 0%nat)
          by (subst line; destruct (box_success data); reflexivity).
        assert (Hc3 : count isBuildRequest [EvLog line] = 0%nat)
          by reflexivity.
        assert (Hc4 : count isRetryingOpeningBox [EvLog line] = 0%nat)
          by (subst line; destruct (box_success data); reflexivity).
        destruct (IH (record (EvLog line) w1))
          as (evs2 & calls & Ht2 & Hq2 & Hle2 & Hrep2 & Hres2).
        exists (evs1 ++ [EvLog line] ++ evs2), (S calls). split.
        { rewrite Ht2. cbn [record trace]. rewrite Ht1, <- !app_assoc. reflexivity. }
        rewrite !count_app, Hb1, Hres1, Hq1, Hq2, Hc1, Hc2, Hc3, Hc4.
        split; [lia|]. split; [lia|]. split; [lia|].
        destruct (openBoxes env HEADERS n token keypair (record (EvLog line) w1))
          as [[[]|e|] w2]; cbn [fst snd] in *; try contradiction.
        -- destruct Hres2 as (-> & -> & ->). auto.
        -- destruct Hres2 as (Hlt & Hcalls & Hway).
           split; [lia|]. split; [lia|].
           destruct Hway as [(Herr & before & after & w0 & -> & Htr & Hcnt & Hopen & Hretry)
                            |(Herr & w0 & openedBox & Hopen & Hbad)].
           ++ left. rewrite Herr. split; [reflexivity|].
              exists (evs1 ++ [EvLog line] ++ before), after, w0.
              rewrite <- !app_assoc. repeat split; auto.
              ** rewrite Htr. cbn [record trace]. rewrite Ht1, <- !app_assoc.
                 reflexivity.
              ** rewrite count_app in Hcnt. rewrite !count_app, Hb1, Hc1. lia.
           ++ right. rewrite Herr. split; [reflexivity|].
              exists w0, openedBox. auto.
      * exists evs1, 1%nat. split; [exact Ht1|].
        rewrite Hb1, Hres1, Hq1.
        split; [lia|]. split; [lia|]. split; [lia|].
        split; [lia|]. split; [reflexivity|].
        right. split; [reflexivity|]. exists w, box. rewrite Hrun. auto.
    + destruct Hres1 as (Hn & Herr & before & w0 & -> & Htr & Hth).
      exists (before ++ [EvLog (LErrorOpeningBox (errText e))]), 1%nat.
      split; [exact Ht1|]. rewrite Hb1, Herr, Hq1.
      split; [lia|]. split; [lia|]. split; [lia|].
      split; [lia|]. split; [reflexivity|].
      left. split; [reflexivity|].
      exists [], (before ++ [EvLog (LErrorOpeningBox (errText e))]), w.
      rewrite app_nil_r. repeat split; auto.
Qed.

End Boxes.

(** C10, as the code has it.  [openMultipleBoxes] ends for every
    [totalClaim].  When it returns it has called [openMysteryBox]
    [totalClaim] times, no call gave up, and a box line was printed for
    every call, whether the box reported success or not.  It makes fewer
    calls only by throwing, in the call after the last box line: either
    [openMysteryBox] threw, with its three retries used, or it returned an
    answer that is [null] or whose [data] is absent or [null], and reading
    [success] threw. *)
Theorem openMultipleBoxes_calls env HEADERS token keypair totalClaim w :
  let w' := snd (openMultipleBoxes env HEADERS token keypair totalClaim w) in
  exists evs,
    trace w' = trace w ++ evs /\
    (boxCalls evs <= Z.to_nat totalClaim)%nat /\
    (count isBoxReport evs <= boxCalls evs)%nat /\
    match fst (openMultipleBoxes env HEADERS token keypair totalClaim w) with
    | Done _ =>
        boxCalls evs = Z.to_nat totalClaim /\
        count isBoxReport evs = Z.to_nat totalClaim /\
        count isErrorOpeningBox evs = 0%nat
    | Thrown error =>
        (count isBoxReport evs < Z.to_nat totalClaim)%nat /\
        boxCalls evs = S (count isBoxReport evs) /\
        ((count isErrorOpeningBox evs = 1%nat /\
          exists before after w0,
            evs = before ++ after /\
            trace w0 = trace w ++ before /\
            count isBoxReport before = count isBoxReport evs /\
            openMysteryBox env HEADERS token keypair defaultRetries w0
              = (Thrown error, w') /\
            count isRetryingOpeningBox after = 3%nat)
         \/
         (count isErrorOpeningBox evs = 0%nat /\
          exists w0 openedBox,
            openMysteryBox env HEADERS token keypair defaultRetries w0
              = (Done openedBox, w') /\
            readSuccess openedBox = inr error))
    | OutOfFuel => False
    end.
Proof.
  cbv zeta. unfold openMultipleBoxes.
  destruct (openBoxes_run env HEADERS (Z.to_nat totalClaim) token keypair w)
    as (evs & calls & Ht & Hq & Hle & Hrep & Hres).
  assert (Hcalls : boxCalls evs = calls) by (unfold boxCalls; lia).
  exists evs. rewrite Hcalls.
  split; [exact Ht|]. split; [exact Hle|]. split; [exact Hrep|]. exact Hres.
Qed.

(** C10, as the specification has it, fails: against a server that
    answers the open call with status 200 and an object without [data],
    [openMultipleBoxes] asked for two boxes makes one call of
    [openMysteryBox] and stops, although that call did not give up. *)
Lemma openMultipleBoxes_stops_without_exhaustion : ~ fewerOnlyByExhaustion.
Proof.
  intros Hclaim.
  specialize (Hclaim datalessEnv [] (Some "token")
                {| publicKey := "second"; secretKey := "second" |} 2
                (initialised datalessEnv initialWorld)).
  cbv zeta in Hclaim.
  assert (Hfewer : (1 < Z.to_nat 2)%nat) by (cbn; lia).
  specialize (Hclaim Hfewer). discriminate Hclaim.
Qed.

(** In that run the one call of [openMysteryBox] returns on its first
    attempt, and what is thrown is the TypeError of reading [success]. *)
Example missing_data_stops_the_boxes :
  let keypair := {| publicKey := "second"; secretKey := "second" |} in
  let start := initialised datalessEnv initialWorld in
  let run := openMultipleBoxes datalessEnv [] (Some "token") keypair 2 start in
  fst (openMysteryBox datalessEnv [] (Some "token") keypair defaultRetries start)
    = Done (Some {| ob_status := "ok"; ob_data := Absent |}) /\
  fst run = Thrown (typeError "success") /\
  boxCalls (added start (snd run)) = 1%nat /\
  count isOpenRequest (added start (snd run)) = 1%nat /\
  count isRetryingOpeningBox (added start (snd run)) = 0%nat /\
  count isErrorOpeningBox (added start (snd run)) = 0%nat /\
  count isBoxReport (added start (snd run)) = 0%nat.
Proof. repeat split; reflexivity. Qed.

(** ** The auto flow *)

Lemma split_after {A} (P : A -> Prop) (l1 l2 pre : list A) b post :
  l1 ++ l2 = pre ++ b :: post -> Forall P l1 -> ~ P b ->
  exists pre', pre = l1 ++ pre' /\ l2 = pre' ++ b :: post.
Proof.
  revert pre. induction l1 as [|a l1 IH]; intros pre Heq Hall Hb.
  - exists pre. auto.
  - inversion Hall as [|? ? Ha Hl1]; subst.
    destruct pre as [|a' pre]; cbn in Heq; inversion Heq; subst.
    + contradiction.
    + destruct (IH pre H1 Hl1 Hb) as (pre' & -> & ->).
      exists pre'. auto.
Qed.

Section AutoFlow.

Variable env : Env.
Variable HEADERS : Headers.

Lemma try_catch_bind {A B} (m : M A) (f : A -> M B) (h : Error -> M B) w :
  try_catch (bind m f) h w =
  match m w with
  | (Done a, w1) => try_catch (f a) h w1
  | (Thrown e, w1) => h e w1
  | (OutOfFuel, w1) => (OutOfFuel, w1)
  end.
Proof.
  unfold try_catch, bind. destruct (m w) as [[a|e|] w1]; reflexivity.
Qed.

Lemma footprint_extends {A} P (m : M A) w :
  footprint env P m -> exists evs, trace (snd (m w)) = trace w ++ evs.
Proof.
  intros H. destruct (Step_events (H w)) as (evs & Ht & _). eauto.
Qed.

(** [dailyLogin] opens with the request for the check-in transaction. *)
Lemma dailyLogin_begins token keypair w :
  exists t rq rest,
    trace (snd (dailyLogin env HEADERS token keypair w))
      = trace w ++ EvRequest t rq :: rest /\
    req_endpoint rq = CheckInTransaction.
Proof.
  unfold dailyLogin. rewrite try_catch_bind.
  unfold axios at 1. unfold bind at 1. unfold getNetType, call.
  cbn [fst snd liftResult].
  set (ask := EvRequest (clock w) _).
  destruct (api_check_in_transaction env (clock w)) as [hash|e]; cbn [liftResult ret throw].
  - match goal with
    | |- context [try_catch ?m ?h ?w1] =>
        destruct (@footprint_extends _ (may loginEndpoint true false loginLine)
                    (try_catch m h) w1) as (rest & Hrest)
    end.
    { footprints. }
    eexists _, _, rest. rewrite Hrest. cbn [advance record trace].
    rewrite <- app_assoc. split; reflexivity.
  - match goal with
    | |- context [snd (?m ?w1)] =>
        destruct (@footprint_extends _ (may loginEndpoint true false loginLine)
                    m w1) as (rest & Hrest)
    end.
    { footprints. }
    eexists _, _, rest. rewrite Hrest. cbn [advance record trace].
    rewrite <- app_assoc. split; reflexivity.
Qed.

(** [dailyClaim] swallows every error of its body. *)
Lemma dailyClaim_never_throws fuel token w error :
  fst (dailyClaim env HEADERS fuel token w) <> Thrown error.
Proof.
  unfold dailyClaim, try_catch.
  destruct (dailyClaimBody env HEADERS fuel token w) as [[r|e|] w1];
    cbn; discriminate.
Qed.

Lemma getProfile_run token w :
  let asked :=
    advance (record (EvRequest (clock w)
                       (profileRequest env HEADERS (su_NETWORK_TYPE w) token)) w) in
  getProfile env HEADERS token w =
  match api_rewards_info env (clock w) with
  | inl profile => (Done (Some profile), asked)
  | inr error =>
      (Done None, record (EvLog (LErrorFetchingProfile (errText error))) asked)
  end.
Proof.
  unfold getProfile, try_catch, axios, getNetType, call, bind. cbn.
  destruct (api_rewards_info env (clock w)); reflexivity.
Qed.

Lemma turnInOrder_boxesComeLast evs : turnInOrder env evs -> boxesComeLast evs.
Proof.
  intros (eLogin & eClaim & eBoxes & eClose & -> & _ & _ & Hl & Hc & Hb & Hx & _)
    pre b post Heq Hbox.
  destruct (@split_after _ _ _ _ _ _ _ Heq Hl) as (pre1 & -> & Heq1).
  { destruct b as [| ? [? ? [] ? ?] | | | | |]; cbn in *; congruence. }
  destruct (@split_after _ _ _ _ _ _ _ Heq1 Hc) as (pre2 & -> & Heq2).
  { destruct b as [| ? [? ? [] ? ?] | | | | |]; cbn in *; congruence. }
  assert (Hrest : Forall (fun e => isLoginRequest e = false /\
                                   isClaimPhaseRequest e = false)
                    (eBoxes ++ eClose)).
  { apply Forall_app. split; (eapply Forall_impl; [|eassumption]); cbn;
      intros [| ? [? ? [] ? ?] | | | | |]; cbn; auto; discriminate. }
  rewrite Heq2 in Hrest. apply Forall_app in Hrest. destruct Hrest as [_ Hrest].
  now inversion Hrest.
Qed.

Lemma boxPhase_of_boxes evs :
  Forall (fun e => may boxEndpoint true false boxLine e = true) evs ->
  Forall (fun e => boxPhase e = true) evs.
Proof.
  apply Forall_impl. intros e. unfold boxPhase. apply may_weaken; auto.
  - intros []; cbn; auto.
  - intros l H. unfold profileOrBoxLine. rewrite H. apply orb_true_r.
Qed.

(** One turn of the auto flow, phase after phase. *)
Lemma autoFlowTurn_inOrder fuel token keypair w :
  turnInOrder env (added w (snd (autoFlowTurn env HEADERS fuel token keypair w))).
Proof.
  unfold autoFlowTurn, autoFlowOnce. rewrite bind_run. unfold try_catch.
  rewrite bind_run.
  pose proof (total_dailyLogin env HEADERS token keypair w) as Htot.
  destruct (Step_events (footprint_dailyLogin env HEADERS token keypair w))
    as (eLogin & Ht1 & Hl).
  destruct (dailyLogin_begins token keypair w) as (t1 & rq1 & rest1 & Hb1 & Hep1).
  assert (Hbl : beginsWith CheckInTransaction eLogin).
  { rewrite Ht1 in Hb1. apply app_inv_head in Hb1. subst eLogin.
    exists t1, rq1, rest1. auto. }
  clear Hb1 Hep1.
  destruct (dailyLogin env HEADERS token keypair w) as [[r|e1|] w1];
    cbn [fst snd] in *; [| |congruence].
  2:{ erewrite added_app.
      2:{ unfold log, delay, emit, bind. cbn [fst snd record trace].
          rewrite Ht1, <- !app_assoc. reflexivity. }
      exists eLogin, [], [],
        [EvLog (LErrorInAutoFlow (errText e1)); EvLog LWaiting12Hours;
         EvDelay twelveHours].
      repeat split; auto; try solve [repeat constructor; auto].
      right. repeat split; auto. exists e1. reflexivity. }
  rewrite bind_run.
  pose proof (dailyClaim_never_throws fuel token w1) as Hnt.
  destruct (Step_events (footprint_dailyClaim env HEADERS fuel token w1))
    as (eClaim & Ht2 & Hc).
  destruct (dailyClaim_run env HEADERS fuel token w1) as (rest2 & Hb2 & _).
  assert (Hbc : beginsWith TransactionsStateDaily eClaim).
  { rewrite Ht2 in Hb2. apply app_inv_head in Hb2. subst eClaim.
    eexists _, _, rest2. split; reflexivity. }
  clear Hb2 rest2.
  destruct (dailyClaim env HEADERS fuel token w1) as [[[]|e|] w2];
    cbn [fst snd] in *.
  2:{ exfalso. eapply Hnt. reflexivity. }
  2:{ erewrite added_app by (rewrite Ht2, Ht1, <- app_assoc; reflexivity).
      exists eLogin, eClaim, [], []. rewrite !app_nil_r.
      repeat split; auto. left. reflexivity. }
  rewrite bind_run, getProfile_run. cbv zeta.
  set (ask := EvRequest (clock w2)
                (profileRequest env HEADERS (su_NETWORK_TYPE w2) token)).
  destruct (api_rewards_info env (clock w2)) as [profile|error] eqn:Hprofile.
  - set (w3 := advance (record ask w2)).
    rewrite bind_run. unfold openMultipleBoxes.
    destruct (openBoxes_run env HEADERS (Z.to_nat (ring_monitor profile))
                token keypair w3)
      as (eOpen & calls & Ht3 & Hq & Hle & Hrep & Hres).
    destruct (Step_events
                (footprint_openBoxes env HEADERS
                   (Z.to_nat (ring_monitor profile)) token keypair w3))
      as (eOpen' & Ht3' & Hb).
    rewrite Ht3 in Ht3'. apply app_inv_head in Ht3'. subst eOpen'.
    apply boxPhase_of_boxes in Hb.
    assert (Hcalls : boxCalls eOpen = calls) by (unfold boxCalls; lia).
    destruct (openBoxes env HEADERS (Z.to_nat (ring_monitor profile))
                token keypair w3) as [[[]|e|] w4]; cbn [fst snd] in *;
      try contradiction.
    + erewrite added_app.
      2:{ unfold log, delay, emit, bind. cbn [fst snd record trace].
          rewrite Ht3. subst w3. cbn [record advance trace].
          rewrite Ht2, Ht1, <- !app_assoc. reflexivity. }
      exists eLogin, eClaim, (ask :: eOpen),
        [EvLog LAutoFlowCompleted; EvLog LWaiting12Hours; EvDelay twelveHours].
      repeat split; auto; try solve [repeat constructor; auto].
      right. exists (clock w2), (profileRequest env HEADERS (su_NETWORK_TYPE w2) token), eOpen.
      rewrite Hprofile, Hcalls. destruct Hres as (Hn & Hm & _).
      repeat split; auto; lia.
    + erewrite added_app.
      2:{ unfold log, delay, emit, bind. cbn [fst snd record trace].
          rewrite Ht3. subst w3. cbn [record advance trace].
          rewrite Ht2, Ht1, <- !app_assoc. reflexivity. }
      exists eLogin, eClaim, (ask :: eOpen),
        [EvLog (LErrorInAutoFlow (errText e)); EvLog LWaiting12Hours;
         EvDelay twelveHours].
      repeat split; auto; try solve [repeat constructor; auto].
      right. exists (clock w2), (profileRequest env HEADERS (su_NETWORK_TYPE w2) token), eOpen.
      rewrite Hprofile, Hcalls.
      repeat split; auto; try lia; cbn; discriminate.
  - erewrite added_app.
    2:{ unfold throw, log, delay, emit, bind. cbn [fst snd record advance trace].
        rewrite Ht2, Ht1, <- !app_assoc. reflexivity. }
    exists eLogin, eClaim,
      [ask; EvLog (LErrorFetchingProfile (errText error))],
      [EvLog (LErrorInAutoFlow
                (errText (typeError "ring_monitor")));
       EvLog LWaiting12Hours; EvDelay twelveHours].
    repeat split; auto; try solve [repeat constructor; auto].
    right. exists (clock w2), (profileRequest env HEADERS (su_NETWORK_TYPE w2) token),
        [EvLog (LErrorFetchingProfile (errText error))].
    rewrite Hprofile. repeat split; auto.
Qed.

(** A turn that does not return is held by the stage loop of its daily
    claim. *)
Lemma autoFlowOnce_held fuel token keypair w :
  fst (autoFlowOnce env HEADERS fuel token keypair w) = OutOfFuel ->
  exists r,
    fst (dailyLogin env HEADERS token keypair w) = Done r /\
    fst (dailyClaim env HEADERS fuel token
           (snd (dailyLogin env HEADERS token keypair w))) = OutOfFuel /\
    snd (autoFlowOnce env HEADERS fuel token keypair w)
    = snd (dailyClaim env HEADERS fuel token
             (snd (dailyLogin env HEADERS token keypair w))).
Proof.
  unfold autoFlowOnce. rewrite bind_run.
  pose proof (total_dailyLogin env HEADERS token keypair w) as Htot.
  destruct (dailyLogin env HEADERS token keypair w) as [[r|e1|] w1];
    cbn [fst snd] in *; try discriminate; [|congruence].
  rewrite bind_run.
  destruct (dailyClaim env HEADERS fuel token w1) as [[[]|e|] w2];
    cbn [fst snd]; try discriminate; [|intros _; eauto].
  rewrite bind_run, getProfile_run. cbv zeta.
  destruct (api_rewards_info env (clock w2)) as [profile|e]; [|discriminate].
  rewrite bind_run. unfold openMultipleBoxes.
  pose proof (total_openBoxes env HEADERS (Z.to_nat (ring_monitor profile))
                token keypair
                (advance (record (EvRequest (clock w2)
                   (profileRequest env HEADERS (su_NETWORK_TYPE w2) token)) w2)))
    as Htot2.
  destruct (openBoxes env HEADERS (Z.to_nat (ring_monitor profile)) token keypair _)
    as [[[]|e|] w3]; cbn [fst snd] in *; try discriminate; congruence.
Qed.

(** How a turn ends: by the waiting line and the pause, or never, held by
    a stage loop that has used its fuel on claim requests. *)
Lemma autoFlowTurn_ends fuel token keypair w :
  match fst (autoFlowTurn env HEADERS fuel token keypair w) with
  | Done _ =>
      turnCompleted (added w (snd (autoFlowTurn env HEADERS fuel token keypair w)))
  | Thrown _ => False
  | OutOfFuel =>
      count isClaimRequest
        (added w (snd (autoFlowTurn env HEADERS fuel token keypair w))) = fuel
  end.
Proof.
  unfold autoFlowTurn. rewrite bind_run. unfold try_catch.
  destruct (footprint_extends w (footprint_autoFlowOnce env HEADERS fuel token keypair))
    as (evs & Ht).
  pose proof (autoFlowOnce_held fuel token keypair w) as Hheld.
  destruct (autoFlowOnce env HEADERS fuel token keypair w) as [[[]|e|] w1];
    cbn [fst snd] in *.
  - unfold log, delay, emit, bind. cbn [fst snd].
    erewrite added_app
      by (cbn [record trace]; rewrite Ht, <- !app_assoc; reflexivity).
    exists evs. reflexivity.
  - unfold log, delay, emit, bind. cbn [fst snd].
    erewrite added_app
      by (cbn [record trace]; rewrite Ht, <- !app_assoc; reflexivity).
    exists (evs ++ [EvLog (LErrorInAutoFlow (errText e))]).
    now rewrite <- !app_assoc.
  - destruct (Hheld eq_refl) as (r & Hlogin & Hclaim & Hsnd). subst w1.
    destruct (Step_added (footprint_dailyLogin env HEADERS token keypair w))
      as (Ht1 & Hl & _).
    set (w0 := snd (dailyLogin env HEADERS token keypair w)) in *.
    destruct (dailyClaim_run env HEADERS fuel token w0) as (rest & Ht2 & Hgate).
    cbv zeta in Hgate.
    destruct (countAllowsClaim (api_state_daily env (clock w0))).
    + destruct Hgate as (_ & _ & _ & _ & Hres). rewrite Hclaim in Hres.
      erewrite added_app by (rewrite Ht2, Ht1, <- app_assoc; reflexivity).
      rewrite count_app.
      erewrite count_none; [| exact Hl | no_such_event].
      exact Hres.
    + destruct Hgate as (_ & Hdone & _). congruence.
Qed.

End AutoFlow.

Lemma autoFlowTurn_never_throws env HEADERS fuel token keypair w error :
  fst (autoFlowTurn env HEADERS fuel token keypair w) <> Thrown error.
Proof.
  unfold autoFlowTurn, try_catch, bind.
  destruct (autoFlowOnce env HEADERS fuel token keypair w) as [[[]|e|] w1];
    cbn; discriminate.
Qed.


(** ** The loop over the keys *)

Lemma processPrivateKey_never_throws env HEADERS fuel privateKey w error :
  fst (processPrivateKey env HEADERS fuel privateKey w) <> Thrown error.
Proof.
  unfold processPrivateKey, try_catch, bind.
  destruct (processPrivateKeyBody env HEADERS fuel privateKey w)
    as [[[]|e|] w1]; cbn; discriminate.
Qed.

Lemma processKeys_never_throws env HEADERS fuel keys w error :
  fst (processKeys env HEADERS fuel keys w) <> Thrown error.
Proof.
  revert w. induction keys as [|k rest IH]; intros w; cbn [processKeys].
  - discriminate.
  - unfold bind.
    pose proof (processPrivateKey_never_throws env HEADERS fuel k w) as Hk.
    destruct (processPrivateKey env HEADERS fuel k w) as [[[]|e|] w1];
      cbn [fst] in *.
    + apply IH.
    + exfalso. eapply Hk. reflexivity.
    + discriminate.
Qed.



(** ** The main function *)

Lemma main_after_initialisation env HEADERS fuel keys w :
  main env HEADERS fuel keys w
  = afterInitialisation env HEADERS fuel keys (initialised env w).
Proof. reflexivity. Qed.

Lemma footprint_afterInitialisation env HEADERS fuel keys :
  footprint env (may anyEndpoint true true anyLine)
    (afterInitialisation env HEADERS fuel keys).
Proof. unfold afterInitialisation. footprints. Qed.

Lemma initialised_world env w :
  let netType := operator_network env (clock w) in
  let c := newConnection (rpcUrlOf netType) in
  initialised env w =
  {| clock := S (clock w); su_NETWORK_TYPE := netType;
     su_connection := Some c; connection := Some c;
     trace := (trace w ++ [EvLog LHeader]) ++ [EvQuestion (clock w) AskNetworkType] |}.
Proof. reflexivity. Qed.

(** C7.  The main function is its initialisation followed by the rest of
    the run, and initialisation ends by assigning to [connection] the
    handle that [getConnection] returns.  Whatever world initialisation
    leaves, the rest of the run changes neither the network type nor
    either connection variable; every request goes to the network segment
    of that network type, and every transaction is sent and confirmed
    through that one connection. *)
Theorem handles_fixed_after_initialisation env HEADERS fuel keys w :
  main env HEADERS fuel keys w
    = afterInitialisation env HEADERS fuel keys (initialised env w) /\
  connection (initialised env w) = su_connection (initialised env w) /\
  forall w0,
    let w' := snd (afterInitialisation env HEADERS fuel keys w0) in
    su_NETWORK_TYPE w' = su_NETWORK_TYPE w0 /\
    su_connection w' = su_connection w0 /\
    connection w' = connection w0 /\
    exists evs, trace w' = trace w0 ++ evs /\ Forall (wired env w0) evs.
Proof.
  split; [apply main_after_initialisation|]. split; [reflexivity|].
  intros w0. cbv zeta.
  destruct (footprint_afterInitialisation env HEADERS fuel keys w0)
    as [Hn Hs Hc _ (evs & Ht & Hall & _)].
  repeat split; auto.
  exists evs. split; [exact Ht|].
  eapply Forall_impl; [|exact Hall]. cbn. tauto.
Qed.

(** C8.  The script as given never reaches its first statement: loading
    solanaUtils.js fails on the second declaration of [base58], at line
    483, and the SyntaxError leaves the script before privateKeys.json is
    read, so the file is read not once but never.  Without that
    declaration the module loads. *)
Theorem script_fails_at_module_load env HEADERS fuel w :
  redeclaration [] solanaUtilsDeclarations
    = Some {| decl_line := 483; decl_kind := ConstDecl; decl_name := "base58" |} /\
  script env HEADERS fuel w = (Thrown (syntaxError "base58"), w) /\
  count isFs (added w (snd (script env HEADERS fuel w))) = 0%nat /\
  redeclaration []
    (filter (fun d => negb (Nat.eqb (decl_line d) 483)) solanaUtilsDeclarations)
    = None.
Proof.
  split; [reflexivity|]. split; [reflexivity|]. split; [|reflexivity].
  change (snd (script env HEADERS fuel w)) with w.
  rewrite (@added_app w w []); [reflexivity|now rewrite app_nil_r].
Qed.

(** ** The model at work *)

Example classify_not_ready :
  classifyError
    {| err_response :=
         Some (Some {| data_message := Some "interact task not finished";
                       data_code := Some 100015 |});
       err_message := "Request failed with status code 400" |} = NotReady.
Proof. reflexivity. Qed.

Example classify_already_done :
  classifyError
    {| err_response := Some (Some {| data_message := Some "already claimed";
                                     data_code := Some 100016 |});
       err_message := "Request failed with status code 400" |} = AlreadyDone.
Proof. reflexivity. Qed.

Example classify_transient :
  classifyError socketHangUp = TransientFailure /\
  classifyError
    {| err_response := Some (Some {| data_message := Some "unauthorized";
                                     data_code := Some 401 |});
       err_message := "Request failed with status code 401" |} = TransientFailure.
Proof. split; reflexivity. Qed.

(** Against the stubborn server three units of fuel buy three requests
    for stage 1 and no end. *)
Example stubborn_server_three_requests :
  let run := dailyClaim stubbornEnv [] 3 None initialWorld in
  fst run = OutOfFuel /\
  claimStages (trace (snd run)) = [1; 1; 1].
Proof. split; reflexivity. Qed.

(** Boxes that report [success = false] are opened all the same. *)
Example unsuccessful_boxes_are_all_opened :
  let keypair := {| publicKey := "second"; secretKey := "second" |} in
  let run := openMultipleBoxes obligingEnv [] (Some "token") keypair 2
               (initialised obligingEnv initialWorld) in
  fst run = Done tt /\
  count isBoxReport (trace (snd run)) = 2%nat /\
  filter isBoxReport (trace (snd run))
    = [EvLog LAllBoxesOpened; EvLog LAllBoxesOpened].
Proof. repeat split; reflexivity. Qed.

(** With no connection assigned every submission fails on the handle, the
    four attempts are made, and the error is thrown again. *)
Example no_connection_four_attempts :
  let tx := {| tx_payload := "tx"; tx_signers := [] |} in
  let keypair := {| publicKey := "second"; secretKey := "second" |} in
  let run := doTransactions obligingEnv tx keypair defaultRetries initialWorld in
  fst run = Thrown (typeError "sendRawTransaction") /\
  trace (snd run)
    = [EvLog (LRetryingTransaction 3); EvDelay 1000;
       EvLog (LRetryingTransaction 2); EvDelay 1000;
       EvLog (LRetryingTransaction 1); EvDelay 1000;
       EvLog (LErrorInTransaction
                "Cannot read properties of undefined (reading 'sendRawTransaction')")].
Proof. split; reflexivity. Qed.

(** The statements of the script against the obliging server: the first
    key is reported and skipped, the second opens its two boxes. *)
Example script_processes_both_keys :
  let run := scriptBody obligingEnv [] 4 initialWorld in
  fst run = Done tt /\
  count isBoxReport (trace (snd run)) = 2%nat /\
  filter isFs (trace (snd run)) = [EvFs FsRead "privateKeys.json"].
Proof. repeat split; reflexivity. Qed.

(** * Further properties of the code *)

(** ** solanaUtils.js *)

Lemma isBase58Char_alphabet c :
  isBase58Char c = existsb (Ascii.eqb c) (list_ascii_of_string base58Alphabet).
Proof. destruct c as [[] [] [] [] [] [] [] []]; reflexivity. Qed.

Lemma allBase58_chars str :
  allBase58 str = true <->
  forall c, In c (list_ascii_of_string str) ->
            In c (list_ascii_of_string base58Alphabet).
Proof.
  induction str as [|a rest IH]; cbn [allBase58 list_ascii_of_string].
  - split; [intros _ c []|reflexivity].
  - rewrite andb_true_iff, IH, isBase58Char_alphabet, existsb_exists. split.
    + intros [(x & Hx & Heq) Hrest] c [<-|Hc]; [|now apply Hrest].
      apply Ascii.eqb_eq in Heq. now subst.
    + intros H. split.
      * exists a. split; [apply H; now left|apply Ascii.eqb_refl].
      * intros c Hc. apply H. now right.
Qed.

(** The regular expression of [isValidBase58] accepts exactly the
    non-empty strings over the 58 characters of the base58 alphabet: no
    digit zero, no capital O or I, no small l. *)
Theorem isValidBase58_alphabet str :
  List.length (list_ascii_of_string base58Alphabet) = 58%nat /\
  (isValidBase58 str = true <->
   str <> "" /\
   forall c, In c (list_ascii_of_string str) ->
             In c (list_ascii_of_string base58Alphabet)).
Proof.
  split; [reflexivity|].
  destruct str as [|a rest]; cbn [isValidBase58].
  - split; [discriminate|intros [H _]; now elim H].
  - rewrite allBase58_chars. split; [intros H; split; [discriminate|exact H]|tauto].
Qed.

Lemma allBase58_app a b :
  allBase58 (a ++ b) = allBase58 a && allBase58 b.
Proof.
  induction a as [|c a IH]; cbn; [reflexivity|].
  now rewrite IH, andb_assoc.
Qed.

(** Validity is kept by concatenation and lost by a single foreign
    character anywhere: a string is valid with another one appended
    exactly when it is non-empty on one side and all characters on both
    sides belong to the class. *)
Theorem isValidBase58_app a b :
  isValidBase58 (a ++ b) =
  allBase58 a && allBase58 b && negb (String.eqb (a ++ b) "").
Proof.
  destruct a as [|c a]; cbn [String.append].
  - destruct b as [|c b]; cbn [isValidBase58 allBase58 String.eqb negb andb];
      [reflexivity|].
    now rewrite andb_true_r.
  - cbn [isValidBase58 String.eqb negb]. rewrite andb_true_r.
    change (String c (a ++ b)) with (String c a ++ b)%string.
    apply allBase58_app.
Qed.

Lemma prefix_append a b : String.prefix a (a ++ b) = true.
Proof.
  induction a as [|c a IH]; cbn; [now destruct b|].
  destruct (ascii_dec c c); [exact IH|congruence].
Qed.

(** [getKeypairFromPrivateKey] returns a key pair only for a valid base58
    string that decodes; every error it raises is a plain error whose
    message begins with 'Invalid private key format: '; and a string that
    fails the format check is rejected whatever the decoder would say. *)
Theorem getKeypairFromPrivateKey_errors decode privateKey :
  match getKeypairFromPrivateKey decode privateKey with
  | inl keypair =>
      isValidBase58 privateKey = true /\ decode privateKey = inl keypair
  | inr error =>
      err_response error = None /\
      String.prefix invalidFormat (err_message error) = true /\
      (isValidBase58 privateKey = true \/
       forall decode',
         getKeypairFromPrivateKey decode' privateKey = inr error)
  end.
Proof.
  unfold getKeypairFromPrivateKey.
  destruct (isValidBase58 privateKey) eqn:Hvalid; cbn [negb].
  - destruct (decode privateKey) as [keypair|e]; [auto|].
    cbn [err_response err_message plainError].
    repeat split; auto. apply prefix_append.
  - cbn [err_response err_message plainError].
    repeat split; auto.
Qed.

(** After [setNetType], [getNetType] gives back the value it was passed
    and [getConnection] a connection to the RPC endpoint its [switch]
    chose, while the variable of claim.js is left alone.  The [switch]
    compares strictly and the url of a request loosely, so the RPC
    endpoint and the API segment name the same network exactly for the
    numbers 1, 2 and 3 and for a string that reads as 3: for any other
    number, and for a string that reads as 1 or 2, transactions go to
    testnet v1 while requests go to another network. *)
Theorem setNetType_round_trip env netType w :
  let w' := snd (setNetType netType w) in
  getNetType w' = (Done netType, w') /\
  getConnection w' = (Done (Some (newConnection (rpcUrlOf netType))), w') /\
  connection w' = connection w /\
  trace w' = trace w /\
  (networkOfRpc (rpcUrlOf netType)
   = networkOfSegment (networkSegment env netType)
   <-> (netType = Number 1 \/ netType = Number 2 \/
        looselyEquals env netType 3 = true)).
Proof.
  cbv zeta. do 4 (split; [reflexivity|]).
  unfold rpcUrlOf, networkSegment.
  destruct netType as [z|s]; cbn [strictlyEquals looselyEquals].
  - destruct (Z.eqb_spec z 1) as [->|H1]; [cbn; split; auto|].
    destruct (Z.eqb_spec z 2) as [->|H2]; [cbn; split; auto|].
    destruct (Z.eqb_spec z 3) as [->|H3]; [cbn; split; auto|].
    cbn. split; [discriminate|].
    intros [H|[H|H]]; [inversion H; contradiction|inversion H; contradiction|
                       discriminate].
  - destruct (toNumber env s) as [z|]; cbn.
    + destruct (Z.eqb_spec z 3) as [->|H3]; [cbn; split; auto|].
      destruct (Z.eqb_spec z 2) as [->|H2]; cbn;
        (split; [discriminate|]);
        intros [H|[H|H]]; discriminate.
    + split; [discriminate|]. intros [H|[H|H]]; discriminate.
Qed.

(** The operator's answer "2", handed on as the string it is, sends the
    transactions to testnet v1 and the requests to /testnet. *)
Example text_two_splits_the_networks :
  let w' := snd (setNetType (Text "2") initialWorld) in
  su_connection w' = Some (newConnection TESTNET_V1_URL) /\
  networkSegment obligingEnv (su_NETWORK_TYPE w') = "/testnet".
Proof. split; reflexivity. Qed.

(** ** Segments *)

Lemma segment_ret Q {A} (a : A) : appendable Q -> segment Q (ret a).
Proof. intros [H0 _] w. exists []. rewrite app_nil_r. auto. Qed.

Lemma segment_throw Q {A} e : appendable Q -> segment Q (@throw A e).
Proof. intros [H0 _] w. exists []. rewrite app_nil_r. auto. Qed.

Lemma segment_outOfFuel Q {A} : appendable Q -> segment Q (@outOfFuel A).
Proof. intros [H0 _] w. exists []. rewrite app_nil_r. auto. Qed.

Lemma segment_liftResult Q {A} (r : Result A) :
  appendable Q -> segment Q (liftResult r).
Proof. intros [H0 _] w. exists []. rewrite app_nil_r. destruct r; auto. Qed.

Lemma segment_bind Q {A B} (m : M A) (f : A -> M B) :
  appendable Q -> segment Q m -> (forall a, segment Q (f a)) ->
  segment Q (bind m f).
Proof.
  intros [_ Happ] Hm Hf w. unfold bind.
  destruct (Hm w) as (e1 & Ht1 & H1).
  destruct (m w) as [[a|e|] w1]; cbn [snd] in *; eauto.
  destruct (Hf a w1) as (e2 & Ht2 & H2).
  exists (e1 ++ e2). rewrite Ht2, Ht1, <- app_assoc. auto.
Qed.

Lemma segment_try_catch Q {A} (m : M A) (h : Error -> M A) :
  appendable Q -> segment Q m -> (forall e, segment Q (h e)) ->
  segment Q (try_catch m h).
Proof.
  intros [_ Happ] Hm Hh w. unfold try_catch.
  destruct (Hm w) as (e1 & Ht1 & H1).
  destruct (m w) as [[a|e|] w1]; cbn [snd] in *; eauto.
  destruct (Hh e w1) as (e2 & Ht2 & H2).
  exists (e1 ++ e2). rewrite Ht2, Ht1, <- app_assoc. auto.
Qed.

Lemma segment_try_finally Q {A} (m : M A) (final : M unit) :
  appendable Q -> segment Q m -> segment Q final ->
  segment Q (try_finally m final).
Proof.
  intros [_ Happ] Hm Hf w. unfold try_finally.
  destruct (Hm w) as (e1 & Ht1 & H1).
  destruct (m w) as [[a|e|] w1]; cbn [snd] in *; eauto;
    destruct (Hf w1) as (e2 & Ht2 & H2);
    destruct (final w1) as [[[]|e'|] w2]; cbn [snd] in *;
    exists (e1 ++ e2); rewrite Ht2, Ht1, <- app_assoc; auto.
Qed.

Lemma segment_emit Q e : Q [e] -> segment Q (emit e).
Proof. intros H w. exists [e]. auto. Qed.

Lemma segment_call Q {A} ev (answer : nat -> Result A) :
  (forall t, Q [ev t]) -> segment Q (call ev answer).
Proof.
  intros H w. exists [ev (clock w)]. unfold call.
  destruct (answer (clock w)); cbn; auto.
Qed.

Lemma segment_axios env Q {A} method endpoint headers data
    (answer : nat -> Result A) :
  (forall t network,
      Q [EvRequest t {| req_method := method; req_network := network;
                        req_endpoint := endpoint; req_headers := headers;
                        req_data := data |}]) ->
  segment Q (axios env method endpoint headers data answer).
Proof.
  intros H w. eexists [_]. unfold axios, bind, getNetType, call.
  destruct (answer (clock w)); cbn; split; try reflexivity; apply H.
Qed.

Lemma segment_readConnection Q method :
  appendable Q -> segment Q (readConnection method).
Proof.
  intros [H0 _] w. exists []. rewrite app_nil_r. unfold readConnection.
  destruct (connection w); auto.
Qed.

Lemma appendable_Forall (P : Event -> Prop) : appendable (Forall P).
Proof. split; [constructor|]. intros a b Ha Hb. apply Forall_app. auto. Qed.

Create HintDb segment.

Ltac one_event :=
  solve [ constructor; [ cbn; auto | constructor ]
        | repeat constructor; cbn; auto ].

Ltac segment_step HQ :=
  first
    [ solve [ apply segment_ret; exact HQ ]
    | solve [ apply segment_throw; exact HQ ]
    | solve [ apply segment_outOfFuel; exact HQ ]
    | solve [ apply segment_liftResult; exact HQ ]
    | solve [ apply segment_readConnection; exact HQ ]
    | apply segment_emit; one_event
    | apply segment_axios; intros; one_event
    | apply segment_call; intros; one_event
    | solve [ auto with segment ]
    | apply segment_bind; [ exact HQ | | intros ]
    | apply segment_try_catch; [ exact HQ | | intros ]
    | apply segment_try_finally; [ exact HQ | | ]
    | match goal with
      | |- segment _ (if ?b then _ else _) => destruct b
      | |- segment _ (match ?x with _ => _ end) => destruct x
      end ].

Ltac segments HQ := repeat segment_step HQ.

(** ** The auto flow is unattended *)

Section AutoAlphabet.

Variable env : Env.
Variable HEADERS : Headers.
Variable token : option string.

Lemma alphabet_doTransactions tx keypair retries :
  segment (Forall (autoAlphabet HEADERS token))
    (doTransactions env tx keypair retries).
Proof.
  pose proof (appendable_Forall (autoAlphabet HEADERS token)) as HQ.
  induction retries as [|n IH]; cbn [doTransactions].
  - apply segment_try_catch; [exact HQ| |intros]; unfold submitOnce,
      sendRawTransaction, confirmTransaction; segments HQ.
  - apply segment_try_catch; [exact HQ| |intros].
    + unfold submitOnce, sendRawTransaction, confirmTransaction; segments HQ.
    + apply segment_bind; [exact HQ|segments HQ|intros].
      apply segment_bind; [exact HQ|segments HQ|intros]. exact IH.
Qed.

Hint Resolve alphabet_doTransactions : segment.

Lemma alphabet_openOnce keypair :
  segment (Forall (autoAlphabet HEADERS token))
    (openOnce env HEADERS token keypair).
Proof.
  pose proof (appendable_Forall (autoAlphabet HEADERS token)) as HQ.
  unfold openOnce. segments HQ. Qed.

Lemma alphabet_openMysteryBox keypair retries :
  segment (Forall (autoAlphabet HEADERS token))
    (openMysteryBox env HEADERS token keypair retries).
Proof.
  pose proof (appendable_Forall (autoAlphabet HEADERS token)) as HQ.
  induction retries as [|n IH]; cbn [openMysteryBox];
    (apply segment_try_catch; [exact HQ|apply alphabet_openOnce|intros]).
  - segments HQ.
  - apply segment_bind; [exact HQ|segments HQ|intros].
    apply segment_bind; [exact HQ|segments HQ|intros]. exact IH.
Qed.

Hint Resolve alphabet_openMysteryBox : segment.

Lemma alphabet_openBoxes turns keypair :
  segment (Forall (autoAlphabet HEADERS token))
    (openBoxes env HEADERS turns token keypair).
Proof.
  pose proof (appendable_Forall (autoAlphabet HEADERS token)) as HQ.
  induction turns as [|n IH]; cbn [openBoxes]; [segments HQ|].
  apply segment_bind; [exact HQ| |intros; exact IH].
  unfold openAndReport. segments HQ.
Qed.

Lemma alphabet_claimLoop fuel counter :
  segment (Forall (autoAlphabet HEADERS token))
    (claimLoop env HEADERS fuel token counter).
Proof.
  pose proof (appendable_Forall (autoAlphabet HEADERS token)) as HQ.
  revert counter. induction fuel as [|n IH]; intros counter; cbn [claimLoop];
    destruct (counter <=? maxCounter); segments HQ.
Qed.

Hint Resolve alphabet_openBoxes alphabet_claimLoop : segment.

Lemma alphabet_dailyClaim fuel :
  segment (Forall (autoAlphabet HEADERS token))
    (dailyClaim env HEADERS fuel token).
Proof.
  pose proof (appendable_Forall (autoAlphabet HEADERS token)) as HQ.
  unfold dailyClaim, dailyClaimBody, fetchDaily. segments HQ. Qed.

Lemma alphabet_dailyLogin keypair :
  segment (Forall (autoAlphabet HEADERS token))
    (dailyLogin env HEADERS token keypair).
Proof.
  pose proof (appendable_Forall (autoAlphabet HEADERS token)) as HQ.
  unfold dailyLogin. segments HQ. Qed.

Lemma alphabet_getProfile :
  segment (Forall (autoAlphabet HEADERS token)) (getProfile env HEADERS token).
Proof.
  pose proof (appendable_Forall (autoAlphabet HEADERS token)) as HQ.
  unfold getProfile. segments HQ. Qed.

Hint Resolve alphabet_dailyClaim alphabet_dailyLogin alphabet_getProfile
  : segment.

Lemma alphabet_autoFlowTurn fuel keypair :
  segment (Forall (autoAlphabet HEADERS token))
    (autoFlowTurn env HEADERS fuel token keypair).
Proof.
  pose proof (appendable_Forall (autoAlphabet HEADERS token)) as HQ.
  unfold autoFlowTurn, autoFlowOnce, openMultipleBoxes. segments HQ.
Qed.

Lemma alphabet_runAutoFlowTurns turns fuel keypair :
  segment (Forall (autoAlphabet HEADERS token))
    (runAutoFlowTurns env HEADERS turns fuel token keypair).
Proof.
  pose proof (appendable_Forall (autoAlphabet HEADERS token)) as HQ.
  induction turns as [|n IH]; cbn [runAutoFlowTurns]; [segments HQ|].
  apply segment_bind; [exact HQ|apply alphabet_autoFlowTurn|intros; exact IH].
Qed.

End AutoAlphabet.

(** The auto flow is unattended and never authenticates again: through
    all its turns it asks the operator nothing, touches no file, calls
    only the reward endpoints, always with the token it was started with,
    and pauses only for one second or for twelve hours. *)
Theorem runAutoFlow_unattended env HEADERS fuel token keypair w :
  exists evs,
    trace (snd (runAutoFlow env HEADERS fuel token keypair w)) = trace w ++ evs /\
    Forall (autoAlphabet HEADERS token) evs.
Proof. apply alphabet_runAutoFlowTurns. Qed.

(** ** Hashes reported to the API *)

Lemma confirmedIn_app env signature pre evs post :
  confirmedIn env signature evs ->
  confirmedIn env signature (pre ++ evs ++ post).
Proof.
  intros (t & c & raw & Hs & Hc & Ha).
  exists t, c, raw. repeat split; try apply Ha;
    apply in_or_app; right; apply in_or_app; left; assumption.
Qed.

Lemma appendable_hashesConfirmed env : appendable (hashesConfirmed env).
Proof.
  split; [intros t rq hash []|].
  intros a b Ha Hb t rq hash Hin Hd.
  apply in_app_or in Hin. destruct Hin as [Hin|Hin].
  - specialize (Ha t rq hash Hin Hd).
    apply (@confirmedIn_app env hash [] a b) in Ha. exact Ha.
  - specialize (Hb t rq hash Hin Hd).
    apply (@confirmedIn_app env hash a b []) in Hb.
    now rewrite app_nil_r in Hb.
Qed.

Lemma appendable_hashesAre signature : appendable (hashesAre signature).
Proof.
  split; [intros t rq hash []|].
  intros a b Ha Hb t rq hash Hin Hd.
  apply in_app_or in Hin. destruct Hin; eauto.
Qed.

(** A single event that reports no hash. *)
Ltac no_hash :=
  let H := fresh in
  let Hd := fresh in
  intros ? ? ? [H|[]] Hd; inversion H; subst; cbn in Hd; discriminate.

(** A single event that reports the expected hash. *)
Ltac that_hash :=
  let H := fresh in
  let Hd := fresh in
  intros ? ? ? [H|[]] Hd; inversion H; subst; cbn in Hd; congruence.

Ltac hash_step HQ :=
  first
    [ solve [ apply segment_ret; exact HQ ]
    | solve [ apply segment_throw; exact HQ ]
    | solve [ apply segment_liftResult; exact HQ ]
    | apply segment_emit; solve [ no_hash ]
    | apply segment_axios; intros; solve [ no_hash | that_hash ]
    | solve [ auto with segment ]
    | apply segment_bind; [ exact HQ | | intros ]
    | apply segment_try_catch; [ exact HQ | | intros ]
    | match goal with
      | |- segment _ (if ?b then _ else _) => destruct b
      | |- segment _ (match ?x with _ => _ end) => destruct x
      end ].

Ltac hashes HQ := repeat hash_step HQ.

Section Hashes.

Variable env : Env.
Variable HEADERS : Headers.

(** A transaction submitted and then reported: whatever is reported
    after [doTransactions] returned a signature is confirmed, provided
    the continuation reports that signature only. *)
Lemma hashes_after_doTransactions {A} tx keypair (k : string -> M A) :
  (forall signature, segment (hashesAre signature) (k signature)) ->
  segment (hashesConfirmed env)
    (bind (doTransactions env tx keypair defaultRetries) k).
Proof.
  intros Hk w. unfold bind.
  destruct (doTransactions_run env tx keypair defaultRetries w)
    as (evs1 & Ht1 & _ & _ & _ & _ & _ & Hres).
  destruct (Step_events
              (footprint_doTransactions env tx keypair defaultRetries w))
    as (evs1' & Ht1' & Hkind).
  rewrite Ht1 in Ht1'. apply app_inv_head in Ht1'. subst evs1'.
  assert (Hnone : forall t rq, ~ In (EvRequest t rq) evs1).
  { intros t rq Hin. rewrite Forall_forall in Hkind.
    specialize (Hkind _ Hin). discriminate. }
  destruct (doTransactions env tx keypair defaultRetries w)
    as [[signature|e|] w1]; cbn [fst snd] in *.
  - destruct (Hk signature w1) as (evs2 & Ht2 & H2).
    exists (evs1 ++ evs2). rewrite Ht2, Ht1, <- app_assoc.
    split; [reflexivity|].
    intros t rq hash Hin Hd. apply in_app_or in Hin.
    destruct Hin as [Hin|Hin]; [now elim (Hnone t rq)|].
    rewrite (H2 t rq hash Hin Hd).
    destruct Hres as (before & t0 & c & raw & -> & _ & Hsend & Hconf).
    exists t0, c, raw. repeat split; auto;
      apply in_or_app; left; apply in_or_app; right; cbn; auto.
  - exists evs1. split; [exact Ht1|].
    intros t rq hash Hin. now elim (Hnone t rq).
  - contradiction.
Qed.

Lemma hashes_openOnce token keypair :
  segment (hashesConfirmed env) (openOnce env HEADERS token keypair).
Proof.
  pose proof (appendable_hashesConfirmed env) as HQ.
  unfold openOnce.
  apply segment_bind; [exact HQ|hashes HQ|intros hash].
  apply segment_bind; [exact HQ|hashes HQ|intros tx].
  apply segment_bind; [exact HQ|hashes HQ|intros tx'].
  apply hashes_after_doTransactions. intros signature.
  apply segment_axios. intros. that_hash.
Qed.

Lemma hashes_openMysteryBox token keypair retries :
  segment (hashesConfirmed env)
    (openMysteryBox env HEADERS token keypair retries).
Proof.
  pose proof (appendable_hashesConfirmed env) as HQ.
  induction retries as [|n IH]; cbn [openMysteryBox];
    (apply segment_try_catch; [exact HQ|apply hashes_openOnce|intros]).
  - hashes HQ.
  - apply segment_bind; [exact HQ|hashes HQ|intros].
    apply segment_bind; [exact HQ|hashes HQ|intros]. exact IH.
Qed.

Lemma hashes_openBoxes turns token keypair :
  segment (hashesConfirmed env) (openBoxes env HEADERS turns token keypair).
Proof.
  pose proof (appendable_hashesConfirmed env) as HQ.
  induction turns as [|n IH]; cbn [openBoxes]; [hashes HQ|].
  apply segment_bind; [exact HQ| |intros; exact IH].
  unfold openAndReport.
  apply segment_bind; [exact HQ|apply hashes_openMysteryBox|intros].
  hashes HQ.
Qed.

Lemma hashes_dailyLogin token keypair :
  segment (hashesConfirmed env) (dailyLogin env HEADERS token keypair).
Proof.
  pose proof (appendable_hashesConfirmed env) as HQ.
  unfold dailyLogin.
  apply segment_try_catch; [exact HQ| |intros; hashes HQ].
  apply segment_bind; [exact HQ|hashes HQ|intros hash].
  apply segment_bind; [exact HQ|hashes HQ|intros tx].
  apply segment_bind; [exact HQ|hashes HQ|intros tx'].
  apply hashes_after_doTransactions. intros signature.
  pose proof (appendable_hashesAre signature) as HS.
  apply segment_bind; [exact HS| |intros; apply segment_ret; exact HS].
  apply segment_axios. intros. that_hash.
Qed.

End Hashes.

(** [dailyLogin] checks in only with proof: the hash it posts to the
    check-in endpoint is the signature the node returned for a check-in
    transaction sent in this very call, and the node confirmed that
    transaction. *)
Theorem dailyLogin_reports_confirmed env HEADERS token keypair w :
  exists evs,
    trace (snd (dailyLogin env HEADERS token keypair w)) = trace w ++ evs /\
    hashesConfirmed env evs.
Proof. apply hashes_dailyLogin. Qed.

(** However many boxes are opened and however often an attempt is
    retried, every hash posted to the open endpoint is the signature of a
    transaction that was sent in the same run and confirmed by the node. *)
Theorem openMultipleBoxes_reports_confirmed env HEADERS token keypair totalClaim w :
  exists evs,
    trace (snd (openMultipleBoxes env HEADERS token keypair totalClaim w))
      = trace w ++ evs /\
    hashesConfirmed env evs.
Proof. apply hashes_openBoxes. Qed.

(** ** What an action costs *)

Lemma cost_weaken {A} s r d s' r' d' (m : M A) :
  withinCost s r d m -> (s <= s')%nat -> (r <= r')%nat -> (d <= d')%nat ->
  withinCost s' r' d' m.
Proof.
  intros H Hs Hr Hd w. destruct (H w) as (evs & Ht & ? & ? & ?).
  exists evs. repeat split; auto; lia.
Qed.

Lemma cost_nothing {A} (m : M A) :
  (forall w, snd (m w) = w) -> withinCost 0 0 0 m.
Proof.
  intros H w. exists []. rewrite H, app_nil_r. cbn. auto.
Qed.

Lemma cost_ret {A} (a : A) : withinCost 0 0 0 (ret a).
Proof. now apply cost_nothing. Qed.

Lemma cost_throw {A} e : withinCost 0 0 0 (@throw A e).
Proof. now apply cost_nothing. Qed.

Lemma cost_liftResult {A} (r : Result A) : withinCost 0 0 0 (liftResult r).
Proof. apply cost_nothing. now destruct r. Qed.

Lemma cost_log l : withinCost 0 0 0 (log l).
Proof. intros w. exists [EvLog l]. cbn. auto. Qed.

Lemma cost_delay ms : withinCost 0 0 1 (delay ms).
Proof. intros w. exists [EvDelay ms]. cbn. auto. Qed.

Lemma cost_axios env {A} method endpoint headers data (answer : nat -> Result A) :
  withinCost 0 1 0 (axios env method endpoint headers data answer).
Proof.
  intros w. eexists [_]. unfold axios, bind, getNetType, call.
  destruct (answer (clock w)); cbn; auto.
Qed.

Lemma cost_bind {A B} s1 r1 d1 s2 r2 d2 (m : M A) (f : A -> M B) :
  withinCost s1 r1 d1 m -> (forall a, withinCost s2 r2 d2 (f a)) ->
  withinCost (s1 + s2) (r1 + r2) (d1 + d2) (bind m f).
Proof.
  intros Hm Hf w. unfold bind.
  destruct (Hm w) as (e1 & Ht1 & ? & ? & ?).
  destruct (m w) as [[a|e|] w1]; cbn [snd] in *;
    try (exists e1; repeat split; auto; lia).
  destruct (Hf a w1) as (e2 & Ht2 & ? & ? & ?).
  exists (e1 ++ e2). rewrite Ht2, Ht1, <- app_assoc, !count_app.
  repeat split; auto; lia.
Qed.

Lemma cost_try_catch {A} s1 r1 d1 s2 r2 d2 (m : M A) (h : Error -> M A) :
  withinCost s1 r1 d1 m -> (forall e, withinCost s2 r2 d2 (h e)) ->
  withinCost (s1 + s2) (r1 + r2) (d1 + d2) (try_catch m h).
Proof.
  intros Hm Hh w. unfold try_catch.
  destruct (Hm w) as (e1 & Ht1 & ? & ? & ?).
  destruct (m w) as [[a|e|] w1]; cbn [snd] in *;
    try (exists e1; repeat split; auto; lia).
  destruct (Hh e w1) as (e2 & Ht2 & ? & ? & ?).
  exists (e1 ++ e2). rewrite Ht2, Ht1, <- app_assoc, !count_app.
  repeat split; auto; lia.
Qed.

Section Costs.

Variable env : Env.
Variable HEADERS : Headers.

(** [doTransactions] with [retries] retries: one send per attempt, one
    pause per retry, no API request. *)
Lemma cost_doTransactions tx keypair retries :
  withinCost (S retries) 0 retries (doTransactions env tx keypair retries).
Proof.
  intros w.
  destruct (doTransactions_run env tx keypair retries w)
    as (evs & Ht & Hr & Hs & Hd & _ & _ & _).
  destruct (Step_events (footprint_doTransactions env tx keypair retries w))
    as (evs' & Ht' & Hkind).
  rewrite Ht in Ht'. apply app_inv_head in Ht'. subst evs'.
  exists evs. unfold attempts in Hs. repeat split; auto; try lia.
  erewrite count_none with (P := may noEndpoint true false txLine)
                           (R := fun _ => True); [lia| |].
  - eapply Forall_impl; [|exact Hkind]. cbn. auto.
  - intros [| ? [? ? [] ? ?] | | | | |]; cbn; unfold noEndpoint; congruence.
Qed.

Lemma cost_openOnce token keypair :
  withinCost 4 2 3 (openOnce env HEADERS token keypair).
Proof.
  unfold openOnce.
  eapply cost_weaken.
  - eapply cost_bind; [apply cost_axios|intros].
    eapply cost_bind; [apply cost_liftResult|intros].
    eapply cost_bind; [apply cost_liftResult|intros].
    eapply cost_bind; [apply cost_doTransactions|intros].
    apply cost_axios.
  - cbn. unfold defaultRetries. lia.
  - cbn. lia.
  - cbn. unfold defaultRetries. lia.
Qed.

Lemma cost_openMysteryBox token keypair retries :
  withinCost (4 * S retries) (2 * S retries) (3 * S retries + retries)
    (openMysteryBox env HEADERS token keypair retries).
Proof.
  induction retries as [|n IH]; cbn [openMysteryBox].
  - eapply cost_weaken.
    + eapply cost_try_catch; [apply cost_openOnce|intros].
      eapply cost_bind; [apply cost_log|intros; apply cost_throw].
    + lia.
    + lia.
    + lia.
  - eapply cost_weaken.
    + eapply cost_try_catch; [apply cost_openOnce|intros].
      eapply cost_bind; [apply cost_log|intros].
      eapply cost_bind; [apply cost_delay|intros]. exact IH.
    + lia.
    + lia.
    + lia.
Qed.

Lemma cost_openBoxes turns token keypair :
  withinCost (16 * turns) (8 * turns) (15 * turns)
    (openBoxes env HEADERS turns token keypair).
Proof.
  induction turns as [|n IH]; cbn [openBoxes].
  - apply cost_ret.
  - eapply cost_weaken.
    + eapply cost_bind; [|intros; exact IH].
      unfold openAndReport.
      eapply cost_bind; [apply (cost_openMysteryBox _ _ defaultRetries)|intros].
      eapply cost_bind; [apply cost_liftResult|intros data].
      destruct (box_success data); apply cost_log.
    + unfold defaultRetries. lia.
    + unfold defaultRetries. lia.
    + unfold defaultRetries. lia.
Qed.

Lemma cost_dailyLogin token keypair :
  withinCost 4 2 3 (dailyLogin env HEADERS token keypair).
Proof.
  unfold dailyLogin. eapply cost_weaken.
  - eapply cost_try_catch.
    + eapply cost_bind; [apply cost_axios|intros].
      eapply cost_bind; [apply cost_liftResult|intros].
      eapply cost_bind; [apply cost_liftResult|intros].
      eapply cost_bind; [apply cost_doTransactions|intros].
      eapply cost_bind; [apply cost_axios|intros; apply cost_ret].
    + intros. eapply cost_bind; [apply cost_liftResult|intros checkedIn].
      eapply cost_bind; [|intros; apply cost_ret].
      destruct checkedIn; apply cost_log.
  - cbn. unfold defaultRetries. lia.
  - cbn. lia.
  - cbn. unfold defaultRetries. lia.
Qed.

End Costs.

(** Opening one box costs at most 16 calls of [sendRawTransaction], 8 API
    requests and 15 one-second pauses, and opening [totalClaim] boxes at
    most [totalClaim] times as much: four attempts per box, four
    submissions per attempt. *)
Theorem openMultipleBoxes_cost env HEADERS token keypair totalClaim :
  withinCost 16 8 15 (openMysteryBox env HEADERS token keypair defaultRetries) /\
  withinCost (16 * Z.to_nat totalClaim) (8 * Z.to_nat totalClaim)
    (15 * Z.to_nat totalClaim)
    (openMultipleBoxes env HEADERS token keypair totalClaim).
Proof.
  split.
  - exact (cost_openMysteryBox env HEADERS token keypair 3).
  - apply cost_openBoxes.
Qed.

(** The bound on submissions is reached: a node that refuses every
    transaction is called 16 times for one box. *)
Example refused_box_sixteen_sends :
  let keypair := {| publicKey := "second"; secretKey := "second" |} in
  let run := openMysteryBox refusingEnv [] (Some "token") keypair defaultRetries
               (initialised refusingEnv initialWorld) in
  count isSend (trace (snd run)) = 16%nat /\
  count isDelay (trace (snd run)) = 15%nat /\
  fst run = Thrown socketHangUp.
Proof. repeat split; reflexivity. Qed.

(** A daily login costs at most 4 calls of [sendRawTransaction], 2 API
    requests and 3 one-second pauses. *)
Theorem dailyLogin_cost env HEADERS token keypair :
  withinCost 4 2 3 (dailyLogin env HEADERS token keypair).
Proof. apply cost_dailyLogin. Qed.

(** ** Every attempt sends *)

Section Sending.

Variable env : Env.

Lemma submitOnce_sends tx w c raw :
  connection w = Some c ->
  serialize env tx = inl raw ->
  exists evs,
    trace (snd (submitOnce env tx w)) = trace w ++ evs /\
    count isSend evs = 1%nat /\
    count isRetryingTransaction evs = 0%nat /\
    Forall (sendsOnly c raw) evs /\
    connection (snd (submitOnce env tx w)) = Some c.
Proof.
  intros Hc Hser.
  unfold submitOnce, sendRawTransaction, confirmTransaction,
    readConnection, call, bind.
  rewrite Hser. cbn. rewrite Hc. cbn.
  destruct (rpc_sendRawTransaction env (clock w)) as [sig|e]; cbn.
  2:{ exists [EvSendRaw (clock w) c raw]. repeat split; auto.
      repeat constructor. }
  rewrite Hc. cbn.
  destruct (rpc_confirmTransaction env (S (clock w))) as [[]|e]; cbn;
    exists [EvSendRaw (clock w) c raw; EvConfirm (S (clock w)) c sig];
    rewrite <- app_assoc; repeat split; auto; repeat constructor.
Qed.

Lemma doTransactions_sends tx keypair retries w c raw :
  connection w = Some c ->
  serialize env tx = inl raw ->
  exists evs,
    trace (snd (doTransactions env tx keypair retries w)) = trace w ++ evs /\
    count isSend evs = attempts evs /\
    Forall (sendsOnly c raw) evs.
Proof.
  intros Hc Hser. revert w Hc.
  induction retries as [|n IH]; intros w Hc; cbn [doTransactions];
    unfold try_catch;
    destruct (submitOnce_sends tx w Hc Hser)
      as (evs1 & Ht1 & Hs1 & Hr1 & Hall1 & Hc1);
    pose proof (total_submitOnce env tx w) as Htot;
    destruct (submitOnce env tx w) as [[sig|e|] w1];
    cbn [fst snd] in *; try congruence; unfold attempts.
  - exists evs1. rewrite Hs1, Hr1. auto.
  - exists (evs1 ++ [EvLog (LErrorInTransaction (errText e))]).
    unfold bind, log, emit, throw. cbn [fst snd record trace].
    rewrite Ht1, <- app_assoc, !count_app, Hs1, Hr1.
    repeat split; auto. apply Forall_app. split; auto. repeat constructor.
  - exists evs1. rewrite Hs1, Hr1. auto.
  - unfold bind, log, delay, emit. cbn [fst snd].
    set (w2 := record (EvDelay 1000)
                 (record (EvLog (LRetryingTransaction (S n))) w1)).
    destruct (IH w2 Hc1) as (evs2 & Ht2 & Hs2 & Hall2).
    exists (evs1 ++ [EvLog (LRetryingTransaction (S n)); EvDelay 1000] ++ evs2).
    unfold attempts in Hs2. rewrite !count_app, Hs1, Hr1, Hs2.
    repeat split.
    + rewrite Ht2. subst w2. cbn [record trace]. rewrite Ht1, <- !app_assoc.
      reflexivity.
    + apply Forall_app. split; auto.
      apply Forall_app. split; auto. repeat constructor.
Qed.

End Sending.

(** With a connection assigned and a transaction that serializes, every
    attempt of [doTransactions] sends: the serialized transaction goes to
    the node once per attempt, at least once and at most four times, and
    always through the assigned connection. *)
Theorem doTransactions_sends_each_attempt env tx keypair w c raw :
  connection w = Some c ->
  serialize env tx = inl raw ->
  exists evs,
    trace (snd (doTransactions env tx keypair defaultRetries w)) = trace w ++ evs /\
    count isSend evs = attempts evs /\
    (1 <= count isSend evs <= 4)%nat /\
    Forall (sendsOnly c raw) evs.
Proof.
  intros Hc Hser.
  destruct (doTransactions_sends env tx keypair defaultRetries w Hc Hser)
    as (evs & Ht & Hs & Hall).
  destruct (doTransactions_run env tx keypair defaultRetries w)
    as (evs' & Ht' & Hr & _).
  rewrite Ht in Ht'. apply app_inv_head in Ht'. subst evs'.
  exists evs. unfold attempts, defaultRetries in *. repeat split; auto; lia.
Qed.

(** Against the obliging server the one attempt sends once. *)
Lemma doTransactions_sends_each_attempt_witness :
  let tx := {| tx_payload := "tx"; tx_signers := [] |} in
  let keypair := {| publicKey := "second"; secretKey := "second" |} in
  let w := initialised obligingEnv initialWorld in
  exists evs,
    trace (snd (doTransactions obligingEnv tx keypair defaultRetries w))
      = trace w ++ evs /\
    count isSend evs = attempts evs /\
    (1 <= count isSend evs <= 4)%nat /\
    Forall (sendsOnly (newConnection TESTNET_V1_URL) "tx") evs.
Proof.
  cbv zeta.
  apply (@doTransactions_sends_each_attempt obligingEnv
           {| tx_payload := "tx"; tx_signers := [] |}
           {| publicKey := "second"; secretKey := "second" |}
           (initialised obligingEnv initialWorld)
           (newConnection TESTNET_V1_URL) "tx");
    reflexivity.
Defined.

(** ** Authentication *)

(** [getToken] never throws.  A key that does not decode costs no
    request; the authorize request is sent only after the challenge was
    answered, at the next instant, and carries the signature of that
    challenge under the key; the token is returned exactly when both
    requests succeed, and every failure leaves one line and [undefined]. *)
Theorem getToken_outcomes env HEADERS privateKey w :
  let w' := snd (getToken env HEADERS privateKey w) in
  let said error := EvLog (LErrorFetchingToken (errText error)) in
  match keypairFromSecretKey env privateKey with
  | inr error =>
      fst (getToken env HEADERS privateKey w) = Done None /\
      added w w' = [said error]
  | inl keypair =>
      let ask := EvRequest (clock w)
                   (challengeRequest env HEADERS (su_NETWORK_TYPE w) keypair) in
      match api_challenge env (clock w) with
      | inr error =>
          fst (getToken env HEADERS privateKey w) = Done None /\
          added w w' = [ask; said error]
      | inl challenge =>
          let authorize :=
            EvRequest (S (clock w))
              (authorizeRequest env HEADERS (su_NETWORK_TYPE w) keypair challenge) in
          match api_authorize env (S (clock w)) with
          | inl token =>
              fst (getToken env HEADERS privateKey w) = Done (Some token) /\
              added w w' = [ask; authorize]
          | inr error =>
              fst (getToken env HEADERS privateKey w) = Done None /\
              added w w' = [ask; authorize; said error]
          end
      end
  end.
Proof.
  cbv zeta. unfold getToken, try_catch, getKeypair, axios, getNetType, call, bind.
  destruct (keypairFromSecretKey env privateKey) as [keypair|e]; cbn.
  2:{ split; [reflexivity|]. apply added_app. reflexivity. }
  destruct (api_challenge env (clock w)) as [challenge|e]; cbn.
  2:{ split; [reflexivity|]. apply added_app. cbn. now rewrite <- app_assoc. }
  destruct (api_authorize env (S (clock w))) as [token|e]; cbn;
    (split; [reflexivity|]); apply added_app; cbn; now rewrite <- !app_assoc.
Qed.

Lemma getToken_returns env HEADERS privateKey w :
  exists r, fst (getToken env HEADERS privateKey w) = Done r.
Proof.
  pose proof (total_getToken env HEADERS privateKey w) as Htot.
  unfold getToken, try_catch in *.
  match goal with |- context [?body w] => destruct (body w) as [[r|e|] w1] end;
    cbn in *; eauto; congruence.
Qed.

(** ** Processing one key *)

(** A key that does not decode costs nothing: [processPrivateKey] issues
    no request and asks no question, reports the decoder's error and
    returns. *)
Theorem undecodable_key_costs_nothing env HEADERS fuel privateKey error w :
  keypairFromSecretKey env privateKey = inr error ->
  processPrivateKey env HEADERS fuel privateKey w
  = (Done tt, afterCaught error w).
Proof.
  intros H.
  unfold processPrivateKey, try_catch, processPrivateKeyBody, getKeypair, bind.
  rewrite H. reflexivity.
Qed.

Lemma undecodable_key_costs_nothing_witness :
  processPrivateKey obligingEnv [] 4 "first" initialWorld
  = (Done tt, afterCaught (plainError "Non-base58 character") initialWorld).
Proof.
  apply (@undecodable_key_costs_nothing obligingEnv [] 4 "first"
           (plainError "Non-base58 character") initialWorld).
  reflexivity.
Defined.

Lemma Forall_may_weaken eps eps' (rpc rpc' ask ask' : bool) lines lines' evs :
  (forall ep, eps ep = true -> eps' ep = true) ->
  (rpc = true -> rpc' = true) ->
  (ask = true -> ask' = true) ->
  (forall l, lines l = true -> lines' l = true) ->
  Forall (fun e => may eps rpc ask lines e = true) evs ->
  Forall (fun e => may eps' rpc' ask' lines' e = true) evs.
Proof.
  intros He Hr Ha Hl. apply Forall_impl. intros e. now apply may_weaken.
Qed.

(** Without a profile or without balance nothing is undertaken: when the
    profile request fails or reports a balance that is not positive,
    [processPrivateKey] returns having called only the authentication and
    profile endpoints; it asks the operator nothing, submits no
    transaction and calls no reward endpoint. *)
Theorem no_balance_no_action env HEADERS fuel privateKey w :
  (forall t, match api_rewards_info env t with
             | inl profile => wallet_balance profile <= 0
             | inr _ => True
             end) ->
  let w' := snd (processPrivateKey env HEADERS fuel privateKey w) in
  fst (processPrivateKey env HEADERS fuel privateKey w) = Done tt /\
  Forall (fun e => may authOrProfileEndpoint false false anyLine e = true)
    (added w w').
Proof.
  intros Hbroke. cbv zeta.
  unfold processPrivateKey, processPrivateKeyBody, getKeypair.
  rewrite bind_run. unfold try_catch. rewrite bind_run.
  destruct (keypairFromSecretKey env privateKey) as [owner|e];
    cbn [liftResult ret throw].
  2:{ cbn. split; [reflexivity|].
      erewrite added_app by (cbn; rewrite <- app_assoc; reflexivity).
      repeat constructor. }
  rewrite bind_run.
  destruct (getToken_returns env HEADERS privateKey w) as [token Htoken].
  destruct (Step_events (footprint_getToken env HEADERS privateKey w))
    as (eToken & Ht1 & Hk1).
  destruct (getToken env HEADERS privateKey w) as [o1 w1].
  cbn [fst snd] in *. subst o1.
  rewrite bind_run, getProfile_run. cbv zeta.
  specialize (Hbroke (clock w1)).
  assert (Hweak : Forall (fun e => may authOrProfileEndpoint false false anyLine e = true)
                    eToken).
  { eapply Forall_may_weaken; [| | | |exact Hk1]; auto.
    intros []; cbn; auto. }
  destruct (api_rewards_info env (clock w1)) as [profile|e].
  - assert (Hz : (0 <? wallet_balance profile) = false) by (apply Z.ltb_ge; lia).
    rewrite Hz. cbn. split; [reflexivity|].
    erewrite added_app
      by (cbn [record advance trace]; rewrite Ht1, <- !app_assoc; reflexivity).
    apply Forall_app. split; [exact Hweak|repeat constructor].
  - cbn. split; [reflexivity|].
    erewrite added_app
      by (cbn [record advance trace]; rewrite Ht1, <- !app_assoc; reflexivity).
    apply Forall_app. split; [exact Hweak|repeat constructor].
Qed.

Lemma no_balance_no_action_witness :
  fst (processPrivateKey brokeEnv [] 4 "first" initialWorld) = Done tt /\
  Forall (fun e => may authOrProfileEndpoint false false anyLine e = true)
    (added initialWorld
       (snd (processPrivateKey brokeEnv [] 4 "first" initialWorld))).
Proof.
  apply (@no_balance_no_action brokeEnv [] 4 "first" initialWorld).
  intros t. cbn. lia.
Defined.

(** ** The manual menu *)

Lemma footprint_askAndOpenBoxes_boxes env HEADERS fuel privateKey token availableBoxes :
  footprint env (may boxEndpoint true true anyLine)
    (askAndOpenBoxes env HEADERS fuel privateKey token availableBoxes).
Proof.
  induction fuel as [|n IH]; cbn [askAndOpenBoxes]; [footprints|].
  apply footprint_bind; [footprints|]. intros totalClaim.
  apply footprint_bind; [footprints|]. intros _.
  destruct (exceeds env totalClaim availableBoxes); [exact IH|footprints].
Qed.

(** The menu runs the one action that was picked: after the question,
    entry 1 calls only the claim endpoints and submits no transaction,
    entry 2 calls only the box endpoints, entry 3 only the check-in
    endpoints, and any other answer calls nothing at all. *)
Theorem manualFlow_one_action env HEADERS fuel privateKey token availableBoxes w :
  let method := operator_answer env (clock w) in
  let w' := snd (manualFlow env HEADERS fuel privateKey token availableBoxes w) in
  Forall (fun e => may (menuEndpoints method) (menuSubmits method) true anyLine e
                   = true)
    (added w w').
Proof.
  cbv zeta. unfold manualFlow. rewrite bind_run.
  unfold question at 1, call at 1. cbn [liftResult ret fst snd].
  set (method := operator_answer env (clock w)).
  set (w1 := advance (record (EvQuestion (clock w) AskMethod) w)).
  match goal with
  | |- context [added w (snd (?m w1))] =>
      assert (Hrest : footprint env
                        (may (menuEndpoints method) (menuSubmits method) true anyLine)
                        m)
  end.
  { clearbody method. unfold menuEndpoints, menuSubmits.
    destruct (String.eqb_spec method "1") as [->|H1];
      [cbn [String.eqb Ascii.eqb Bool.eqb orb]; footprints|].
    destruct (String.eqb_spec method "2") as [->|H2].
    - apply footprint_bind; [footprints|]. intros _.
      cbn [String.eqb Ascii.eqb Bool.eqb orb].
      footprint_of footprint_askAndOpenBoxes_boxes.
    - destruct (String.eqb_spec method "3") as [->|H3];
        cbn [String.eqb Ascii.eqb Bool.eqb orb]; footprints. }
  destruct (Step_events (Hrest w1)) as (evs & Ht & Hall).
  erewrite added_app
    by (rewrite Ht; subst w1; cbn [record advance trace];
        rewrite <- app_assoc; reflexivity).
  constructor; [reflexivity|exact Hall].
Qed.

(** The box menu never opens more boxes than are available: whatever the
    operator types and however often, at most [availableBoxes] box lines
    are printed. *)
Theorem askAndOpenBoxes_within_available env HEADERS fuel privateKey token
    availableBoxes w :
  let w' := snd (askAndOpenBoxes env HEADERS fuel privateKey token
                   availableBoxes w) in
  exists evs,
    trace w' = trace w ++ evs /\
    (count isBoxReport evs <= Z.to_nat availableBoxes)%nat.
Proof.
  cbv zeta. revert w. induction fuel as [|n IH]; intros w; cbn [askAndOpenBoxes].
  - exists []. rewrite app_nil_r. cbn. split; [reflexivity|lia].
  - rewrite bind_run. unfold question at 1, call at 1.
    cbn [liftResult ret fst snd].
    set (totalClaim := operator_answer env (clock w)).
    set (ask := EvQuestion (clock w) (AskHowManyBoxes availableBoxes)).
    set (w1 := advance (record ask w)).
    rewrite bind_run. unfold exceeds.
    destruct (toNumber env totalClaim) as [number|] eqn:Hnumber.
    2:{ exists [ask; EvLog LEnterValidNumber]. cbn.
        rewrite <- app_assoc. split; [reflexivity|lia]. }
    destruct (availableBoxes <? number) eqn:Hexceeds.
    + cbn [log emit fst snd].
      set (w2 := record (EvLog LCannotOpenMore) w1).
      destruct (IH w2) as (evs & Ht & Hcount).
      exists ([ask; EvLog LCannotOpenMore] ++ evs). split.
      * rewrite Ht. subst w2 w1. cbn [record advance trace].
        rewrite <- !app_assoc. reflexivity.
      * rewrite count_app. cbn. exact Hcount.
    + apply Z.ltb_ge in Hexceeds.
      rewrite bind_run. cbn [log emit fst snd].
      set (w2 := record (EvLog LOpeningBoxes) w1).
      rewrite bind_run. unfold getKeypair.
      destruct (keypairFromSecretKey env privateKey) as [keypair|e];
        cbn [liftResult ret throw].
      2:{ exists [ask; EvLog LOpeningBoxes]. subst w2 w1. cbn.
          rewrite <- app_assoc. split; [reflexivity|lia]. }
      rewrite bind_run. unfold openMultipleBoxes.
      destruct (openBoxes_run env HEADERS (Z.to_nat number) token keypair w2)
        as (evs & calls & Ht & _ & _ & _ & Hres).
      destruct (openBoxes env HEADERS (Z.to_nat number) token keypair w2)
        as [[[]|e|] w3]; cbn [fst snd] in *; try contradiction.
      * exists ([ask; EvLog LOpeningBoxes] ++ evs ++ [EvLog LBoxOpeningCompleted]).
        split.
        -- cbn [log emit ret fst snd trace record]. rewrite Ht. subst w2 w1.
           cbn [record advance trace]. rewrite <- !app_assoc. reflexivity.
        -- rewrite !count_app. destruct Hres as (_ & -> & _). cbn. lia.
      * exists ([ask; EvLog LOpeningBoxes] ++ evs). split.
        -- rewrite Ht. subst w2 w1.
           cbn [record advance trace]. rewrite <- !app_assoc. reflexivity.
        -- rewrite !count_app. destruct Hres as [Hlt _]. cbn. lia.
Qed.

(** ** Turns and the end of the script *)

(** A turn of the auto flow always waits: whether its actions succeeded
    or threw, the turn returns after the waiting line and a pause of
    twelve hours; it never throws, and it fails to return only when the
    stage loop of its daily claim does not end. *)
Theorem autoFlowTurn_always_waits env HEADERS fuel token keypair w :
  match fst (autoFlowTurn env HEADERS fuel token keypair w) with
  | Done _ =>
      exists before,
        trace (snd (autoFlowTurn env HEADERS fuel token keypair w))
        = trace w ++ before ++ [EvLog LWaiting12Hours; EvDelay 43200000]
  | Thrown _ => False
  | OutOfFuel =>
      fst (dailyClaim env HEADERS fuel token
             (snd (dailyLogin env HEADERS token keypair w))) = OutOfFuel
  end.
Proof.
  unfold autoFlowTurn. rewrite bind_run. unfold try_catch.
  destruct (footprint_extends w (footprint_autoFlowOnce env HEADERS fuel token keypair))
    as (evs & Ht).
  pose proof (autoFlowOnce_held env HEADERS fuel token keypair w) as Hheld.
  destruct (autoFlowOnce env HEADERS fuel token keypair w) as [[[]|e|] w1];
    cbn [fst snd] in *.
  - unfold log, delay, emit, bind. cbn [fst snd record trace].
    exists evs. rewrite Ht. now rewrite <- !app_assoc.
  - unfold log, delay, emit, bind. cbn [fst snd record trace].
    exists (evs ++ [EvLog (LErrorInAutoFlow (errText e))]).
    rewrite Ht. now rewrite <- !app_assoc.
  - destruct (Hheld eq_refl) as (r & _ & Hclaim & _). exact Hclaim.
Qed.

Lemma afterInitialisation_no_files env HEADERS fuel keys w0 :
  exists evs,
    trace (snd (afterInitialisation env HEADERS fuel keys w0)) = trace w0 ++ evs /\
    Forall (fun e => isFs e = false) evs.
Proof.
  destruct (Step_events (footprint_afterInitialisation env HEADERS fuel keys w0))
    as (evs & Ht & Hall).
  exists evs. split; [exact Ht|].
  eapply Forall_impl; [|exact Hall]. cbn.
  intros [] Hm; cbn in *; congruence.
Qed.


(** Once the modules have loaded, the statements of claim.js touch the
    file system once, reading privateKeys.json before anything else, and
    never write.  A key file that cannot be read or parsed is the one
    error that leaves them, before anything is printed. *)
Theorem scriptBody_reads_keys_once env HEADERS fuel w :
  let loaded := record (EvFs FsRead "privateKeys.json") w in
  (exists rest,
     trace (snd (scriptBody env HEADERS fuel w))
       = trace w ++ EvFs FsRead "privateKeys.json" :: rest /\
     Forall (fun e => isFs e = false) rest) /\
  count isFs (added w (snd (scriptBody env HEADERS fuel w))) = 1%nat /\
  match privateKeysFile env with
  | inr error => scriptBody env HEADERS fuel w = (Thrown error, loaded)
  | inl keys =>
      scriptBody env HEADERS fuel w = main env HEADERS fuel keys loaded /\
      forall error, fst (main env HEADERS fuel keys loaded) <> Thrown error
  end.
Proof.
  cbv zeta.
  assert (H : exists rest,
             trace (snd (scriptBody env HEADERS fuel w))
               = trace w ++ EvFs FsRead "privateKeys.json" :: rest /\
             Forall (fun e => isFs e = false) rest).
  { unfold scriptBody, loadPrivateKeys, bind, emit. cbn [fst snd].
    destruct (privateKeysFile env) as [keys|e]; cbn [liftResult ret throw fst snd].
    - rewrite main_after_initialisation.
      set (w1 := record (EvFs FsRead "privateKeys.json") w).
      destruct (afterInitialisation_no_files env HEADERS fuel keys
                  (initialised env w1)) as (evs & Ht & Hall).
      exists ([EvLog LHeader; EvQuestion (clock w1) AskNetworkType] ++ evs).
      split.
      + rewrite Ht, initialised_world. cbv zeta. subst w1.
        cbn [trace record]. rewrite <- !app_assoc. reflexivity.
      + apply Forall_app. split; [repeat constructor|exact Hall].
    - exists []. split; [reflexivity|constructor]. }
  split; [exact H|]. split.
  - destruct H as (rest & Ht & Hall).
    rewrite (@added_app _ _ _ Ht). unfold count. cbn [filter isFs List.length].
    f_equal. clear Ht. induction Hall as [|e l He _ IH]; [reflexivity|].
    cbn [filter]. rewrite He. exact IH.
  - unfold scriptBody, loadPrivateKeys. rewrite !bind_run. cbn [emit fst snd].
    destruct (privateKeysFile env) as [keys|e]; cbn [liftResult ret throw];
      [|reflexivity].
    split; [reflexivity|]. intros error.
    rewrite main_after_initialisation.
    set (w0 := initialised env _).
    unfold afterInitialisation, try_finally, try_catch. rewrite bind_run.
    destruct (processKeys env HEADERS fuel keys w0) as [[[]|e|] w1];
      cbn [fst snd]; discriminate.
Qed.

(** A turn of the stage loop asks once for the current stage, prints the
    line of the answer and pauses 1000 ms.  It ends by the class of the
    answer alone: a successful claim, the message 'interact task not
    finished' and the codes 100015 and 100016 advance the counter by one;
    an error without a response, or with a body that says none of these,
    leaves the counter where it is, and the loop, still within its bound,
    asks for the same stage again; an error response whose body is [null]
    makes the [catch] block throw, and after the pause the loop is left. *)
Theorem claimStage_outcomes env HEADERS token counter w :
  let answer := api_claim env (clock w) in
  let w' := snd (claimStage env HEADERS token counter w) in
  fst (claimStage env HEADERS token counter w) =
    match classifyAnswer answer with
    | Claimed | NotReady | AlreadyDone => Done (counter + 1)
    | TransientFailure => Done counter
    | NullBodyFailure => Thrown (nullTypeError "message")
    end /\
  trace w' =
    trace w ++ EvRequest (clock w)
                 (claimRequest env HEADERS (su_NETWORK_TYPE w) token counter)
               :: claimLines counter answer ++ [EvDelay 1000] /\
  forall fuel,
    claimLoop env HEADERS (S fuel) token counter w =
    if counter <=? maxCounter then
      match classifyAnswer answer with
      | Claimed | NotReady | AlreadyDone =>
          claimLoop env HEADERS fuel token (counter + 1) w'
      | TransientFailure => claimLoop env HEADERS fuel token counter w'
      | NullBodyFailure => (Thrown (nullTypeError "message"), w')
      end
    else (Done tt, w).
Proof.
  cbv zeta. rewrite claimStage_run. cbn [fst snd]. split; [|split].
  - destruct (classifyAnswer (api_claim env (clock w))); reflexivity.
  - rewrite trace_afterStage. reflexivity.
  - intros fuel. cbn [claimLoop]. destruct (counter <=? maxCounter); [|reflexivity].
    rewrite bind_run, claimStage_run.
    destruct (classifyAnswer (api_claim env (clock w))); reflexivity.
Qed.

(** The hash a successful daily login posts is the signature the node
    returned and confirmed. *)
Example daily_login_posts_the_signature :
  let keypair := {| publicKey := "second"; secretKey := "second" |} in
  let run := dailyLogin obligingEnv [] (Some "token") keypair
               (initialised obligingEnv initialWorld) in
  fst run = Done (Some "checked in") /\
  map (fun e => match e with
                | EvRequest _ r => Some (req_endpoint r, req_data r)
                | _ => None
                end)
      (filter isRequest (added (initialised obligingEnv initialWorld) (snd run)))
  = [Some (CheckInTransaction, NoData); Some (CheckIn, HashData "signature")].
Proof. split; reflexivity. Qed.
